(** * Keystroke trainer: the matching engine, its tokenizer and its statistics

    A shallow embedding of [main.go].  Go strings are byte strings, so a Go
    [string] is a Rocq [string] (a list of 8-bit [ascii]); [len] counts
    bytes.  Go's [int] and [time.Duration] are 64-bit and wrap around; they
    are integers of [Z] with the wrap written out ([wrap64]).  The map
    [map[string]*PatternStats] is a [gmap string PatternStats]; a pointer
    fetched from the map and mutated in place is a lookup followed by an
    insert under the same key.  The widgets are left out except for the
    status label, whose text is kept as a message constructor. *)

From Stdlib Require Import ZArith Lia Ascii String List Permutation.
From stdpp Require Import base option list strings gmap.

Local Open Scope Z_scope.

#[local] Arguments String.append !_ _ / : simpl nomatch.

(** ** Go strings *)

Module GoStrings.

(** [len(s)]: the number of bytes. *)
Definition len (s : string) : Z := Z.of_nat (String.length s).

(** [strings.HasPrefix(s, prefix)]. *)
Fixpoint HasPrefix (s prefix : string) {struct prefix} : bool :=
  match prefix with
  | EmptyString => true
  | String p prefix' =>
      match s with
      | EmptyString => false
      | String c s' => if Ascii.eqb c p then HasPrefix s' prefix' else false
      end
  end.

(** Dropping the first [n] bytes. *)
Fixpoint dropBytes (n : nat) (s : string) : string :=
  match n with
  | O => s
  | S n' => match s with
            | EmptyString => EmptyString
            | String _ s' => dropBytes n' s'
            end
  end.

(** [s[pos:]]; Go panics unless [0 <= pos <= len(s)]. *)
Definition sliceFrom (s : string) (pos : Z) : option string :=
  if (0 <=? pos) && (pos <=? len s) then Some (dropBytes (Z.to_nat pos) s)
  else None.

(** [s[pos]]; Go panics unless [0 <= pos < len(s)]. *)
Definition byteAt (s : string) (pos : Z) : option ascii :=
  if 0 <=? pos then String.get (Z.to_nat pos) s else None.

(** A byte from its value. *)
Definition byteOf (z : Z) : ascii := ascii_of_N (Z.to_N z).

(** [string(r)] for a rune [r]: its UTF-8 encoding, and the encoding of
    U+FFFD for a value that is no Unicode scalar. *)
Definition stringOfRune (r : Z) : string :=
  if (r <? 0) || (1114111 <? r) || ((55296 <=? r) && (r <=? 57343)) then
    String (byteOf 239) (String (byteOf 191) (String (byteOf 189) EmptyString))
  else if r <? 128 then
    String (byteOf r) EmptyString
  else if r <? 2048 then
    String (byteOf (192 + r / 64))
      (String (byteOf (128 + r mod 64)) EmptyString)
  else if r <? 65536 then
    String (byteOf (224 + r / 4096))
      (String (byteOf (128 + (r / 64) mod 64))
         (String (byteOf (128 + r mod 64)) EmptyString))
  else
    String (byteOf (240 + r / 262144))
      (String (byteOf (128 + (r / 4096) mod 64))
         (String (byteOf (128 + (r / 64) mod 64))
            (String (byteOf (128 + r mod 64)) EmptyString))).

(** [string(b)] for a byte [b]: the encoding of the code point [b], one
    byte below 0x80 and two bytes from 0x80 on. *)
Definition stringOfByte (b : ascii) : string :=
  stringOfRune (Z.of_N (N_of_ascii b)).

(** [strings.Join(elems, sep)]. *)
Definition Join (elems : list string) (sep : string) : string :=
  String.concat sep elems.

(** [strings.ReplaceAll(s, old, new)] for a non-empty [old]: the
    non-overlapping occurrences of [old], leftmost first, are replaced.
    [skip] counts the bytes of an occurrence still to be passed over. *)
Fixpoint replaceFrom (skip : nat) (s old new : string) : string :=
  match s with
  | EmptyString => EmptyString
  | String c s' =>
      match skip with
      | S k => replaceFrom k s' old new
      | O =>
          if HasPrefix s old
          then new +:+ replaceFrom (String.length old - 1) s' old new
          else String c (replaceFrom O s' old new)
      end
  end.

Definition ReplaceAll (s old new : string) : string :=
  replaceFrom O s old new.

End GoStrings.

Import GoStrings.

(** ** 64-bit integers *)

Definition wrap64 (z : Z) : Z := (z + 2 ^ 63) mod 2 ^ 64 - 2 ^ 63.

(** [a + b] on [int], [int64] and [time.Duration]. *)
Definition add64 (a b : Z) : Z := wrap64 (a + b).

(** [n++]. *)
Definition incr (n : Z) : Z := add64 n 1.

(** ** The tokenizer *)

Module Tokenizer.

(** The literal tokens, in the order both [formatForDisplay] and
    [getExpectedKey] try them. *)
Definition tokens : list string :=
  ["SLC"; "SRC"; "F10"; "F11"; "F12"; "LC"; "RC"; "MC";
   "F1"; "F2"; "F3"; "F4"; "F5"; "F6"; "F7"; "F8"; "F9"].

(** A list of literals that come longest first. *)
Fixpoint lengthsDescend (l : list string) : bool :=
  match l with
  | [] => true
  | t :: l' =>
      forallb (fun u => String.length u <=? String.length t)%nat l'
      && lengthsDescend l'
  end.

(** The inner [for _, token := range tokens] with its [break]: the first
    literal that is a prefix of the rest of the pattern. *)
Definition matchToken (rest : string) : option string :=
  List.find (HasPrefix rest) tokens.

(** The loop of [getExpectedKey].  [None] stands for a run that does not
    return: the fuel ran out or an index was out of range. *)
Fixpoint getExpectedKey_loop (fuel : nat) (pattern : string)
    (pos charPos : Z) : option string :=
  if negb (pos <? len pattern) then Some "?"
  else
    match fuel with
    | O => None
    | S fuel' =>
        match sliceFrom pattern pos with
        | None => None
        | Some rest =>
            match matchToken rest with
            | Some token =>
                if pos =? charPos then Some token
                else getExpectedKey_loop fuel' pattern (pos + len token) charPos
            | None =>
                if pos =? charPos then stringOfByte <$> byteAt pattern pos
                else getExpectedKey_loop fuel' pattern (pos + 1) charPos
            end
        end
    end.

(** [getExpectedKey].  Every iteration moves [pos] forward, so
    [len(pattern)] iterations are enough ([getExpectedKey_returns]
    below); the default is never used. *)
Definition getExpectedKey (pattern : string) (charPos : Z) : string :=
  default "?" (getExpectedKey_loop (String.length pattern) pattern 0 charPos).

(** The token sequence of a pattern: what the scan of [getExpectedKey]
    cuts the string into, each token as the bytes it covers.  The source
    never builds the sequence; it is the specification's reading of the
    scan, used to state where a token starts and which bytes it
    occupies. *)
Fixpoint tokenSequence_from (fuel : nat) (rest : string) : list string :=
  match fuel with
  | O => []
  | S fuel' =>
      match rest with
      | EmptyString => []
      | String b rest' =>
          match matchToken rest with
          | Some token =>
              token :: tokenSequence_from fuel' (dropBytes (String.length token) rest)
          | None => String b EmptyString :: tokenSequence_from fuel' rest'
          end
      end
  end.

Definition tokenSequence (pattern : string) : list string :=
  tokenSequence_from (String.length pattern) pattern.

(** What [getExpectedKey] reports for a token of the sequence: a literal
    as it is, a single byte through [string(b)]. *)
Definition renderToken (token : string) : string :=
  match token with
  | String b EmptyString => stringOfByte b
  | _ => token
  end.

(** The token of a sequence that starts at byte offset [off]. *)
Fixpoint tokenStartingAt (toks : list string) (off : Z) : option string :=
  match toks with
  | [] => None
  | t :: toks' =>
      if off =? 0 then Some t else tokenStartingAt toks' (off - len t)
  end.

(** The token of a sequence that covers byte offset [off]. *)
Fixpoint tokenOccupying (toks : list string) (off : Z) : option string :=
  match toks with
  | [] => None
  | t :: toks' =>
      if off <? 0 then None
      else if off <? len t then Some t
      else tokenOccupying toks' (off - len t)
  end.

(** [displayIcons]. *)
Definition displayIcons : list (string * string) :=
  [("LC", "‚óê"); ("RC", "‚óë"); ("MC", "‚óâ");
   ("SLC", "‚áß‚óê"); ("SRC", "‚áß‚óë");
   ("F1", "[F1]"); ("F2", "[F2]"); ("F3", "[F3]"); ("F4", "[F4]");
   ("F5", "[F5]"); ("F6", "[F6]"); ("F7", "[F7]"); ("F8", "[F8]");
   ("F9", "[F9]"); ("F10", "[F10]"); ("F11", "[F11]"); ("F12", "[F12]")].

Definition lookupIcon (token : string) : option string :=
  snd <$> List.find (fun kv => String.eqb (fst kv) token) displayIcons.

(** [formatForDisplay]: one [ReplaceAll] per literal, in list order. *)
Definition formatForDisplay (s : string) : string :=
  fold_left
    (fun result token =>
       match lookupIcon token with
       | Some icon => ReplaceAll result token icon
       | None => result
       end)
    tokens s.

End Tokenizer.

Import Tokenizer.


(** ** Time *)

(** A [time.Time] is an instant in nanoseconds counted from the zero time
    [time.Time{}]; a [time.Duration] is a 64-bit count of nanoseconds. *)
Definition Time := Z.
Definition Duration := Z.

Definition zeroTime : Time := 0.
Definition IsZero (t : Time) : bool := t =? zeroTime.

Definition maxDuration : Duration := 2 ^ 63 - 1.
Definition minDuration : Duration := - 2 ^ 63.

(** [t.Sub(u)]: the difference, held at the largest or smallest duration
    when it does not fit. *)
Definition Sub (t u : Time) : Duration :=
  Z.max minDuration (Z.min maxDuration (t - u)).

(** The readings [time.Now()] returns while one event is handled, one per
    call site; no call site runs twice for one event. *)
Record Clock := {
  nowStart : Time;      (* addKey: app.startTime = time.Now() *)
  nowSince : Time;      (* finishPattern: time.Since(app.startTime) *)
  nowPracticed : Time;  (* recordAttempt: ps.LastPracticed *)
  nowMistake : Time;    (* recordMistake: Timestamp *)
  nowSession : Time;    (* AllStats.startSession *)
  nowEnd : Time;        (* endSession: endTime *)
  nowSave : Time        (* save: s.LastUpdated *)
}.

(** ** Patterns and statistics *)

Record Pattern := {
  Name : string;
  PatternText : string  (* the field Pattern *)
}.

Definition defaultPatterns : list Pattern :=
  [ {| Name := "5 Group Cycle"; PatternText := "1a2a3a4a5a" |};
    {| Name := "4 Group Cycle"; PatternText := "1a2a3a4a" |};
    {| Name := "3 Group Cycle"; PatternText := "1a2a3a" |};
    {| Name := "F-Key Cycle"; PatternText := "F1aF2aF3a" |};
    {| Name := "Click Practice"; PatternText := "LCaRCa" |} ].

Module Stats.

Record Mistake := {
  Position : Z;
  Expected : string;
  Actual : string;
  Timestamp : Time
}.

Record PatternStats := {
  StatsPattern : string;  (* the field Pattern *)
  StatsName : string;     (* the field Name *)
  TotalAttempts : Z;
  PerfectCount : Z;
  TotalResets : Z;
  BestTime : Duration;
  TotalTime : Duration;
  CurrentStreak : Z;
  BestStreak : Z;
  LastPracticed : Time;
  Mistakes : list Mistake
}.

Record SessionRecord := {
  StartTime : Time;
  EndTime : Time;
  SessionDuration : Duration;  (* the field Duration *)
  PatternsTotal : Z;
  PatternsPerfect : Z;
  Completed : bool
}.

Record AllStats := {
  PatternStatsMap : gmap string PatternStats;  (* the field PatternStats *)
  Sessions : list SessionRecord;
  TotalSessions : Z;
  TotalTrainTime : Duration;
  LastUpdated : Time
}.

(** The aggregate [loadStats] builds when there is no file. *)
Definition emptyStats : AllStats :=
  {| PatternStatsMap := ∅; Sessions := []; TotalSessions := 0;
     TotalTrainTime := 0; LastUpdated := zeroTime |}.

Definition withPatternStats (s : AllStats) (m : gmap string PatternStats) : AllStats :=
  {| PatternStatsMap := m; Sessions := Sessions s;
     TotalSessions := TotalSessions s; TotalTrainTime := TotalTrainTime s;
     LastUpdated := LastUpdated s |}.

(** [save]: the time of the save is stamped on the aggregate, which is
    then written out; the file is outside the model and the callers drop
    the error. *)
Definition save (now : Time) (s : AllStats) : AllStats :=
  {| PatternStatsMap := PatternStatsMap s; Sessions := Sessions s;
     TotalSessions := TotalSessions s; TotalTrainTime := TotalTrainTime s;
     LastUpdated := now |}.

(** The row [getPatternStats] creates for a pattern that has none. *)
Definition newPatternStats (pattern : Pattern) : PatternStats :=
  {| StatsPattern := PatternText pattern; StatsName := Name pattern;
     TotalAttempts := 0; PerfectCount := 0; TotalResets := 0;
     BestTime := 0; TotalTime := 0; CurrentStreak := 0; BestStreak := 0;
     LastPracticed := zeroTime; Mistakes := [] |}.

(** [getPatternStats]: the row stored under the pattern text, created
    and stored when missing.  The row comes back with the aggregate that
    holds it, and a caller that changes the row stores it again under
    the same key. *)
Definition getPatternStats (pattern : Pattern) (s : AllStats)
    : PatternStats * AllStats :=
  match PatternStatsMap s !! PatternText pattern with
  | Some ps => (ps, s)
  | None =>
      let ps := newPatternStats pattern in
      (ps, withPatternStats s (<[PatternText pattern := ps]> (PatternStatsMap s)))
  end.

(** The part of [recordAttempt] that works on the row. *)
Definition attemptOn (ps : PatternStats) (elapsed : Duration) (resets : Z)
    (now : Time) : PatternStats :=
  let attempts := incr (TotalAttempts ps) in
  let total := add64 (TotalTime ps) elapsed in
  let allResets := add64 (TotalResets ps) resets in
  if resets =? 0 then
    let streak := incr (CurrentStreak ps) in
    {| StatsPattern := StatsPattern ps; StatsName := StatsName ps;
       TotalAttempts := attempts;
       PerfectCount := incr (PerfectCount ps);
       TotalResets := allResets;
       BestTime := if (BestTime ps =? 0) || (elapsed <? BestTime ps)
                   then elapsed else BestTime ps;
       TotalTime := total;
       CurrentStreak := streak;
       BestStreak := if BestStreak ps <? streak then streak else BestStreak ps;
       LastPracticed := now; Mistakes := Mistakes ps |}
  else
    {| StatsPattern := StatsPattern ps; StatsName := StatsName ps;
       TotalAttempts := attempts; PerfectCount := PerfectCount ps;
       TotalResets := allResets; BestTime := BestTime ps;
       TotalTime := total; CurrentStreak := 0;
       BestStreak := BestStreak ps;
       LastPracticed := now; Mistakes := Mistakes ps |}.

Definition recordAttempt (pattern : Pattern) (elapsed : Duration)
    (resets : Z) (now : Time) (s : AllStats) : AllStats :=
  let '(ps, s1) := getPatternStats pattern s in
  withPatternStats s1
    (<[PatternText pattern := attemptOn ps elapsed resets now]> (PatternStatsMap s1)).

(** [ps.Mistakes[len(ps.Mistakes)-100:]] when there are more than 100. *)
Definition keepLast100 (ms : list Mistake) : list Mistake :=
  if 100 <? Z.of_nat (length ms) then drop (length ms - 100) ms else ms.

Definition mistakeOn (ps : PatternStats) (mistake : Mistake) : PatternStats :=
  {| StatsPattern := StatsPattern ps; StatsName := StatsName ps;
     TotalAttempts := TotalAttempts ps; PerfectCount := PerfectCount ps;
     TotalResets := TotalResets ps; BestTime := BestTime ps;
     TotalTime := TotalTime ps; CurrentStreak := CurrentStreak ps;
     BestStreak := BestStreak ps; LastPracticed := LastPracticed ps;
     Mistakes := keepLast100 (Mistakes ps ++ [mistake]) |}.

Definition recordMistake (pattern : Pattern) (position : Z)
    (expected actual : string) (now : Time) (s : AllStats) : AllStats :=
  let '(ps, s1) := getPatternStats pattern s in
  let mistake := {| Position := position; Expected := expected;
                    Actual := actual; Timestamp := now |} in
  withPatternStats s1
    (<[PatternText pattern := mistakeOn ps mistake]> (PatternStatsMap s1)).

(** [endSession], with the two clock readings it takes: the end time and
    the time of the save. *)
Definition endSession (startTime : Time) (total perfect : Z)
    (completed : bool) (endTime saveTime : Time) (s : AllStats) : AllStats :=
  let duration := Sub endTime startTime in
  let session := {| StartTime := startTime; EndTime := endTime;
                    SessionDuration := duration; PatternsTotal := total;
                    PatternsPerfect := perfect; Completed := completed |} in
  save saveTime
    {| PatternStatsMap := PatternStatsMap s;
       Sessions := Sessions s ++ [session];
       TotalSessions := incr (TotalSessions s);
       TotalTrainTime := add64 (TotalTrainTime s) duration;
       LastUpdated := LastUpdated s |}.

(** The stored best time of a pattern text, zero when there is no row. *)
Definition bestTimeOf (s : AllStats) (text : string) : Duration :=
  from_option BestTime 0 (PatternStatsMap s !! text).

Definition mistakesOf (s : AllStats) (text : string) : list Mistake :=
  from_option Mistakes [] (PatternStatsMap s !! text).

(** The row [getPatternStats] hands out for a pattern. *)
Definition rowOf (s : AllStats) (pattern : Pattern) : PatternStats :=
  fst (getPatternStats pattern s).

(** One call of [recordAttempt]. *)
Record Attempt := {
  attemptPattern : Pattern;
  attemptElapsed : Duration;
  attemptResets : Z;
  attemptTime : Time
}.

Definition recordAttempts (attempts : list Attempt) (s : AllStats) : AllStats :=
  fold_left
    (fun acc a =>
       recordAttempt (attemptPattern a) (attemptElapsed a) (attemptResets a)
         (attemptTime a) acc)
    attempts s.

End Stats.

Import Stats.

(** ** Loading patterns *)

Module Loader.

(** *** [strings.TrimSpace]

    The line is trimmed of its leading and trailing white space as
    Unicode defines it: the library decodes the bytes as UTF-8, rune by
    rune from the front and then from the back, and drops the runes that
    [unicode.IsSpace] accepts.  Bytes that are no valid encoding decode
    to U+FFFD with width one, which is no white space. *)

(** The value of a byte. *)
Definition byteVal (c : ascii) : Z := Z.of_N (N_of_ascii c).

(** [utf8.RuneError]. *)
Definition RuneError : Z := 65533.

(** [unicode.IsSpace]: tab, line feed, vertical tab, form feed, carriage
    return, space, U+0085, U+00A0, U+1680, U+2000 to U+200A, U+2028,
    U+2029, U+202F, U+205F and U+3000. *)
Definition IsSpace (r : Z) : bool :=
  ((9 <=? r) && (r <=? 13)) || (r =? 32) || (r =? 133) || (r =? 160)
  || (r =? 5760) || ((8192 <=? r) && (r <=? 8202))
  || (r =? 8232) || (r =? 8233) || (r =? 8239) || (r =? 8287)
  || (r =? 12288).

(** The table [first] of package [utf8] with its accept ranges: for a
    leading byte, the width of the encoding and the bounds of the second
    byte; [None] for a byte that starts no encoding. *)
Definition leadByte (b : Z) : option (nat * Z * Z) :=
  if (194 <=? b) && (b <=? 223) then Some (2%nat, 128, 191)
  else if b =? 224 then Some (3%nat, 160, 191)
  else if (225 <=? b) && (b <=? 236) then Some (3%nat, 128, 191)
  else if b =? 237 then Some (3%nat, 128, 159)
  else if (238 <=? b) && (b <=? 239) then Some (3%nat, 128, 191)
  else if b =? 240 then Some (4%nat, 144, 191)
  else if (241 <=? b) && (b <=? 243) then Some (4%nat, 128, 191)
  else if b =? 244 then Some (4%nat, 128, 143)
  else None.

(** A continuation byte. *)
Definition isCont (b : Z) : bool := (128 <=? b) && (b <=? 191).

(** [utf8.DecodeRuneInString]: the first rune of [s] and its width in
    bytes; [(RuneError, 0)] for the empty string and [(RuneError, 1)] for
    bytes that are no valid encoding. *)
Definition DecodeRuneInString (s : string) : Z * nat :=
  match s with
  | EmptyString => (RuneError, 0%nat)
  | String c0 s1 =>
      let b0 := byteVal c0 in
      if b0 <? 128 then (b0, 1%nat)
      else
        match leadByte b0 with
        | None => (RuneError, 1%nat)
        | Some (size, lo, hi) =>
            if (String.length s <? size)%nat then (RuneError, 1%nat)
            else
              match s1 with
              | EmptyString => (RuneError, 1%nat)
              | String c1 s2 =>
                  let b1 := byteVal c1 in
                  if (b1 <? lo) || (hi <? b1) then (RuneError, 1%nat)
                  else if (size <=? 2)%nat then
                    (Z.lor (Z.shiftl (Z.land b0 31) 6) (Z.land b1 63), 2%nat)
                  else
                    match s2 with
                    | EmptyString => (RuneError, 1%nat)
                    | String c2 s3 =>
                        let b2 := byteVal c2 in
                        if negb (isCont b2) then (RuneError, 1%nat)
                        else if (size <=? 3)%nat then
                          (Z.lor (Z.shiftl (Z.land b0 15) 12)
                             (Z.lor (Z.shiftl (Z.land b1 63) 6)
                                (Z.land b2 63)), 3%nat)
                        else
                          match s3 with
                          | EmptyString => (RuneError, 1%nat)
                          | String c3 _ =>
                              let b3 := byteVal c3 in
                              if negb (isCont b3) then (RuneError, 1%nat)
                              else
                                (Z.lor (Z.shiftl (Z.land b0 7) 18)
                                   (Z.lor (Z.shiftl (Z.land b1 63) 12)
                                      (Z.lor (Z.shiftl (Z.land b2 63) 6)
                                         (Z.land b3 63))), 4%nat)
                          end
                    end
              end
        end
  end.

(** [s[:n]]. *)
Definition sliceTo (s : string) (n : Z) : string :=
  String.substring 0 (Z.to_nat n) s.

(** [utf8.RuneStart] on the byte at [pos]. *)
Definition runeStartAt (s : string) (pos : Z) : bool :=
  match byteAt s pos with
  | Some c => negb (isCont (byteVal c))
  | None => false
  end.

(** [utf8.DecodeLastRuneInString]: the last rune of [s] and its width.
    The library steps back from the byte before the last, over at most
    three bytes, to the nearest byte that can start an encoding, decodes
    from there, and answers [(RuneError, 1)] unless that rune ends where
    the string ends. *)
Definition DecodeLastRuneInString (s : string) : Z * nat :=
  let end_ := len s in
  match byteAt s (end_ - 1) with
  | None => (RuneError, 0%nat)
  | Some c =>
      if byteVal c <? 128 then (byteVal c, 1%nat)
      else
        let lim := Z.max 0 (end_ - 4) in
        let start :=
          if (lim <=? end_ - 2) && runeStartAt s (end_ - 2) then end_ - 2
          else if (lim <=? end_ - 3) && runeStartAt s (end_ - 3) then end_ - 3
          else if (lim <=? end_ - 4) && runeStartAt s (end_ - 4) then end_ - 4
          else lim in
        let (r, size) := DecodeRuneInString (dropBytes (Z.to_nat start) s) in
        if start + Z.of_nat size =? end_ then (r, size) else (RuneError, 1%nat)
  end.

(** [strings.TrimLeftFunc(s, unicode.IsSpace)]: the runes are read from
    the front and [s] is cut at the first that is no white space; [skip]
    counts the bytes of a white-space rune still to be passed over. *)
Fixpoint trimLeftFrom (skip : nat) (s : string) : string :=
  match s with
  | EmptyString => EmptyString
  | String _ s' =>
      match skip with
      | S k => trimLeftFrom k s'
      | O =>
          let (r, size) := DecodeRuneInString s in
          if IsSpace r then trimLeftFrom (size - 1) s' else s
      end
  end.

Definition trimLeft (s : string) : string := trimLeftFrom 0 s.

(** The loop of [lastIndexFunc(s, unicode.IsSpace, false)] from the index
    [i] down: where the last rune that is no white space starts, and -1
    when there is none.  Every round takes at least one byte off [i], so
    [fuel] of the length of [s] is never used up. *)
Fixpoint lastIndexFrom (fuel : nat) (s : string) (i : Z) : Z :=
  match fuel with
  | O => -1
  | S fuel' =>
      if i <=? 0 then -1
      else
        let (r, size) := DecodeLastRuneInString (sliceTo s i) in
        let i' := i - Z.of_nat size in
        if negb (IsSpace r) then i' else lastIndexFrom fuel' s i'
  end.

(** [strings.TrimRightFunc(s, unicode.IsSpace)]: [s] up to the end of its
    last rune that is no white space. *)
Definition trimRight (s : string) : string :=
  let i := lastIndexFrom (String.length s) s (len s) in
  match (if 0 <=? i then byteAt s i else None) with
  | Some c =>
      if 128 <=? byteVal c then
        sliceTo s (i + Z.of_nat (snd (DecodeRuneInString (dropBytes (Z.to_nat i) s))))
      else sliceTo s (i + 1)
  | None => sliceTo s (i + 1)
  end.

(** [strings.TrimSpace(s)]: the library has a loop of its own for leading
    and trailing ASCII bytes and hands the rest to the two functions
    above; the result is theirs on every string. *)
Definition TrimSpace (s : string) : string := trimRight (trimLeft s).

(** [strings.SplitN(line, "|", 2)]: the line cut at its first bar. *)
Fixpoint splitAtBar (line : string) : option (string * string) :=
  match line with
  | EmptyString => None
  | String c line' =>
      if Ascii.eqb c "|"%char then Some (EmptyString, line')
      else match splitAtBar line' with
           | Some (before, after) => Some (String c before, after)
           | None => None
           end
  end.

(** The body of the scanner loop of [loadPatternsFromFile] for one line:
    the patterns it appends. *)
Definition parseLine (text : string) : list Pattern :=
  let line := TrimSpace text in
  if String.eqb line "" || HasPrefix line "#" then []
  else match splitAtBar line with
       | Some (name, pattern) => [ {| Name := name; PatternText := pattern |} ]
       | None => [ {| Name := line; PatternText := line |} ]
       end.

(** [loadPatternsFromFile] on the lines of a file that opened and read
    without an error. *)
Definition loadPatternsFromLines (lines : list string) : list Pattern :=
  flat_map parseLine lines.

(** [loadPatterns] when the first file opens: its patterns, or the
    defaults when it has none. *)
Definition loadPatterns (lines : list string) : list Pattern :=
  match loadPatternsFromLines lines with
  | [] => defaultPatterns
  | patterns => patterns
  end.

End Loader.

(** ** The application state and its event handlers *)

Module Trainer.

(** The texts of [statusLabel]. *)
Inductive StatusText :=
| StatusNone                             (* "" *)
| StatusIdle                             (* "Click anywhere to focus" *)
| StatusSessionEnded (perfect total : Z)  (* "Session ended: %d/%d perfect" *)
| StatusAllCompleted (patterns : Z)      (* "%d patterns completed perfectly" *)
| StatusExpected (shown : string)        (* "Expected %s" *)
| StatusNewBest (elapsed : Duration)     (* "NEW BEST! %v" *)
| StatusTime (elapsed : Duration)        (* "%v" *)
| StatusRetry (resets : Z).              (* "%d resets - retry later" *)

(** [App], without the widgets.  [pendingAdvances] counts the goroutines
    of [finishPattern] that are asleep and have not yet called back. *)
Record App := {
  allPatterns : list Pattern;
  patternQueue : list Pattern;
  currentIndex : Z;
  currentPattern : Pattern;
  inputBuffer : list string;
  isActive : bool;
  inSession : bool;
  startTime : Time;
  resetCount : Z;
  sessionPerfect : Z;
  sessionTotal : Z;
  sessionStart : Time;
  stats : AllStats;
  statusLabel : StatusText;
  pendingAdvances : nat
}.

(** The [App] of [main] once [setupUI] has shown the idle state. *)
Definition initApp (patterns : list Pattern) (st : AllStats) : App :=
  {| allPatterns := patterns; patternQueue := []; currentIndex := 0;
     currentPattern := {| Name := ""; PatternText := "" |};
     inputBuffer := []; isActive := false; inSession := false;
     startTime := zeroTime; resetCount := 0; sessionPerfect := 0;
     sessionTotal := 0; sessionStart := zeroTime; stats := st;
     statusLabel := StatusIdle; pendingAdvances := 0 |}.

Definition stopSession (clk : Clock) (app : App) : App :=
  {| allPatterns := allPatterns app; patternQueue := patternQueue app;
     currentIndex := currentIndex app; currentPattern := currentPattern app;
     inputBuffer := inputBuffer app; isActive := false; inSession := false;
     startTime := startTime app; resetCount := resetCount app;
     sessionPerfect := sessionPerfect app; sessionTotal := sessionTotal app;
     sessionStart := sessionStart app;
     stats := endSession (sessionStart app) (sessionTotal app)
                (sessionPerfect app) false (nowEnd clk) (nowSave clk) (stats app);
     statusLabel := StatusSessionEnded (sessionPerfect app) (sessionTotal app);
     pendingAdvances := pendingAdvances app |}.

Definition sessionComplete (clk : Clock) (app : App) : App :=
  {| allPatterns := allPatterns app; patternQueue := patternQueue app;
     currentIndex := currentIndex app; currentPattern := currentPattern app;
     inputBuffer := inputBuffer app; isActive := false; inSession := false;
     startTime := startTime app; resetCount := resetCount app;
     sessionPerfect := sessionPerfect app; sessionTotal := sessionTotal app;
     sessionStart := sessionStart app;
     stats := endSession (sessionStart app) (sessionTotal app)
                (sessionPerfect app) true (nowEnd clk) (nowSave clk) (stats app);
     statusLabel := StatusAllCompleted (Z.of_nat (length (allPatterns app)));
     pendingAdvances := pendingAdvances app |}.

Definition nextPattern (clk : Clock) (app : App) : App :=
  if negb (inSession app) then app
  else
    match patternQueue app with
    | [] => sessionComplete clk app
    | head :: rest =>
        {| allPatterns := allPatterns app; patternQueue := rest;
           currentIndex := currentIndex app; currentPattern := head;
           inputBuffer := []; isActive := true; inSession := inSession app;
           startTime := zeroTime; resetCount := 0;
           sessionPerfect := sessionPerfect app;
           sessionTotal := sessionTotal app;
           sessionStart := sessionStart app; stats := stats app;
           statusLabel := StatusNone;
           pendingAdvances := pendingAdvances app |}
    end.

(** [startSession]; [shuffled] is the queue [shufflePatterns] leaves, a
    permutation of [allPatterns] picked by [rand.Shuffle]. *)
Definition startSession (clk : Clock) (shuffled : list Pattern) (app : App) : App :=
  nextPattern clk
    {| allPatterns := allPatterns app; patternQueue := shuffled;
       currentIndex := 0; currentPattern := currentPattern app;
       inputBuffer := inputBuffer app; isActive := isActive app;
       inSession := true; startTime := startTime app;
       resetCount := resetCount app; sessionPerfect := 0; sessionTotal := 0;
       sessionStart := nowSession clk; stats := stats app;
       statusLabel := statusLabel app;
       pendingAdvances := pendingAdvances app |}.

(** [finishPattern].  Its last statement starts a goroutine that sleeps
    and then calls back ([advanceAfterDelay]); here that is one more
    pending advance. *)
Definition finishPattern (clk : Clock) (app : App) : App :=
  if negb (isActive app) then app
  else
    let elapsed := Sub (nowSince clk) (startTime app) in
    let st := save (nowSave clk)
                (recordAttempt (currentPattern app) elapsed (resetCount app)
                   (nowPracticed clk) (stats app)) in
    if resetCount app =? 0 then
      {| allPatterns := allPatterns app; patternQueue := patternQueue app;
         currentIndex := currentIndex app;
         currentPattern := currentPattern app;
         inputBuffer := inputBuffer app; isActive := false;
         inSession := inSession app; startTime := startTime app;
         resetCount := resetCount app;
         sessionPerfect := incr (sessionPerfect app);
         sessionTotal := incr (sessionTotal app);
         sessionStart := sessionStart app; stats := st;
         statusLabel :=
           if elapsed =? bestTimeOf st (PatternText (currentPattern app))
           then StatusNewBest elapsed else StatusTime elapsed;
         pendingAdvances := S (pendingAdvances app) |}
    else
      {| allPatterns := allPatterns app;
         patternQueue := patternQueue app ++ [currentPattern app];
         currentIndex := currentIndex app;
         currentPattern := currentPattern app;
         inputBuffer := inputBuffer app; isActive := false;
         inSession := inSession app; startTime := startTime app;
         resetCount := resetCount app;
         sessionPerfect := sessionPerfect app;
         sessionTotal := incr (sessionTotal app);
         sessionStart := sessionStart app; stats := st;
         statusLabel := StatusRetry (resetCount app);
         pendingAdvances := S (pendingAdvances app) |}.

(** The reset branch of [addKey]. *)
Definition resetInput (clk : Clock) (key : string) (testInput : string)
    (app : App) : App :=
  let position := len testInput - len key in
  let expected := getExpectedKey (PatternText (currentPattern app)) position in
  {| allPatterns := allPatterns app; patternQueue := patternQueue app;
     currentIndex := currentIndex app; currentPattern := currentPattern app;
     inputBuffer := []; isActive := isActive app; inSession := inSession app;
     startTime := startTime app; resetCount := incr (resetCount app);
     sessionPerfect := sessionPerfect app; sessionTotal := sessionTotal app;
     sessionStart := sessionStart app;
     stats := save (nowSave clk)
                (recordMistake (currentPattern app) position expected key
                   (nowMistake clk) (stats app));
     statusLabel := StatusExpected (formatForDisplay expected);
     pendingAdvances := pendingAdvances app |}.

(** The accepting part of [addKey] up to the completion check. *)
Definition acceptKey (clk : Clock) (key : string) (app : App) : App :=
  {| allPatterns := allPatterns app; patternQueue := patternQueue app;
     currentIndex := currentIndex app; currentPattern := currentPattern app;
     inputBuffer := inputBuffer app ++ [key]; isActive := isActive app;
     inSession := inSession app;
     startTime := if IsZero (startTime app) then nowStart clk else startTime app;
     resetCount := resetCount app; sessionPerfect := sessionPerfect app;
     sessionTotal := sessionTotal app; sessionStart := sessionStart app;
     stats := stats app; statusLabel := statusLabel app;
     pendingAdvances := pendingAdvances app |}.

Definition addKey (clk : Clock) (key : string) (app : App) : App :=
  if negb (isActive app) then app
  else
    let testInput := Join (inputBuffer app ++ [key]) "" in
    if negb (HasPrefix (PatternText (currentPattern app)) testInput) then
      match inputBuffer app with
      | [] => app
      | _ :: _ => resetInput clk key testInput app
      end
    else
      let app1 := acceptKey clk key app in
      let currentInput := Join (inputBuffer app1) "" in
      if len (PatternText (currentPattern app1)) <=? len currentInput
      then finishPattern clk app1
      else app1.

(** The callback of the goroutine of [finishPattern], run on the UI
    thread once the sleep is over. *)
Definition advanceAfterDelay (clk : Clock) (app : App) : App :=
  let app1 :=
    {| allPatterns := allPatterns app; patternQueue := patternQueue app;
       currentIndex := currentIndex app; currentPattern := currentPattern app;
       inputBuffer := inputBuffer app; isActive := isActive app;
       inSession := inSession app; startTime := startTime app;
       resetCount := resetCount app; sessionPerfect := sessionPerfect app;
       sessionTotal := sessionTotal app; sessionStart := sessionStart app;
       stats := stats app; statusLabel := statusLabel app;
       pendingAdvances := Nat.pred (pendingAdvances app) |} in
  if inSession app1 then nextPattern clk app1 else app1.

(** The key names the program looks at; every other key is [KeyOther]. *)
Inductive KeyName :=
| KeyF1 | KeyF2 | KeyF3 | KeyF4 | KeyF5 | KeyF6
| KeyF7 | KeyF8 | KeyF9 | KeyF10 | KeyF11 | KeyF12
| KeyReturn | KeyEnter | KeySpace | KeyEscape | KeyOther.

(** [keyNames]. *)
Definition keyNames (key : KeyName) : option string :=
  match key with
  | KeyF1 => Some "F1" | KeyF2 => Some "F2" | KeyF3 => Some "F3"
  | KeyF4 => Some "F4" | KeyF5 => Some "F5" | KeyF6 => Some "F6"
  | KeyF7 => Some "F7" | KeyF8 => Some "F8" | KeyF9 => Some "F9"
  | KeyF10 => Some "F10" | KeyF11 => Some "F11" | KeyF12 => Some "F12"
  | KeyReturn => Some "Enter" | KeyEnter => Some "Enter"
  | KeySpace => Some " " | KeyEscape => Some "ESC"
  | KeyOther => None
  end.

Definition isEscape (key : KeyName) : bool :=
  match key with KeyEscape => true | _ => false end.

Definition startsSession (key : KeyName) : bool :=
  match key with KeySpace | KeyReturn | KeyEnter => true | _ => false end.

Definition TypedKey (clk : Clock) (shuffled : list Pattern) (key : KeyName)
    (app : App) : App :=
  if isEscape key && inSession app then stopSession clk app
  else if negb (inSession app) && startsSession key then
    startSession clk shuffled app
  else if negb (isActive app) then app
  else
    match keyNames key with
    | Some name =>
        if negb (String.eqb name "ESC") && negb (String.eqb name "Enter")
        then addKey clk name app else app
    | None => app
    end.

Definition TypedRune (clk : Clock) (r : Z) (app : App) : App :=
  if negb (isActive app) then app else addKey clk (stringOfRune r) app.

Inductive MouseButton :=
| MouseButtonPrimary | MouseButtonSecondary | MouseButtonTertiary
| MouseButtonOther.

Definition MouseDown (clk : Clock) (button : MouseButton) (shift : bool)
    (app : App) : App :=
  if negb (isActive app) then app
  else
    match button with
    | MouseButtonPrimary => addKey clk (if shift then "SLC" else "LC") app
    | MouseButtonSecondary => addKey clk (if shift then "SRC" else "RC") app
    | MouseButtonTertiary => addKey clk "MC" app
    | MouseButtonOther => app
    end.

(** What reaches the program on its UI thread: the input callbacks and
    the callback of a sleeping goroutine. *)
Inductive Event :=
| EvTypedKey (key : KeyName)
| EvTypedRune (r : Z)
| EvMouseDown (button : MouseButton) (shift : bool)
| EvAdvance.

(** The events that come from the keyboard and the mouse. *)
Definition isInput (ev : Event) : bool :=
  match ev with EvAdvance => false | _ => true end.

Definition handle (clk : Clock) (shuffled : list Pattern) (ev : Event)
    (app : App) : App :=
  match ev with
  | EvTypedKey key => TypedKey clk shuffled key app
  | EvTypedRune r => TypedRune clk r app
  | EvMouseDown button shift => MouseDown clk button shift app
  | EvAdvance => advanceAfterDelay clk app
  end.

(** One event with what the environment supplies while it is handled. *)
Record Occurrence := {
  event : Event;
  clock : Clock;
  shuffle : list Pattern
}.

(** An occurrence can happen in a state: a shuffle is a permutation of
    the loaded patterns, and a goroutine calls back only if one sleeps. *)
Definition enabled (o : Occurrence) (app : App) : Prop :=
  Permutation (shuffle o) (allPatterns app) ∧
  (event o = EvAdvance → (0 < pendingAdvances app)%nat).

Definition occur (o : Occurrence) (app : App) : App :=
  handle (clock o) (shuffle o) (event o) app.

Inductive step : App → App → Prop :=
| step_occur o app : enabled o app → step app (occur o app).

(** The states of a run of the program. *)
Definition reachable (app : App) : Prop :=
  ∃ patterns st, rtc step (initApp patterns st) app.

(** Running a list of occurrences. *)
Definition run (os : list Occurrence) (app : App) : App :=
  fold_left (fun a o => occur o a) os app.

(** Every occurrence of a list can happen when its turn comes. *)
Fixpoint allEnabled (os : list Occurrence) (app : App) : Prop :=
  match os with
  | [] => True
  | o :: os' => enabled o app ∧ allEnabled os' (occur o app)
  end.

(** The check that a goroutine sleeps whenever a callback of the list
    has its turn. *)
Fixpoint advancesReady (os : list Occurrence) (app : App) : bool :=
  match os with
  | [] => true
  | o :: os' =>
      (isInput (event o) || (0 <? pendingAdvances app)%nat)
      && advancesReady os' (occur o app)
  end.

(** The occurrence starts a session: the second test of [TypedKey]. *)
Definition startsNow (o : Occurrence) (app : App) : bool :=
  match event o with
  | EvTypedKey key =>
      negb (isEscape key && inSession app)
      && negb (inSession app) && startsSession key
  | _ => false
  end.

(** The pattern a handler has just completed with no reset, if any:
    the engine was active before and is not after, the session goes on,
    and the reset counter stood at zero. *)
Definition perfectedBy (app app' : App) : list Pattern :=
  if isActive app && negb (isActive app') && inSession app'
     && (resetCount app =? 0)
  then [currentPattern app] else [].

(** The patterns completed with no reset since the latest start of a
    session, along a list of occurrences; [log] is the list so far. *)
Fixpoint perfectedLog (os : list Occurrence) (app : App) (log : list Pattern)
    : list Pattern :=
  match os with
  | [] => log
  | o :: os' =>
      perfectedLog os' (occur o app)
        (if startsNow o app then [] else log ++ perfectedBy app (occur o app))
  end.

(** No session of the list starts while a goroutine of an earlier
    completion still sleeps. *)
Fixpoint startsClean (os : list Occurrence) (app : App) : bool :=
  match os with
  | [] => true
  | o :: os' =>
      (negb (startsNow o app) || (pendingAdvances app =? 0)%nat)
      && startsClean os' (occur o app)
  end.

(** The occurrence ends the session as completed. *)
Definition endsCompleted (o : Occurrence) (app : App) : Prop :=
  ∃ r, Sessions (stats (occur o app)) = Sessions (stats app) ++ [r]
       ∧ Completed r = true.

(** What holds between the loaded patterns, the queue and the patterns
    completed with no reset since the session started, as long as no
    session starts over a sleeping goroutine: while a pattern is active
    no advance is pending, and the log, the pattern and the queue make up
    the loaded patterns; between a completion and its advance exactly one
    advance is pending, and the log and the queue make them up. *)
Record sessionInvariant (patterns : list Pattern) (app : App)
    (log : list Pattern) : Prop := {
  session_patterns : allPatterns app = patterns;
  session_idle : inSession app = false → isActive app = false;
  session_active :
    inSession app = true → isActive app = true →
    pendingAdvances app = 0%nat
    ∧ Permutation (log ++ currentPattern app :: patternQueue app) patterns;
  session_waiting :
    inSession app = true → isActive app = false →
    pendingAdvances app = 1%nat
    ∧ Permutation (log ++ patternQueue app) patterns
}.

(** An occurrence from the keyboard or the mouse other than Escape. *)
Definition plainInput (o : Occurrence) : Prop :=
  isInput (event o) = true ∧ event o ≠ EvTypedKey KeyEscape.

(** What holds of the buffer in every state of a run. *)
Record bufferInvariant (app : App) : Prop := {
  buffer_prefix :
    HasPrefix (PatternText (currentPattern app)) (Join (inputBuffer app) "") = true;
  buffer_short :
    isActive app = true → PatternText (currentPattern app) ≠ "" →
    len (Join (inputBuffer app) "") < len (PatternText (currentPattern app));
  buffer_keys : Forall (fun key => key ≠ "") (inputBuffer app);
  active_in_session : isActive app = true → inSession app = true
}.

(** A clock for examples: the handler of an event starts at [t] and each
    later reading is one nanosecond on. *)
Definition clockAt (t : Time) : Clock :=
  {| nowStart := t; nowSince := t + 1; nowPracticed := t + 2;
     nowMistake := t + 3; nowSession := t + 4; nowEnd := t + 5;
     nowSave := t + 6 |}.

(** An event at time [t]; should it start a session, the queue is
    [shuffled]. *)
Definition at_ (t : Time) (shuffled : list Pattern) (ev : Event) : Occurrence :=
  {| event := ev; clock := clockAt t; shuffle := shuffled |}.

End Trainer.

Import Trainer.

(** ** Further notions used to state what the code keeps *)

Module Coverage.

(** What [loadPatternsFromFile] returns for a file: [None] when opening or
    scanning it failed, its patterns otherwise. *)
Definition loadPatternsFromFile (file : option (list string)) : option (list Pattern) :=
  Loader.loadPatternsFromLines <$> file.

(** [loadPatterns]: the file in the working directory, then the file next
    to the executable ([exe] is [None] when [os.Executable] fails), then
    the defaults. *)
Definition loadPatterns (cwd : option (list string))
    (exe : option (option (list string))) : list Pattern :=
  match loadPatternsFromFile cwd with
  | Some (p :: ps) => p :: ps
  | _ =>
      match exe with
      | Some file =>
          match loadPatternsFromFile file with
          | Some (p :: ps) => p :: ps
          | _ => defaultPatterns
          end
      | None => defaultPatterns
      end
  end.

(** The bar does not occur in a string. *)
Fixpoint noBar (s : string) : bool :=
  match s with
  | EmptyString => true
  | String c s' => negb (Ascii.eqb c "|"%char) && noBar s'
  end.

(** [old] occurs somewhere in [s]. *)
Definition occursIn (old s : string) : Prop :=
  ∃ before after, s = before +:+ old +:+ after.

(** The test that [old] occurs in [s], as [strings.Contains] makes it. *)
Fixpoint contains (s old : string) : bool :=
  HasPrefix s old
  || match s with
     | EmptyString => false
     | String _ s' => contains s' old
     end.

(** The numbers of a row, without its names and its mistakes. *)
Definition tallyOf (ps : PatternStats) : Z * Z * Z * Duration * Duration * Z * Z * Time :=
  (TotalAttempts ps, PerfectCount ps, TotalResets ps, BestTime ps,
   TotalTime ps, CurrentStreak ps, BestStreak ps, LastPracticed ps).

(** The counters of a row stand in their natural order. *)
Definition countersOrdered (ps : PatternStats) : Prop :=
  0 ≤ CurrentStreak ps ∧ CurrentStreak ps ≤ BestStreak ps
  ∧ BestStreak ps ≤ PerfectCount ps ∧ PerfectCount ps ≤ TotalAttempts ps.

(** The attempts of a list made on a pattern text, and the perfect ones
    among them. *)
Definition attemptsOn (text : string) (attempts : list Attempt) : list Attempt :=
  List.filter (fun a => String.eqb (PatternText (attemptPattern a)) text) attempts.

Definition perfectOn (text : string) (attempts : list Attempt) : list Attempt :=
  List.filter (fun a => attemptResets a =? 0) (attemptsOn text attempts).

(** Keys submitted one after the other, each with the clock readings of
    its handler. *)
Definition typeKeys (keys : list (Clock * string)) (app : App) : App :=
  fold_left (fun a ck => addKey (fst ck) (snd ck) a) keys app.

(** An event whose handler reads [start] where [addKey] starts the timer
    and [since] at every later call of [time.Now]. *)
Definition spanning (start since : Time) (shuffled : list Pattern) (ev : Event) : Occurrence :=
  {| event := ev;
     clock := {| nowStart := start; nowSince := since; nowPracticed := since;
                 nowMistake := since; nowSession := since; nowEnd := since;
                 nowSave := since |};
     shuffle := shuffled |}.

End Coverage.

Import Coverage.

(** * Facts about Go strings *)

Section GoStringFacts.

Lemma append_empty_r (s : string) : s +:+ "" = s.
Proof. induction s as [|c s IH]; simpl; [done | by rewrite IH]. Qed.

Lemma append_assoc (s t u : string) : (s +:+ t) +:+ u = s +:+ (t +:+ u).
Proof. induction s as [|c s IH]; simpl; [done | by rewrite IH]. Qed.

Lemma length_append (s t : string) :
  String.length (s +:+ t) = (String.length s + String.length t)%nat.
Proof. induction s as [|c s IH]; simpl; [done | by rewrite IH]. Qed.

Lemma len_append (s t : string) : len (s +:+ t) = len s + len t.
Proof. unfold len. rewrite length_append. lia. Qed.

Lemma len_nonneg (s : string) : 0 ≤ len s.
Proof. unfold len. lia. Qed.

Lemma len_zero (s : string) : len s = 0 → s = "".
Proof. destruct s; [done | unfold len; simpl; lia]. Qed.

Lemma HasPrefix_append (p s : string) : HasPrefix (p +:+ s) p = true.
Proof.
  induction p as [|c p IH]; simpl; [done |].
  by rewrite Ascii.eqb_refl.
Qed.

Lemma HasPrefix_split (s p : string) :
  HasPrefix s p = true → s = p +:+ dropBytes (String.length p) s.
Proof.
  revert s. induction p as [|c p IH]; intros s H; simpl in *; [done |].
  destruct s as [|d s]; [done |].
  destruct (Ascii.eqb_spec d c) as [-> | _]; [| done].
  simpl. f_equal. by apply IH.
Qed.

Lemma HasPrefix_iff (s p : string) :
  HasPrefix s p = true ↔ ∃ r, s = p +:+ r.
Proof.
  split.
  - intros H. eexists. by apply HasPrefix_split.
  - intros [r ->]. apply HasPrefix_append.
Qed.

Lemma HasPrefix_refl (s : string) : HasPrefix s s = true.
Proof. apply HasPrefix_iff. exists "". by rewrite append_empty_r. Qed.

Lemma HasPrefix_empty_l (p : string) : HasPrefix "" p = true → p = "".
Proof. by destruct p. Qed.

Lemma HasPrefix_len (s p : string) : HasPrefix s p = true → len p ≤ len s.
Proof.
  intros [r ->]%HasPrefix_iff. rewrite len_append. pose proof (len_nonneg r). lia.
Qed.

(** A prefix as long as the string is the string. *)
Lemma HasPrefix_full (s p : string) :
  HasPrefix s p = true → len s ≤ len p → p = s.
Proof.
  intros [r ->]%HasPrefix_iff. rewrite len_append. intros H.
  assert (r = "") as -> by (apply len_zero; pose proof (len_nonneg r); lia).
  by rewrite append_empty_r.
Qed.

Lemma dropBytes_append (p s : string) : dropBytes (String.length p) (p +:+ s) = s.
Proof. induction p as [|c p IH]; simpl; done. Qed.

Lemma sliceFrom_append (pre rest : string) :
  sliceFrom (pre +:+ rest) (len pre) = Some rest.
Proof.
  unfold sliceFrom. rewrite len_append.
  pose proof (len_nonneg pre). pose proof (len_nonneg rest).
  rewrite !(proj2 (Z.leb_le _ _)) by lia. simpl.
  unfold len. rewrite Nat2Z.id. by rewrite dropBytes_append.
Qed.

Lemma get_append (pre : string) (b : ascii) (rest : string) :
  String.get (String.length pre) (pre +:+ String b rest) = Some b.
Proof. induction pre as [|c pre IH]; simpl; done. Qed.

Lemma byteAt_append (pre : string) (b : ascii) (rest : string) :
  byteAt (pre +:+ String b rest) (len pre) = Some b.
Proof.
  unfold byteAt. pose proof (len_nonneg pre).
  rewrite (proj2 (Z.leb_le _ _)) by lia.
  unfold len. rewrite Nat2Z.id. apply get_append.
Qed.

Lemma Join_nil : Join [] "" = "".
Proof. done. Qed.

Lemma Join_cons (s : string) (l : list string) : Join (s :: l) "" = s +:+ Join l "".
Proof.
  unfold Join. destruct l as [|t l]; simpl; [by rewrite append_empty_r | done].
Qed.

Lemma Join_app (l1 l2 : list string) : Join (l1 ++ l2) "" = Join l1 "" +:+ Join l2 "".
Proof.
  induction l1 as [|s l1 IH]; [done |].
  change ((s :: l1) ++ l2) with (s :: (l1 ++ l2)).
  by rewrite !Join_cons, IH, append_assoc.
Qed.

Lemma Join_snoc (l : list string) (key : string) :
  Join (l ++ [key]) "" = Join l "" +:+ key.
Proof. by rewrite Join_app, Join_cons, Join_nil, append_empty_r. Qed.

(** A rune never converts to the empty string. *)
Lemma stringOfRune_nonempty (r : Z) : stringOfRune r ≠ "".
Proof. unfold stringOfRune. repeat case_match; done. Qed.

(** An ASCII byte converts to itself. *)
Lemma stringOfByte_ascii (b : ascii) :
  (N_of_ascii b < 128)%N → stringOfByte b = String b "".
Proof.
  intros H. unfold stringOfByte, stringOfRune.
  assert (0 ≤ Z.of_N (N_of_ascii b) < 128) as Hz by lia.
  rewrite (proj2 (Z.ltb_ge _ _)) by lia.
  rewrite (proj2 (Z.ltb_ge _ _)) by lia.
  rewrite (proj2 (Z.leb_gt _ _)) by lia. simpl.
  rewrite (proj2 (Z.ltb_lt _ _)) by lia.
  unfold byteOf. by rewrite N2Z.id, ascii_N_embedding.
Qed.

Lemma wrap64_small (z : Z) : - 2 ^ 63 ≤ z < 2 ^ 63 → wrap64 z = z.
Proof. intros H. unfold wrap64. rewrite Z.mod_small; lia. Qed.

Lemma wrap64_range (z : Z) : - 2 ^ 63 ≤ wrap64 z < 2 ^ 63.
Proof.
  unfold wrap64. pose proof (Z.mod_pos_bound (z + 2 ^ 63) (2 ^ 64)). lia.
Qed.

Lemma incr_small (n : Z) : - 2 ^ 63 ≤ n < 2 ^ 63 - 1 → incr n = n + 1.
Proof. intros H. unfold incr, add64. apply wrap64_small. lia. Qed.

End GoStringFacts.

(** * Facts about the tokenizer *)

Section TokenizerFacts.

Lemma tokens_lengthsDescend : lengthsDescend tokens = true.
Proof. reflexivity. Qed.

(** The first hit in a list that comes longest first is a longest hit. *)
Lemma find_longest (P : string → bool) (l : list string) (t : string) :
  lengthsDescend l = true → List.find P l = Some t →
  ∀ u, In u l → P u = true → (String.length u ≤ String.length t)%nat.
Proof.
  induction l as [|a l IH]; simpl; [done |].
  intros [Hall Hrest]%andb_true_iff Hfind u Hin Hu.
  destruct (P a) eqn:Ha.
  - injection Hfind as <-. destruct Hin as [<- | Hin]; [lia |].
    rewrite forallb_forall in Hall. apply Nat.leb_le. by apply Hall.
  - destruct Hin as [<- | Hin]; [congruence |]. by apply IH.
Qed.

Lemma tokens_sizes (t : string) :
  In t tokens → (2 ≤ String.length t ≤ 3)%nat.
Proof.
  intros H.
  assert (forallb (fun u => (2 <=? String.length u)%nat
                            && (String.length u <=? 3)%nat) tokens = true)
    as Hall by reflexivity.
  rewrite forallb_forall in Hall. specialize (Hall t H).
  apply andb_true_iff in Hall as [H1%Nat.leb_le H2%Nat.leb_le]. lia.
Qed.

Lemma matchToken_Some (rest t : string) :
  matchToken rest = Some t → In t tokens ∧ HasPrefix rest t = true.
Proof. intros H. by apply find_some in H. Qed.

Lemma matchToken_None (rest t : string) :
  matchToken rest = None → In t tokens → HasPrefix rest t = false.
Proof. intros H Hin. by apply (find_none _ _ H). Qed.

Lemma matchToken_empty : matchToken "" = None.
Proof. reflexivity. Qed.

Lemma renderToken_literal (t : string) : In t tokens → renderToken t = t.
Proof.
  intros H%tokens_sizes. destruct t as [|a [|b t]]; simpl in *; [done | lia | done].
Qed.

Lemma tokenSequence_from_empty (fuel : nat) : tokenSequence_from fuel "" = [].
Proof. by destruct fuel. Qed.

(** The loop of [getExpectedKey] returns, and what it returns is the
    token of the sequence that starts at the offset, or the marker. *)
Lemma getExpectedKey_loop_scan (fuel : nat) :
  ∀ pre rest charPos,
    (String.length rest ≤ fuel)%nat →
    getExpectedKey_loop fuel (pre +:+ rest) (len pre) charPos
    = Some (from_option renderToken "?"
              (tokenStartingAt (tokenSequence_from fuel rest) (charPos - len pre))).
Proof.
  induction fuel as [|fuel IH]; intros pre rest charPos Hfuel.
  - destruct rest; simpl in Hfuel; [| lia].
    simpl. rewrite append_empty_r, Z.ltb_irrefl. done.
  - destruct rest as [|b rest].
    { simpl. rewrite append_empty_r, Z.ltb_irrefl. done. }
    cbn [getExpectedKey_loop tokenSequence_from].
    assert ((len pre <? len (pre +:+ String b rest)) = true) as ->.
    { apply Z.ltb_lt. rewrite len_append. unfold len at 3. simpl. lia. }
    cbn [negb]. rewrite sliceFrom_append.
    destruct (matchToken (String b rest)) as [token|] eqn:Hm.
    + apply matchToken_Some in Hm as [Hin Hpre].
      pose proof (tokens_sizes _ Hin) as Hsz.
      destruct (Z.eqb_spec (len pre) charPos) as [<- | Hne].
      * cbn [tokenStartingAt]. rewrite Z.sub_diag. simpl.
        by rewrite renderToken_literal.
      * cbn [tokenStartingAt].
        rewrite (proj2 (Z.eqb_neq _ _)) by lia.
        pose proof (HasPrefix_split _ _ Hpre) as Hsplit.
        set (rest2 := dropBytes (String.length token) (String b rest)) in *.
        rewrite Hsplit at 1. rewrite <- append_assoc, <- len_append.
        rewrite IH.
        -- do 3 f_equal. rewrite len_append. lia.
        -- apply (f_equal String.length) in Hsplit.
           rewrite length_append in Hsplit. simpl in Hsplit, Hfuel. lia.
    + destruct (Z.eqb_spec (len pre) charPos) as [<- | Hne].
      * rewrite byteAt_append. cbn [tokenStartingAt]. rewrite Z.sub_diag. done.
      * cbn [tokenStartingAt].
        rewrite (proj2 (Z.eqb_neq _ _)) by lia.
        change (pre +:+ String b rest) with (pre +:+ (String b "" +:+ rest)).
        rewrite <- append_assoc.
        assert (len pre + 1 = len (pre +:+ String b "")) as ->.
        { rewrite len_append. done. }
        rewrite IH by (simpl in Hfuel; lia).
        do 3 f_equal. rewrite len_append.
        change (len (String b "")) with 1. lia.
Qed.

(** [getExpectedKey] always returns. *)
Lemma getExpectedKey_returns (pattern : string) (charPos : Z) :
  getExpectedKey_loop (String.length pattern) pattern 0 charPos
  = Some (getExpectedKey pattern charPos).
Proof.
  unfold getExpectedKey.
  pose proof (getExpectedKey_loop_scan (String.length pattern) "" pattern charPos) as H.
  change (len "") with 0 in H. change ("" +:+ pattern) with pattern in H.
  rewrite H by lia. done.
Qed.

Lemma getExpectedKey_tokenStartingAt (pattern : string) (charPos : Z) :
  getExpectedKey pattern charPos
  = from_option renderToken "?" (tokenStartingAt (tokenSequence pattern) charPos).
Proof.
  unfold getExpectedKey, tokenSequence.
  pose proof (getExpectedKey_loop_scan (String.length pattern) "" pattern charPos) as H.
  change (len "") with 0 in H. change ("" +:+ pattern) with pattern in H.
  rewrite H by lia. simpl. by rewrite Z.sub_0_r.
Qed.

(** The tokens of the sequence are not empty. *)
Lemma tokenSequence_from_nonempty (fuel : nat) (rest : string) :
  Forall (fun t => 0 < len t) (tokenSequence_from fuel rest).
Proof.
  revert rest. induction fuel as [|fuel IH]; intros rest; simpl; [constructor |].
  destruct rest as [|b rest]; [constructor |].
  destruct (matchToken (String b rest)) as [token|] eqn:Hm.
  - constructor; [| apply IH].
    apply matchToken_Some in Hm as [Hin%tokens_sizes _]. unfold len. lia.
  - constructor; [done | apply IH].
Qed.

(** The sequence covers the string: its tokens, put back together, are
    the pattern. *)
Lemma tokenSequence_from_Join (fuel : nat) (rest : string) :
  (String.length rest ≤ fuel)%nat → Join (tokenSequence_from fuel rest) "" = rest.
Proof.
  revert rest. induction fuel as [|fuel IH]; intros rest Hfuel.
  - destruct rest; simpl in Hfuel; [done | lia].
  - destruct rest as [|b rest]; [done |].
    cbn [tokenSequence_from].
    destruct (matchToken (String b rest)) as [token|] eqn:Hm.
    + apply matchToken_Some in Hm as [Hin%tokens_sizes Hpre].
      pose proof (HasPrefix_split _ _ Hpre) as Hsplit.
      rewrite Join_cons, IH; [done |].
      apply (f_equal String.length) in Hsplit.
      rewrite length_append in Hsplit. simpl in Hsplit, Hfuel. lia.
    + rewrite Join_cons, IH by (simpl in Hfuel; lia). done.
Qed.

Lemma tokenSequence_Join (pattern : string) : Join (tokenSequence pattern) "" = pattern.
Proof. by apply tokenSequence_from_Join. Qed.

(** A token starts at an offset exactly when the offset is the length of
    the tokens before it. *)
Lemma tokenStartingAt_Some (toks : list string) (off : Z) (t : string) :
  tokenStartingAt toks off = Some t →
  ∃ k, toks !! k = Some t ∧ off = len (Join (take k toks) "").
Proof.
  revert off. induction toks as [|a toks IH]; intros off; simpl; [done |].
  destruct (Z.eqb_spec off 0) as [-> | Hne].
  - intros [= <-]. by exists O.
  - intros (k & Hk & Hoff)%IH. exists (S k). split; [done |].
    change (take (S k) (a :: toks)) with (a :: take k toks).
    rewrite Join_cons, len_append. lia.
Qed.

Lemma tokenStartingAt_at (toks : list string) (k : nat) (t : string) :
  Forall (fun t => 0 < len t) toks → toks !! k = Some t →
  tokenStartingAt toks (len (Join (take k toks) "")) = Some t.
Proof.
  revert k. induction toks as [|a toks IH]; intros k Hall Hk; [done |].
  apply Forall_cons in Hall as [Ha Hall].
  destruct k as [|k].
  - simpl in *. by injection Hk as ->.
  - change (take (S k) (a :: toks)) with (a :: take k toks).
    change ((a :: toks) !! S k) with (toks !! k) in Hk.
    cbn [tokenStartingAt].
    rewrite Join_cons, len_append.
    pose proof (len_nonneg (Join (take k toks) "")).
    rewrite (proj2 (Z.eqb_neq _ _)) by lia.
    replace (len a + len (Join (take k toks) "") - len a)
      with (len (Join (take k toks) "")) by lia.
    by apply IH.
Qed.

Lemma tokenStartingAt_range (toks : list string) (off : Z) (t : string) :
  Forall (fun t => 0 < len t) toks → tokenStartingAt toks off = Some t →
  0 ≤ off < len (Join toks "").
Proof.
  revert off. induction toks as [|a toks IH]; intros off Hall; [done |].
  cbn [tokenStartingAt].
  apply Forall_cons in Hall as [Ha Hall].
  rewrite Join_cons, len_append.
  pose proof (len_nonneg (Join toks "")).
  destruct (Z.eqb_spec off 0) as [-> | Hne]; [lia |].
  intros Hs%IH; [lia | done].
Qed.

End TokenizerFacts.

(** * The offset lookup (C8) and longest match (C9) *)

Section TokenizerClaims.

(** C8, as the code has it: [getExpectedKey] always returns; the tokens of
    the sequence put together are the pattern; at an offset where a token
    of the pattern starts it returns that token (a lone byte through
    [string(b)]); at every other offset, whether outside the string or
    inside a token of several bytes, it returns the marker "?". *)
Theorem getExpectedKey_token_starts (pattern : string) (charPos : Z) :
  getExpectedKey_loop (String.length pattern) pattern 0 charPos
    = Some (getExpectedKey pattern charPos)
  ∧ Join (tokenSequence pattern) "" = pattern
  ∧ (∀ k token,
       tokenSequence pattern !! k = Some token →
       charPos = len (Join (take k (tokenSequence pattern)) "") →
       getExpectedKey pattern charPos = renderToken token)
  ∧ ((∀ k, (k < length (tokenSequence pattern))%nat →
           charPos ≠ len (Join (take k (tokenSequence pattern)) "")) →
     getExpectedKey pattern charPos = "?")
  ∧ (charPos < 0 ∨ len pattern ≤ charPos → getExpectedKey pattern charPos = "?").
Proof.
  pose proof (tokenSequence_from_nonempty (String.length pattern) pattern) as Hne.
  fold (tokenSequence pattern) in Hne.
  split; [apply getExpectedKey_returns |].
  split; [apply tokenSequence_Join |].
  rewrite getExpectedKey_tokenStartingAt.
  split; [| split].
  - intros k token Hk ->. by rewrite (tokenStartingAt_at _ _ _ Hne Hk).
  - intros Hno.
    destruct (tokenStartingAt (tokenSequence pattern) charPos) as [t|] eqn:Ht; [| done].
    apply tokenStartingAt_Some in Ht as (k & Hk & Hoff).
    exfalso. apply (Hno k); [| done]. by apply lookup_lt_Some in Hk.
  - intros Hout.
    destruct (tokenStartingAt (tokenSequence pattern) charPos) as [t|] eqn:Ht; [| done].
    apply (tokenStartingAt_range _ _ _ Hne) in Ht.
    rewrite tokenSequence_Join in Ht. lia.
Qed.

Lemma getExpectedKey_token_starts_witness :
  getExpectedKey "1aLC" 2 = "LC"
  ∧ getExpectedKey "SLC" 1 = "?"
  ∧ getExpectedKey "abc" 5 = "?".
Proof.
  split; [| split].
  - destruct (getExpectedKey_token_starts "1aLC" 2) as (_ & _ & H & _).
    exact (H 2%nat "LC" eq_refl eq_refl).
  - destruct (getExpectedKey_token_starts "SLC" 1) as (_ & _ & _ & H & _).
    apply H. intros k Hk. destruct k as [|k]; [discriminate |].
    simpl in Hk. lia.
  - destruct (getExpectedKey_token_starts "abc" 5) as (_ & _ & _ & _ & H).
    apply H. right. vm_compute. discriminate.
Defined.

(** C8 as stated fails inside a token of several bytes: offsets 1 and 2
    of "SLC" lie in the string and are covered by the token "SLC", yet
    the lookup returns the marker there. *)
Lemma getExpectedKey_inside_token :
  tokenOccupying (tokenSequence "SLC") 1 = Some "SLC"
  ∧ tokenOccupying (tokenSequence "SLC") 2 = Some "SLC"
  ∧ 0 ≤ 1 < len "SLC"
  ∧ getExpectedKey "SLC" 1 = "?"
  ∧ getExpectedKey "SLC" 2 = "?"
  ∧ getExpectedKey "SLC" 1 ≠ "SLC".
Proof. repeat split; try reflexivity; try discriminate. Qed.

(** On ASCII patterns the tokens are reported as they stand. *)
Lemma renderToken_ascii (b : ascii) :
  (N_of_ascii b < 128)%N → renderToken (String b "") = String b "".
Proof. apply stringOfByte_ascii. Qed.

Lemma lengthsDescend_lookup (l : list string) (i j : nat) (t u : string) :
  lengthsDescend l = true → l !! i = Some t → l !! j = Some u → (i < j)%nat →
  (String.length u ≤ String.length t)%nat.
Proof.
  revert i j. induction l as [|a l IH]; intros i j Hd Hi Hj Hlt; [done |].
  simpl in Hd. apply andb_true_iff in Hd as [Hall Hd].
  destruct j as [|j]; [lia |]. simpl in Hj.
  destruct i as [|i]; simpl in Hi.
  - injection Hi as ->. rewrite forallb_forall in Hall.
    apply Nat.leb_le, Hall, list_elem_of_In, list_elem_of_lookup. eauto.
  - apply (IH i j); [done .. | lia].
Qed.

Lemma proper_prefix_shorter (t u : string) :
  HasPrefix t u = true → t ≠ u → (String.length u < String.length t)%nat.
Proof.
  intros Hp Hne. pose proof (HasPrefix_len _ _ Hp) as Hlen.
  destruct (decide (len t ≤ len u)) as [Hle |].
  - exfalso. apply Hne. symmetry. by apply HasPrefix_full.
  - unfold len in *. lia.
Qed.

(** C9: a literal that extends another one is tried before it; hence the
    literal the scan picks is the longest that matches, and the lookup at
    the start of a pattern that begins with a literal returns the longest
    such literal.  For "SLC" this is the one token "SLC", at the lookup,
    in the token sequence and on the display. *)
Theorem longest_match_first :
  (∀ i j t u,
     tokens !! i = Some t → tokens !! j = Some u →
     HasPrefix t u = true → t ≠ u → (i < j)%nat)
  ∧ (∀ rest t u,
       matchToken rest = Some t → In u tokens → HasPrefix rest u = true →
       (String.length u ≤ String.length t)%nat)
  ∧ (∀ pattern u,
       In u tokens → HasPrefix pattern u = true →
       ∃ t, getExpectedKey pattern 0 = t ∧ In t tokens
            ∧ HasPrefix pattern t = true
            ∧ (String.length u ≤ String.length t)%nat)
  ∧ getExpectedKey "SLC" 0 = "SLC"
  ∧ tokenSequence "SLC" = ["SLC"]
  ∧ tokenSequence "SLC" ≠ ["S"; "LC"]
  ∧ formatForDisplay "SLC" = "‚áß‚óê".
Proof.
  split; [| split; [| split]].
  - intros i j t u Hi Hj Hp Hne.
    pose proof (proper_prefix_shorter _ _ Hp Hne) as Hlt.
    destruct (decide (i < j)%nat) as [| Hge]; [done |]. exfalso.
    destruct (decide (i = j)) as [-> | Hij]; [congruence |].
    pose proof (lengthsDescend_lookup tokens j i u t tokens_lengthsDescend Hj Hi).
    lia.
  - intros rest t u Hm Hin Hp.
    exact (find_longest _ _ _ tokens_lengthsDescend Hm u Hin Hp).
  - intros pattern u Hin Hp.
    destruct (matchToken pattern) as [t|] eqn:Hm.
    + exists t. pose proof (matchToken_Some _ _ Hm) as [Ht Hpt].
      repeat split; try done.
      * rewrite getExpectedKey_tokenStartingAt. unfold tokenSequence.
        destruct pattern as [|b pattern]; [by rewrite matchToken_empty in Hm |].
        cbn [String.length tokenSequence_from]. rewrite Hm. simpl.
        by apply renderToken_literal.
      * exact (find_longest _ _ _ tokens_lengthsDescend Hm u Hin Hp).
    + by rewrite (matchToken_None _ _ Hm Hin) in Hp.
  - repeat split; try reflexivity. discriminate.
Qed.

Lemma longest_match_first_witness :
  (String.length "F1" ≤ String.length (getExpectedKey "F10a" 0))%nat ∧ (2 < 8)%nat.
Proof.
  destruct longest_match_first as (Horder & _ & Hlookup & _).
  split.
  - assert (In "F1" tokens) as Hin by (simpl; tauto).
    destruct (Hlookup "F10a" "F1" Hin eq_refl) as (t & Ht & _ & _ & Hlen).
    by rewrite Ht.
  - apply (Horder 2%nat 8%nat "F10" "F1" eq_refl eq_refl eq_refl). discriminate.
Defined.

End TokenizerClaims.

(** * Facts about the statistics *)

Section StatsFacts.

Lemma getPatternStats_lookup (pattern : Pattern) (s : AllStats) :
  PatternStatsMap (snd (getPatternStats pattern s)) !! PatternText pattern
  = Some (rowOf s pattern).
Proof.
  unfold rowOf, getPatternStats.
  destruct (PatternStatsMap s !! PatternText pattern) eqn:H; simpl; [done |].
  apply lookup_insert_eq.
Qed.

Lemma rowOf_lookup (pattern : Pattern) (s : AllStats) :
  rowOf s pattern
  = default (newPatternStats pattern) (PatternStatsMap s !! PatternText pattern).
Proof.
  unfold rowOf, getPatternStats.
  by destruct (PatternStatsMap s !! PatternText pattern).
Qed.

Lemma recordAttempt_lookup (pattern : Pattern) (elapsed : Duration) (resets : Z)
    (now : Time) (s : AllStats) :
  PatternStatsMap (recordAttempt pattern elapsed resets now s) !! PatternText pattern
  = Some (attemptOn (rowOf s pattern) elapsed resets now).
Proof.
  unfold recordAttempt, rowOf.
  destruct (getPatternStats pattern s) as [ps s1]. simpl.
  apply lookup_insert_eq.
Qed.

Lemma recordAttempt_lookup_ne (pattern : Pattern) (elapsed : Duration) (resets : Z)
    (now : Time) (s : AllStats) (text : string) :
  text ≠ PatternText pattern →
  PatternStatsMap (recordAttempt pattern elapsed resets now s) !! text
  = PatternStatsMap s !! text.
Proof.
  intros Hne. unfold recordAttempt, getPatternStats.
  destruct (PatternStatsMap s !! PatternText pattern); simpl;
    rewrite !lookup_insert_ne by done; done.
Qed.

Lemma recordMistake_lookup (pattern : Pattern) (position : Z)
    (expected actual : string) (now : Time) (s : AllStats) :
  PatternStatsMap (recordMistake pattern position expected actual now s)
    !! PatternText pattern
  = Some (mistakeOn (rowOf s pattern)
            {| Position := position; Expected := expected;
               Actual := actual; Timestamp := now |}).
Proof.
  unfold recordMistake, rowOf.
  destruct (getPatternStats pattern s) as [ps s1]. simpl.
  apply lookup_insert_eq.
Qed.

Lemma bestTimeOf_rowOf (s : AllStats) (pattern : Pattern) :
  bestTimeOf s (PatternText pattern) = BestTime (rowOf s pattern).
Proof.
  rewrite rowOf_lookup. unfold bestTimeOf.
  by destruct (PatternStatsMap s !! PatternText pattern).
Qed.

Lemma mistakesOf_rowOf (s : AllStats) (pattern : Pattern) :
  mistakesOf s (PatternText pattern) = Mistakes (rowOf s pattern).
Proof.
  rewrite rowOf_lookup. unfold mistakesOf.
  by destruct (PatternStatsMap s !! PatternText pattern).
Qed.

Lemma rowOf_recordAttempt (pattern : Pattern) (elapsed : Duration) (resets : Z)
    (now : Time) (s : AllStats) :
  rowOf (recordAttempt pattern elapsed resets now s) pattern
  = attemptOn (rowOf s pattern) elapsed resets now.
Proof.
  rewrite (rowOf_lookup pattern (recordAttempt _ _ _ _ _)).
  by rewrite recordAttempt_lookup.
Qed.

(** The best time of a row after an attempt. *)
Lemma attemptOn_BestTime (ps : PatternStats) (elapsed : Duration) (resets : Z)
    (now : Time) :
  BestTime (attemptOn ps elapsed resets now)
  = if (resets =? 0) && ((BestTime ps =? 0) || (elapsed <? BestTime ps))
    then elapsed else BestTime ps.
Proof. unfold attemptOn. by destruct (resets =? 0); simpl. Qed.

Lemma bestTimeOf_recordAttempt (pattern : Pattern) (elapsed : Duration)
    (resets : Z) (now : Time) (s : AllStats) (text : string) :
  bestTimeOf (recordAttempt pattern elapsed resets now s) text
  = if decide (text = PatternText pattern) then
      if (resets =? 0)
         && ((bestTimeOf s text =? 0) || (elapsed <? bestTimeOf s text))
      then elapsed else bestTimeOf s text
    else bestTimeOf s text.
Proof.
  case_decide as Htext.
  - subst text. rewrite !bestTimeOf_rowOf, rowOf_recordAttempt.
    apply attemptOn_BestTime.
  - unfold bestTimeOf. by rewrite recordAttempt_lookup_ne.
Qed.

Lemma recordAttempts_snoc (attempts : list Attempt) (a : Attempt) (s : AllStats) :
  recordAttempts (attempts ++ [a]) s
  = recordAttempt (attemptPattern a) (attemptElapsed a) (attemptResets a)
      (attemptTime a) (recordAttempts attempts s).
Proof. unfold recordAttempts. by rewrite fold_left_app. Qed.

(** One attempt never raises a best time that is set. *)
Lemma recordAttempt_bestTime_step (pattern : Pattern) (elapsed : Duration)
    (resets : Z) (now : Time) (s : AllStats) (text : string) :
  bestTimeOf s text ≠ 0 →
  bestTimeOf (recordAttempt pattern elapsed resets now s) text ≤ bestTimeOf s text.
Proof.
  intros Hset. rewrite bestTimeOf_recordAttempt.
  case_decide; [| lia].
  destruct (resets =? 0); simpl; [| lia].
  rewrite (proj2 (Z.eqb_neq _ _)) by done. simpl.
  destruct (Z.ltb_spec elapsed (bestTimeOf s text)); lia.
Qed.

End StatsFacts.

(** * Best times (C6) and streaks (C7) *)

Section StatsClaims.

(** What holds of best-time monotonicity.  An attempt changes the stored
    best time of a pattern only when it is a perfect attempt on that
    pattern and either the stored best is zero or the elapsed time is
    strictly less than the stored best, and then the new best is the
    elapsed time; so a best time that is not zero never goes up in one
    attempt, nor over any sequence of attempts during which it stays
    non-zero, nor over any sequence of attempts with positive elapsed
    times.  The zero case is where C6 fails, as shown further down. *)
Theorem recordAttempt_bestTime_monotone (s : AllStats) (text : string) :
  (∀ pattern elapsed resets now,
     let b := bestTimeOf s text in
     let b' := bestTimeOf (recordAttempt pattern elapsed resets now s) text in
     (b' ≠ b →
      text = PatternText pattern ∧ resets = 0 ∧ (b = 0 ∨ elapsed < b)
      ∧ b' = elapsed)
     ∧ (b ≠ 0 → b' ≤ b))
  ∧ (∀ attempts,
       (∀ k, (k < length attempts)%nat →
             bestTimeOf (recordAttempts (take k attempts) s) text ≠ 0) →
       bestTimeOf (recordAttempts attempts s) text ≤ bestTimeOf s text)
  ∧ (∀ attempts,
       0 < bestTimeOf s text →
       Forall (fun a => 0 < attemptElapsed a) attempts →
       0 < bestTimeOf (recordAttempts attempts s) text ≤ bestTimeOf s text).
Proof.
  split; [| split]; cycle 2.
  { intros attempts Hset.
    induction attempts as [|a attempts IH] using rev_ind.
    - intros _. simpl. lia.
    - intros [Hpos Ha]%Forall_app. specialize (IH Hpos).
      apply Forall_cons in Ha as [Ha _]. rewrite recordAttempts_snoc, bestTimeOf_recordAttempt.
      case_decide; [| lia].
      destruct (attemptResets a =? 0); simpl; [| lia].
      destruct ((bestTimeOf (recordAttempts attempts s) text =? 0)
                || (attemptElapsed a <? bestTimeOf (recordAttempts attempts s) text))
        eqn:Hupd; [| lia].
      apply orb_true_iff in Hupd as [Hz%Z.eqb_eq | Hlt%Z.ltb_lt]; lia. }
  - intros pattern elapsed resets now b b'. split.
    + subst b b'. rewrite bestTimeOf_recordAttempt.
      case_decide as Htext; [| done].
      destruct (Z.eqb_spec resets 0) as [-> | Hr]; simpl; [| done].
      destruct (Z.eqb_spec (bestTimeOf s text) 0) as [Hz | Hz]; simpl.
      * intros Hne. repeat split; try done. by left.
      * destruct (Z.ltb_spec elapsed (bestTimeOf s text)); [| done].
        intros Hne. repeat split; try done. by right.
    + apply recordAttempt_bestTime_step.
  - intros attempts. induction attempts as [|a attempts IH] using rev_ind.
    + intros _. simpl. lia.
    + intros Hset. rewrite recordAttempts_snoc.
      assert (bestTimeOf (recordAttempts attempts s) text ≠ 0) as Hlast.
      { specialize (Hset (length attempts)).
        rewrite take_app_length in Hset. apply Hset.
        rewrite length_app. simpl. lia. }
      etrans; [by apply recordAttempt_bestTime_step |].
      apply IH. intros k Hk. specialize (Hset k).
      rewrite take_app_le in Hset by lia. apply Hset.
      rewrite length_app. simpl. lia.
Qed.

Lemma recordAttempt_bestTime_monotone_witness :
  let p := {| Name := "Tank Siege"; PatternText := "1z4z" |} in
  let s0 := recordAttempt p 900 0 1 emptyStats in
  let attempts :=
    [ {| attemptPattern := p; attemptElapsed := 700; attemptResets := 0;
         attemptTime := 2 |};
      {| attemptPattern := p; attemptElapsed := 800; attemptResets := 0;
         attemptTime := 3 |};
      {| attemptPattern := p; attemptElapsed := 100; attemptResets := 2;
         attemptTime := 4 |} ] in
  bestTimeOf s0 "1z4z" = 900
  ∧ bestTimeOf (recordAttempts attempts s0) "1z4z" = 700
  ∧ bestTimeOf (recordAttempts attempts s0) "1z4z" ≤ bestTimeOf s0 "1z4z".
Proof.
  intros p s0 attempts.
  split; [reflexivity |]. split; [reflexivity |].
  destruct (recordAttempt_bestTime_monotone s0 "1z4z") as (_ & H & _).
  apply H. intros k Hk.
  destruct k as [|[|[|k]]]; [vm_compute; discriminate .. |].
  simpl in Hk. lia.
Defined.

(** C7: a perfect attempt adds one to the current streak and lifts the
    best streak to it when it is larger; an attempt with resets puts the
    current streak back to zero and leaves the best streak alone; the
    best streak never goes down.  Attempts with resets 0, 0, 1, 0 on a
    pattern without a row give the current streaks 1, 2, 0, 1 and the
    best streak 2. *)
Theorem recordAttempt_streaks :
  (∀ pattern elapsed resets now s,
     let before := rowOf s pattern in
     let after := rowOf (recordAttempt pattern elapsed resets now s) pattern in
     PatternStatsMap (recordAttempt pattern elapsed resets now s)
       !! PatternText pattern = Some after
     ∧ (resets = 0 →
        CurrentStreak after = incr (CurrentStreak before)
        ∧ BestStreak after
          = if BestStreak before <? incr (CurrentStreak before)
            then incr (CurrentStreak before) else BestStreak before)
     ∧ (resets = 0 → - 2 ^ 63 ≤ CurrentStreak before < 2 ^ 63 - 1 →
        CurrentStreak after = CurrentStreak before + 1)
     ∧ (resets ≠ 0 →
        CurrentStreak after = 0 ∧ BestStreak after = BestStreak before)
     ∧ BestStreak before ≤ BestStreak after)
  ∧ (∀ pattern e1 e2 e3 e4 n1 n2 n3 n4 s,
       PatternStatsMap s !! PatternText pattern = None →
       let s1 := recordAttempt pattern e1 0 n1 s in
       let s2 := recordAttempt pattern e2 0 n2 s1 in
       let s3 := recordAttempt pattern e3 1 n3 s2 in
       let s4 := recordAttempt pattern e4 0 n4 s3 in
       map (fun st => CurrentStreak (rowOf st pattern)) [s1; s2; s3; s4]
         = [1; 2; 0; 1]
       ∧ BestStreak (rowOf s4 pattern) = 2).
Proof.
  split.
  - intros pattern elapsed resets now s before after. subst before after.
    rewrite rowOf_recordAttempt, recordAttempt_lookup.
    split; [done |]. unfold attemptOn.
    destruct (Z.eqb_spec resets 0) as [-> | Hr]; simpl.
    + split; [done |]. split; [intros _; by apply incr_small |].
      split; [done |].
      destruct (Z.ltb_spec (BestStreak (rowOf s pattern))
                  (incr (CurrentStreak (rowOf s pattern)))); lia.
    + repeat split; try done; lia.
  - intros pattern e1 e2 e3 e4 n1 n2 n3 n4 s Hnone s1 s2 s3 s4.
    subst s1 s2 s3 s4. cbn [map].
    rewrite !rowOf_recordAttempt, rowOf_lookup, Hnone. done.
Qed.

Lemma recordAttempt_streaks_witness :
  let p := {| Name := "Tank Siege"; PatternText := "1z4z" |} in
  let s1 := recordAttempt p 40 0 1 emptyStats in
  let s2 := recordAttempt p 30 0 2 s1 in
  let s3 := recordAttempt p 90 1 3 s2 in
  let s4 := recordAttempt p 35 0 4 s3 in
  (map (fun st => CurrentStreak (rowOf st p)) [s1; s2; s3; s4] = [1; 2; 0; 1]
   ∧ BestStreak (rowOf s4 p) = 2)
  ∧ CurrentStreak (rowOf s3 p) = 0
  ∧ CurrentStreak (rowOf s2 p) = incr (CurrentStreak (rowOf s1 p)).
Proof.
  intros p s1 s2 s3 s4.
  destruct recordAttempt_streaks as [Hone Hfour].
  split; [| split].
  - exact (Hfour p 40 30 90 35 1 2 3 4 emptyStats eq_refl).
  - destruct (Hone p 90 1 3 s2) as (_ & _ & _ & Hreset & _).
    apply Hreset. discriminate.
  - destruct (Hone p 30 0 2 s1) as (_ & Hperfect & _).
    by apply Hperfect.
Defined.

End StatsClaims.

(** * Facts about the event handlers *)

Section TrainerFacts.

Lemma run_snoc (os : list Occurrence) (o : Occurrence) (app : App) :
  run (os ++ [o]) app = occur o (run os app).
Proof. unfold run. by rewrite fold_left_app. Qed.

Lemma run_cons (o : Occurrence) (os : list Occurrence) (app : App) :
  run (o :: os) app = run os (occur o app).
Proof. done. Qed.

Lemma allEnabled_rtc (os : list Occurrence) (app : App) :
  allEnabled os app → rtc step app (run os app).
Proof.
  revert app. induction os as [|o os IH]; intros app; simpl.
  - intros _. apply rtc_refl.
  - intros [Ho Hos]. eapply rtc_l; [by apply step_occur |]. by apply IH.
Qed.

Lemma finishPattern_allPatterns (clk : Clock) (app : App) :
  allPatterns (finishPattern clk app) = allPatterns app.
Proof.
  unfold finishPattern. destruct (isActive app); simpl; [| done].
  by destruct (resetCount app =? 0).
Qed.

Lemma addKey_allPatterns (clk : Clock) (key : string) (app : App) :
  allPatterns (addKey clk key app) = allPatterns app.
Proof.
  unfold addKey. destruct (isActive app); simpl; [| done].
  destruct (HasPrefix _ _); simpl.
  - destruct (_ <=? _); [| done]. by rewrite finishPattern_allPatterns.
  - by destruct (inputBuffer app).
Qed.

Lemma nextPattern_allPatterns (clk : Clock) (app : App) :
  allPatterns (nextPattern clk app) = allPatterns app.
Proof.
  unfold nextPattern. destruct (inSession app); simpl; [| done].
  by destruct (patternQueue app).
Qed.

(** No handler touches the loaded patterns. *)
Lemma occur_allPatterns (o : Occurrence) (app : App) :
  allPatterns (occur o app) = allPatterns app.
Proof.
  unfold occur. destruct (event o) as [key | r | button shift |]; simpl.
  - unfold TypedKey.
    destruct (isEscape key && inSession app); [done |].
    destruct (negb (inSession app) && startsSession key).
    { unfold startSession. by rewrite nextPattern_allPatterns. }
    destruct (negb (isActive app)); [done |].
    destruct (keyNames key) as [name|]; [| done].
    destruct (_ && _); [| done]. apply addKey_allPatterns.
  - unfold TypedRune. destruct (negb (isActive app)); [done |].
    apply addKey_allPatterns.
  - unfold MouseDown. destruct (negb (isActive app)); [done |].
    destruct button; try done; apply addKey_allPatterns.
  - unfold advanceAfterDelay. simpl. destruct (inSession app); [| done].
    by rewrite nextPattern_allPatterns.
Qed.

(** Shuffles that permute the loaded patterns and callbacks that find a
    sleeping goroutine make a list of occurrences that can happen. *)
Lemma allEnabled_intro (os : list Occurrence) (app : App) :
  Forall (fun o => Permutation (shuffle o) (allPatterns app)) os →
  advancesReady os app = true →
  allEnabled os app.
Proof.
  revert app. induction os as [|o os IH]; intros app Hperm Hready; [done |].
  apply Forall_cons in Hperm as [Ho Hos].
  cbn [advancesReady] in Hready.
  apply andb_true_iff in Hready as [Hnow Hlater].
  cbn [allEnabled]. split.
  - split; [done |]. intros Hev. rewrite Hev in Hnow. simpl in Hnow.
    by apply Nat.ltb_lt.
  - apply IH; [| done]. by rewrite occur_allPatterns.
Qed.

Lemma run_reachable (patterns : list Pattern) (st : AllStats)
    (os : list Occurrence) :
  allEnabled os (initApp patterns st) → reachable (run os (initApp patterns st)).
Proof. intros H. exists patterns, st. by apply allEnabled_rtc. Qed.

Lemma pattern_nonempty_len (text : string) : text ≠ "" → 0 < len text.
Proof. destruct text; [done | unfold len; simpl; lia]. Qed.

Lemma initApp_invariant (patterns : list Pattern) (st : AllStats) :
  bufferInvariant (initApp patterns st).
Proof. split; simpl; done. Qed.

Lemma sessionComplete_invariant (clk : Clock) (app : App) :
  bufferInvariant app → bufferInvariant (sessionComplete clk app).
Proof. intros [H1 H2 H3 H4]. split; simpl; done. Qed.

Lemma stopSession_invariant (clk : Clock) (app : App) :
  bufferInvariant app → bufferInvariant (stopSession clk app).
Proof. intros [H1 H2 H3 H4]. split; simpl; done. Qed.

Lemma nextPattern_invariant (clk : Clock) (app : App) :
  bufferInvariant app → bufferInvariant (nextPattern clk app).
Proof.
  intros Hinv. unfold nextPattern.
  destruct (inSession app) eqn:Hs; simpl; [| done].
  destruct (patternQueue app) as [|head rest].
  - by apply sessionComplete_invariant.
  - split; simpl; try done.
    all: try (intros _ Hne; change (len (Join [] "")) with 0;
              by apply pattern_nonempty_len).
    all: try constructor.
Qed.

Lemma startSession_invariant (clk : Clock) (shuffled : list Pattern) (app : App) :
  bufferInvariant app → bufferInvariant (startSession clk shuffled app).
Proof.
  intros [H1 H2 H3 H4]. unfold startSession.
  apply nextPattern_invariant. split; simpl; done.
Qed.

Lemma finishPattern_invariant (clk : Clock) (app : App) :
  bufferInvariant app → bufferInvariant (finishPattern clk app).
Proof.
  intros Hinv. pose proof Hinv as [H1 H2 H3 H4]. unfold finishPattern.
  destruct (isActive app); simpl; [| done].
  destruct (resetCount app =? 0); split; simpl; done.
Qed.

Lemma addKey_invariant (clk : Clock) (key : string) (app : App) :
  key ≠ "" → bufferInvariant app → bufferInvariant (addKey clk key app).
Proof.
  intros Hkey Hinv. pose proof Hinv as [H1 H2 H3 H4]. unfold addKey.
  destruct (isActive app) eqn:Hact; simpl; [| done].
  destruct (HasPrefix (PatternText (currentPattern app))
              (Join (inputBuffer app ++ [key]) "")) eqn:Hp; simpl.
  - assert (Forall (fun k => k ≠ "") (inputBuffer app ++ [key])) as Hkeys.
    { apply Forall_app. split; [done |]. by constructor. }
    destruct (Z.leb_spec (len (PatternText (currentPattern app)))
                (len (Join (inputBuffer app ++ [key]) ""))) as [Hle | Hlt].
    + unfold finishPattern. simpl. rewrite Hact. simpl.
      destruct (resetCount app =? 0); split; simpl; done.
    + split; simpl; try done. intros _. by apply H4.
  - destruct (inputBuffer app) as [|k0 buffer] eqn:Hbuf; [done |].
    split; simpl; try done.
    all: try (intros _ Hne; change (len (Join [] "")) with 0;
              by apply pattern_nonempty_len).
    all: try constructor.
    intros _. by apply H4.
Qed.

Lemma keyNames_nonempty (key : KeyName) (name : string) :
  keyNames key = Some name → name ≠ "".
Proof. destruct key; intros [= <-]; done. Qed.

Lemma handle_invariant (clk : Clock) (shuffled : list Pattern) (ev : Event)
    (app : App) :
  bufferInvariant app → bufferInvariant (handle clk shuffled ev app).
Proof.
  intros Hinv. destruct ev as [key | r | button shift |]; simpl.
  - unfold TypedKey.
    destruct (isEscape key && inSession app); [by apply stopSession_invariant |].
    destruct (negb (inSession app) && startsSession key);
      [by apply startSession_invariant |].
    destruct (negb (isActive app)); [done |].
    destruct (keyNames key) as [name|] eqn:Hname; [| done].
    destruct (negb (String.eqb name "ESC") && negb (String.eqb name "Enter"));
      [| done].
    apply addKey_invariant; [| done]. by eapply keyNames_nonempty.
  - unfold TypedRune. destruct (negb (isActive app)); [done |].
    apply addKey_invariant; [| done]. apply stringOfRune_nonempty.
  - unfold MouseDown. destruct (negb (isActive app)); [done |].
    destruct button; [| | | done];
      (apply addKey_invariant; [| done]); by destruct shift.
  - unfold advanceAfterDelay. simpl.
    pose proof Hinv as [H1 H2 H3 H4].
    destruct (inSession app) eqn:Hs.
    + apply nextPattern_invariant. split; simpl; done.
    + split; simpl; done.
Qed.

Lemma step_invariant (app app' : App) :
  step app app' → bufferInvariant app → bufferInvariant app'.
Proof. intros [o a _]. apply handle_invariant. Qed.

Lemma reachable_invariant (app : App) : reachable app → bufferInvariant app.
Proof.
  intros (patterns & st & Hrun).
  revert app Hrun. apply rtc_ind_r.
  - apply initApp_invariant.
  - intros a b _ Hstep IH. by eapply step_invariant.
Qed.

(** In a state of a run, an empty pattern leaves the buffer empty. *)
Lemma invariant_empty_pattern (app : App) :
  bufferInvariant app → PatternText (currentPattern app) = "" →
  inputBuffer app = [].
Proof.
  intros [H1 _ H3 _] Hempty. rewrite Hempty in H1.
  apply HasPrefix_empty_l in H1.
  destruct (inputBuffer app) as [|k0 buffer]; [done |].
  apply Forall_cons in H3 as [Hk0 _].
  rewrite Join_cons in H1. destruct k0; [done | discriminate].
Qed.

(** A key that does not extend the buffer to a prefix of the pattern
    leaves the buffer empty. *)
Lemma addKey_rejected_buffer (clk : Clock) (key : string) (app : App) :
  isActive app = true →
  HasPrefix (PatternText (currentPattern app))
    (Join (inputBuffer app ++ [key]) "") = false →
  inputBuffer (addKey clk key app) = [].
Proof.
  intros Hact Hp. unfold addKey. rewrite Hact, Hp. simpl.
  by destruct (inputBuffer app) eqn:Hbuf.
Qed.

End TrainerFacts.

(** * The buffer and the pattern (C1, C2, C3, C10) *)

Section BufferClaims.

(** C1, as the code has it: in every state of a run the bytes typed so far
    (the buffer entries joined) are a prefix of the bytes of the current
    pattern, shorter than the pattern while it is active unless the
    pattern is empty; a key that would break this is not appended and the
    buffer is left empty.  The buffer entries themselves need not be
    tokens of the pattern. *)
Theorem buffer_is_string_prefix (app : App) :
  reachable app →
  HasPrefix (PatternText (currentPattern app)) (Join (inputBuffer app) "") = true
  ∧ (isActive app = true → PatternText (currentPattern app) ≠ "" →
     len (Join (inputBuffer app) "") < len (PatternText (currentPattern app))
     ∧ Join (inputBuffer app) "" ≠ PatternText (currentPattern app))
  ∧ (∀ clk key,
       isActive app = true →
       HasPrefix (PatternText (currentPattern app))
         (Join (inputBuffer app ++ [key]) "") = false →
       inputBuffer (addKey clk key app) = []).
Proof.
  intros [H1 H2 _ _]%reachable_invariant.
  split; [done |]. split.
  - intros Hact Hne. specialize (H2 Hact Hne). split; [done |].
    intros Heq. rewrite Heq in H2. lia.
  - intros clk key. apply addKey_rejected_buffer.
Qed.

Lemma buffer_is_string_prefix_witness :
  let app :=
    run [at_ 10 defaultPatterns (EvTypedKey KeySpace);
         at_ 20 defaultPatterns (EvTypedRune 49)]
      (initApp defaultPatterns emptyStats) in
  inputBuffer app = ["1"]
  ∧ PatternText (currentPattern app) = "1a2a3a4a5a"
  ∧ HasPrefix (PatternText (currentPattern app)) (Join (inputBuffer app) "") = true
  ∧ inputBuffer (addKey (clockAt 30) "b" app) = [].
Proof.
  intros app.
  assert (reachable app) as Hreach.
  { apply run_reachable. simpl.
    repeat split; try apply Permutation_refl; discriminate. }
  destruct (buffer_is_string_prefix app Hreach) as (Hprefix & _ & Hreject).
  split; [reflexivity |]. split; [reflexivity |]. split; [exact Hprefix |].
  apply Hreject; reflexivity.
Defined.

(** C1 as stated fails.  With the default patterns, the rune L is taken
    as the start of "LCaRCa" although the token sequence begins with the
    click LC; and an empty pattern is active with a buffer that is the
    whole of its token sequence, not a strict prefix. *)
Lemma buffer_not_token_prefix :
  let clicks := {| Name := "Click Practice"; PatternText := "LCaRCa" |} in
  let shuffled := clicks :: removelast defaultPatterns in
  let app :=
    run [at_ 10 shuffled (EvTypedKey KeySpace); at_ 20 shuffled (EvTypedRune 76)]
      (initApp defaultPatterns emptyStats) in
  let blank := {| Name := "Name"; PatternText := "" |} in
  let app2 := run [at_ 10 [blank] (EvTypedKey KeySpace)] (initApp [blank] emptyStats) in
  (reachable app ∧ isActive app = true
   ∧ inputBuffer app = ["L"]
   ∧ tokenSequence (PatternText (currentPattern app)) = ["LC"; "a"; "RC"; "a"]
   ∧ ¬ inputBuffer app `prefix_of` tokenSequence (PatternText (currentPattern app)))
  ∧ (reachable app2 ∧ isActive app2 = true
     ∧ inputBuffer app2 = tokenSequence (PatternText (currentPattern app2))).
Proof.
  intros clicks shuffled app blank app2. split.
  - split.
    { apply run_reachable. simpl.
      repeat split; try discriminate;
        apply (Permutation_cons_append (removelast defaultPatterns) clicks). }
    repeat split; try reflexivity.
    intros [k Hk]. vm_compute in Hk. discriminate.
  - split; [| split; reflexivity].
    apply run_reachable. simpl.
    repeat split; try apply Permutation_refl; discriminate.
Qed.

Lemma mistakesOf_save (now : Time) (s : AllStats) (text : string) :
  mistakesOf (save now s) text = mistakesOf s text.
Proof. done. Qed.

Lemma mistakesOf_recordMistake (pattern : Pattern) (position : Z)
    (expected actual : string) (now : Time) (s : AllStats) :
  mistakesOf (recordMistake pattern position expected actual now s)
    (PatternText pattern)
  = keepLast100
      (mistakesOf s (PatternText pattern)
       ++ [ {| Position := position; Expected := expected;
               Actual := actual; Timestamp := now |} ]).
Proof.
  unfold mistakesOf at 1. rewrite recordMistake_lookup. simpl.
  by rewrite mistakesOf_rowOf.
Qed.

(** The newest mistake is the last one kept. *)
Lemma keepLast100_snoc (ms : list Mistake) (m : Mistake) :
  ∃ rest, keepLast100 (ms ++ [m]) = rest ++ [m].
Proof.
  unfold keepLast100. rewrite length_app. simpl.
  destruct (100 <? Z.of_nat (length ms + 1)) eqn:H.
  - exists (drop (length ms + 1 - 100) ms).
    rewrite drop_app_le by lia. done.
  - by exists ms.
Qed.

(** What the reset branch of [addKey] does. *)
Lemma addKey_reset (clk : Clock) (key : string) (app : App) :
  isActive app = true →
  HasPrefix (PatternText (currentPattern app))
    (Join (inputBuffer app ++ [key]) "") = false →
  inputBuffer app ≠ [] →
  addKey clk key app
  = resetInput clk key (Join (inputBuffer app ++ [key]) "") app.
Proof.
  intros Hact Hp Hbuf. unfold addKey. rewrite Hact, Hp. simpl.
  by destruct (inputBuffer app).
Qed.

(** The mistakes of the pattern after a reset. *)
Lemma addKey_reset_mistakes (clk : Clock) (key : string) (app : App) :
  isActive app = true →
  HasPrefix (PatternText (currentPattern app))
    (Join (inputBuffer app ++ [key]) "") = false →
  inputBuffer app ≠ [] →
  let position := len (Join (inputBuffer app ++ [key]) "") - len key in
  mistakesOf (stats (addKey clk key app)) (PatternText (currentPattern app))
  = keepLast100
      (mistakesOf (stats app) (PatternText (currentPattern app))
       ++ [ {| Position := position;
               Expected := getExpectedKey (PatternText (currentPattern app)) position;
               Actual := key; Timestamp := nowMistake clk |} ]).
Proof.
  intros Hact Hp Hbuf position.
  rewrite (addKey_reset clk key app Hact Hp Hbuf).
  unfold resetInput. simpl.
  rewrite mistakesOf_save. apply mistakesOf_recordMistake.
Qed.

(** C2: a key that does not extend the typed bytes to a prefix of the
    pattern is ignored, with the state unchanged, when the buffer is empty;
    otherwise a mistake with the position, the token [getExpectedKey]
    finds there and the key is recorded, the reset counter goes up by
    one, the buffer is emptied and the start time stays.  For "1aLC" and
    the inputs 1, a, right click, the third input records position 2,
    expected "LC", actual "RC", and the reset count becomes 1. *)
Theorem addKey_mismatch :
  (∀ clk key app,
     isActive app = true →
     HasPrefix (PatternText (currentPattern app))
       (Join (inputBuffer app ++ [key]) "") = false →
     (inputBuffer app = [] → addKey clk key app = app)
     ∧ (inputBuffer app ≠ [] →
        let text := PatternText (currentPattern app) in
        let position := len (Join (inputBuffer app ++ [key]) "") - len key in
        let expected := getExpectedKey text position in
        let mistake := {| Position := position; Expected := expected;
                          Actual := key; Timestamp := nowMistake clk |} in
        let app' := addKey clk key app in
        stats app'
          = save (nowSave clk)
              (recordMistake (currentPattern app) position expected key
                 (nowMistake clk) (stats app))
        ∧ mistakesOf (stats app') text
          = keepLast100 (mistakesOf (stats app) text ++ [mistake])
        ∧ resetCount app' = incr (resetCount app)
        ∧ inputBuffer app' = []
        ∧ startTime app' = startTime app
        ∧ isActive app' = true
        ∧ currentPattern app' = currentPattern app
        ∧ patternQueue app' = patternQueue app
        ∧ sessionTotal app' = sessionTotal app
        ∧ sessionPerfect app' = sessionPerfect app))
  ∧ (∀ c1 c2 c3 c4 : Clock,
       let p := {| Name := "Army"; PatternText := "1aLC" |} in
       let o c ev := {| event := ev; clock := c; shuffle := [p] |} in
       let before :=
         run [o c1 (EvTypedKey KeySpace); o c2 (EvTypedRune 49);
              o c3 (EvTypedRune 97)] (initApp [p] emptyStats) in
       let after := occur (o c4 (EvMouseDown MouseButtonSecondary false)) before in
       inputBuffer before = ["1"; "a"]
       ∧ resetCount before = 0
       ∧ mistakesOf (stats before) "1aLC" = []
       ∧ inputBuffer after = []
       ∧ resetCount after = 1
       ∧ mistakesOf (stats after) "1aLC"
         = [ {| Position := 2; Expected := "LC"; Actual := "RC";
                Timestamp := nowMistake c4 |} ]
       ∧ startTime after = startTime before
       ∧ isActive after = true).
Proof.
  split.
  - intros clk key app Hact Hp. split.
    + intros Hbuf. unfold addKey. by rewrite Hact, Hp, Hbuf.
    + intros Hbuf text position expected mistake app'.
      subst app'. rewrite (addKey_reset clk key app Hact Hp Hbuf).
      split; [by unfold resetInput |].
      split; [by rewrite <- (addKey_reset clk key app Hact Hp Hbuf);
                 apply addKey_reset_mistakes |].
      unfold resetInput. simpl. repeat split; done.
  - intros c1 c2 c3 c4 p o before after.
    repeat split; reflexivity.
Qed.

Lemma addKey_mismatch_witness :
  let p := {| Name := "Army"; PatternText := "1aLC" |} in
  let start := run [at_ 10 [p] (EvTypedKey KeySpace)] (initApp [p] emptyStats) in
  let typed := run [at_ 20 [p] (EvTypedRune 49)] start in
  addKey (clockAt 30) "x" start = start
  ∧ resetCount (addKey (clockAt 30) "x" typed) = incr (resetCount typed)
  ∧ inputBuffer (addKey (clockAt 30) "x" typed) = [].
Proof.
  intros p start typed. destruct addKey_mismatch as [Hgen _].
  split.
  - destruct (Hgen (clockAt 30) "x" start eq_refl eq_refl) as [Hempty _].
    by apply Hempty.
  - destruct (Hgen (clockAt 30) "x" typed eq_refl eq_refl) as [_ Hreset].
    destruct Hreset as (_ & _ & Hcount & Hbuf & _); [discriminate |].
    by split.
Defined.

(** C3, as the code has it: the position of the mistake a reset records
    is the number of bytes typed so far, that is the length of the
    candidate string minus the length of the rejected key; it is where
    [getExpectedKey] then looks. *)
Theorem mistake_position_is_byte_offset (clk : Clock) (key : string) (app : App) :
  isActive app = true →
  HasPrefix (PatternText (currentPattern app))
    (Join (inputBuffer app ++ [key]) "") = false →
  inputBuffer app ≠ [] →
  ∃ m rest,
    mistakesOf (stats (addKey clk key app)) (PatternText (currentPattern app))
      = rest ++ [m]
    ∧ Position m = len (Join (inputBuffer app ++ [key]) "") - len key
    ∧ Position m = len (Join (inputBuffer app) "")
    ∧ Actual m = key
    ∧ Expected m = getExpectedKey (PatternText (currentPattern app)) (Position m).
Proof.
  intros Hact Hp Hbuf.
  pose proof (addKey_reset_mistakes clk key app Hact Hp Hbuf) as Hm.
  simpl in Hm.
  set (m := {| Position := len (Join (inputBuffer app ++ [key]) "") - len key;
               Expected := getExpectedKey (PatternText (currentPattern app))
                             (len (Join (inputBuffer app ++ [key]) "") - len key);
               Actual := key; Timestamp := nowMistake clk |}) in *.
  destruct (keepLast100_snoc
              (mistakesOf (stats app) (PatternText (currentPattern app))) m)
    as [rest Hrest].
  exists m, rest. rewrite Hm, Hrest. repeat split; try done.
  simpl. rewrite Join_snoc, len_append. lia.
Qed.

Lemma mistake_position_is_byte_offset_witness :
  let p := {| Name := "Clicks"; PatternText := "LCa" |} in
  let app :=
    run [at_ 10 [p] (EvTypedKey KeySpace);
         at_ 20 [p] (EvMouseDown MouseButtonPrimary false)]
      (initApp [p] emptyStats) in
  ∃ m rest,
    mistakesOf (stats (addKey (clockAt 30) "RC" app)) "LCa" = rest ++ [m]
    ∧ Position m = 2.
Proof.
  intros p app.
  destruct (mistake_position_is_byte_offset (clockAt 30) "RC" app)
    as (m & rest & Hm & _ & Hpos & _); [reflexivity | reflexivity | discriminate |].
  exists m, rest. split; [exact Hm | exact Hpos].
Defined.

(** C3 as stated fails once a token of several bytes is in the buffer:
    for "LCa", after a left click, a right click is rejected at position
    2, whereas the candidate has two tokens (one less is 1) and four
    bytes (one less is 3). *)
Lemma mistake_position_not_candidate_length :
  let p := {| Name := "Clicks"; PatternText := "LCa" |} in
  let before :=
    run [at_ 10 [p] (EvTypedKey KeySpace);
         at_ 20 [p] (EvMouseDown MouseButtonPrimary false)]
      (initApp [p] emptyStats) in
  let after := occur (at_ 30 [p] (EvMouseDown MouseButtonSecondary false)) before in
  let candidate := inputBuffer before ++ ["RC"] in
  reachable after
  ∧ inputBuffer before = ["LC"]
  ∧ inputBuffer after = [] ∧ resetCount after = 1
  ∧ Position <$> mistakesOf (stats after) "LCa" = [2]
  ∧ Z.of_nat (length candidate) - 1 = 1
  ∧ len (Join candidate "") - 1 = 3.
Proof.
  intros p before after candidate. split; [| repeat split; reflexivity].
  apply (run_reachable [p] emptyStats
           [at_ 10 [p] (EvTypedKey KeySpace);
            at_ 20 [p] (EvMouseDown MouseButtonPrimary false);
            at_ 30 [p] (EvMouseDown MouseButtonSecondary false)]).
  simpl. repeat split; try apply Permutation_refl; discriminate.
Qed.

Lemma HasPrefix_empty_nonempty (key : string) : key ≠ "" → HasPrefix "" key = false.
Proof. by destruct key. Qed.

(** With an empty pattern and an empty buffer, a key changes nothing. *)
Lemma addKey_empty_pattern (clk : Clock) (key : string) (app : App) :
  PatternText (currentPattern app) = "" → inputBuffer app = [] → key ≠ "" →
  addKey clk key app = app.
Proof.
  intros Hempty Hbuf Hkey. unfold addKey.
  destruct (isActive app); simpl; [| done].
  rewrite Hempty, Hbuf. change (Join ([] ++ [key]) "") with key.
  by rewrite HasPrefix_empty_nonempty.
Qed.

Lemma plainInput_empty_pattern (o : Occurrence) (app : App) :
  plainInput o → inSession app = true →
  PatternText (currentPattern app) = "" → inputBuffer app = [] →
  occur o app = app.
Proof.
  intros [Hin Hesc] Hs Hempty Hbuf. unfold occur.
  destruct (event o) as [key | r | button shift |] eqn:Hev; simpl; [| | | done].
  - unfold TypedKey. rewrite Hs. simpl.
    assert (isEscape key = false) as -> by (destruct key; done).
    simpl. destruct (negb (isActive app)); [done |].
    destruct (keyNames key) as [name|] eqn:Hname; [| done].
    destruct (negb (String.eqb name "ESC") && negb (String.eqb name "Enter"));
      [| done].
    apply addKey_empty_pattern; try done. by eapply keyNames_nonempty.
  - unfold TypedRune. destruct (negb (isActive app)); [done |].
    apply addKey_empty_pattern; try done. apply stringOfRune_nonempty.
  - unfold MouseDown. destruct (negb (isActive app)); [done |].
    destruct button; [| | | done];
      (apply addKey_empty_pattern; try done); by destruct shift.
Qed.

Lemma run_fixed (os : list Occurrence) (app : App) :
  Forall (fun o => occur o app = app) os → run os app = app.
Proof.
  induction 1 as [|o os Ho _ IH]; [done |]. by rewrite run_cons, Ho.
Qed.

(** What holds of an empty pattern.  A line "Name|" loads a pattern with
    an empty token string.  While such a pattern is active in a run, the
    buffer is empty and every key is ignored: any inputs from the keyboard
    and the mouse short of Escape leave the whole state as it is, so no
    mistake, no reset, no completion and no end of the session; the same
    holds of every course of events short of Escape when no deferred
    advance is pending.  With one pending the session does end, as shown
    further down. *)
Theorem empty_pattern_ignores_input :
  Loader.loadPatternsFromLines ["Name|"] = [ {| Name := "Name"; PatternText := "" |} ]
  ∧ ∀ app,
      reachable app → isActive app = true →
      PatternText (currentPattern app) = "" →
      inputBuffer app = []
      ∧ inSession app = true
      ∧ (∀ clk key, key ≠ "" → addKey clk key app = app)
      ∧ (∀ os, Forall plainInput os → run os app = app)
      ∧ (∀ os,
           pendingAdvances app = 0%nat → allEnabled os app →
           Forall (fun o => event o ≠ EvTypedKey KeyEscape) os →
           run os app = app).
Proof.
  split; [reflexivity |].
  intros app Hinv%reachable_invariant Hact Hempty.
  pose proof (invariant_empty_pattern app Hinv Hempty) as Hbuf.
  pose proof (active_in_session app Hinv Hact) as Hs.
  split; [done |]. split; [done |]. split; [| split].
  - intros clk key Hkey. by apply addKey_empty_pattern.
  - intros os Hos. apply run_fixed.
    eapply Forall_impl; [exact Hos |].
    intros o Ho. by apply plainInput_empty_pattern.
  - intros os Hpending. induction os as [|o os IH]; [done |].
    intros [[_ Hadv] Hen] [Ho Hos]%Forall_cons.
    assert (occur o app = app) as Hfix.
    { apply plainInput_empty_pattern; try done. split; [| done].
      destruct (event o); try done. specialize (Hadv eq_refl). lia. }
    rewrite run_cons, Hfix. rewrite Hfix in Hen. by apply IH.
Qed.

Lemma empty_pattern_ignores_input_witness :
  let blank := {| Name := "Name"; PatternText := "" |} in
  let app := run [at_ 10 [blank] (EvTypedKey KeySpace)] (initApp [blank] emptyStats) in
  run [at_ 20 [blank] (EvTypedRune 97);
       at_ 30 [blank] (EvMouseDown MouseButtonPrimary true);
       at_ 40 [blank] (EvTypedKey KeyF3);
       at_ 50 [blank] (EvTypedKey KeySpace)] app = app
  ∧ isActive app = true ∧ Sessions (stats app) = [].
Proof.
  intros blank app. split; [| split; reflexivity].
  destruct empty_pattern_ignores_input as [_ H].
  assert (reachable app) as Hreach.
  { apply run_reachable. simpl.
    repeat split; try apply Permutation_refl; discriminate. }
  destruct (H app Hreach eq_refl eq_refl) as (_ & _ & _ & Hrun & _).
  apply Hrun. repeat constructor; discriminate.
Defined.

End BufferClaims.

(** * Completions: the new best (C5) and the end of a session (C4) *)

Section CompletionClaims.






End CompletionClaims.

(** * Sessions (C4) *)

Section SessionClaims.

Lemma Sessions_recordAttempt (pattern : Pattern) (elapsed : Duration)
    (resets : Z) (now : Time) (s : AllStats) :
  Sessions (recordAttempt pattern elapsed resets now s) = Sessions s.
Proof.
  unfold recordAttempt, getPatternStats.
  by destruct (PatternStatsMap s !! PatternText pattern).
Qed.

Lemma Sessions_recordMistake (pattern : Pattern) (position : Z)
    (expected actual : string) (now : Time) (s : AllStats) :
  Sessions (recordMistake pattern position expected actual now s) = Sessions s.
Proof.
  unfold recordMistake, getPatternStats.
  by destruct (PatternStatsMap s !! PatternText pattern).
Qed.

(** Every completion counts for the session; a perfect one counts as
    perfect and leaves the queue, any other puts the pattern at the end
    of the queue.  One more advance is pending afterwards. *)
Lemma finishPattern_counts (clk : Clock) (app : App) :
  isActive app = true →
  let app' := finishPattern clk app in
  sessionTotal app' = incr (sessionTotal app)
  ∧ (resetCount app = 0 →
     sessionPerfect app' = incr (sessionPerfect app)
     ∧ patternQueue app' = patternQueue app)
  ∧ (resetCount app ≠ 0 →
     sessionPerfect app' = sessionPerfect app
     ∧ patternQueue app' = patternQueue app ++ [currentPattern app])
  ∧ isActive app' = false
  ∧ inSession app' = inSession app
  ∧ currentPattern app' = currentPattern app
  ∧ resetCount app' = resetCount app
  ∧ pendingAdvances app' = S (pendingAdvances app)
  ∧ Sessions (stats app') = Sessions (stats app)
  ∧ stats app'
    = save (nowSave clk)
        (recordAttempt (currentPattern app)
           (Sub (nowSince clk) (startTime app)) (resetCount app)
           (nowPracticed clk) (stats app)).
Proof.
  intros Hact app'. subst app'. unfold finishPattern. rewrite Hact. simpl.
  destruct (Z.eqb_spec (resetCount app) 0) as [Hr | Hr]; simpl;
    rewrite ?Sessions_recordAttempt; repeat split; try done.
Qed.

(** [nextPattern] ends the session only on an empty queue; otherwise it
    takes the head of the queue. *)
Lemma nextPattern_cases (clk : Clock) (app : App) :
  inSession app = true →
  (patternQueue app = [] ∧ nextPattern clk app = sessionComplete clk app)
  ∨ (∃ head rest,
       patternQueue app = head :: rest
       ∧ currentPattern (nextPattern clk app) = head
       ∧ patternQueue (nextPattern clk app) = rest
       ∧ isActive (nextPattern clk app) = true
       ∧ inSession (nextPattern clk app) = true
       ∧ inputBuffer (nextPattern clk app) = []
       ∧ resetCount (nextPattern clk app) = 0
       ∧ pendingAdvances (nextPattern clk app) = pendingAdvances app
       ∧ stats (nextPattern clk app) = stats app).
Proof.
  intros Hs. unfold nextPattern. rewrite Hs. simpl.
  destruct (patternQueue app) as [|head rest]; [by left |].
  right. by exists head, rest.
Qed.

(** The four ways [addKey] ends while a pattern is active. *)
Lemma addKey_cases (clk : Clock) (key : string) (app : App) :
  isActive app = true →
  addKey clk key app = app
  ∨ addKey clk key app = resetInput clk key (Join (inputBuffer app ++ [key]) "") app
  ∨ addKey clk key app = acceptKey clk key app
  ∨ addKey clk key app = finishPattern clk (acceptKey clk key app).
Proof.
  intros Hact. unfold addKey. rewrite Hact. simpl.
  destruct (HasPrefix _ _); simpl.
  - destruct (_ <=? _); auto.
  - destruct (inputBuffer app); auto.
Qed.

(** C4 fails in the code.  The callback of [finishPattern] only asks
    whether a session is running, not whether it is the session it was
    started in: stop within the delay after a completion, start again,
    and the callback of the old session takes the next pattern although
    the current one was never completed.  Here the second session, over
    two patterns, ends as completed after a single completion. *)
Theorem stale_advance_ends_session_early :
  let A := {| Name := "Select"; PatternText := "a" |} in
  let B := {| Name := "Build"; PatternText := "b" |} in
  let ps := [A; B] in
  let first :=
    [at_ 10 ps (EvTypedKey KeySpace);   (* first session, A is active *)
     at_ 11 ps (EvTypedRune 32);         (* the rune of the space bar, ignored *)
     at_ 20 ps (EvTypedRune 97);         (* A completed, advance pending *)
     at_ 30 ps (EvTypedKey KeyEscape);  (* stopped within the delay *)
     at_ 40 ps (EvTypedKey KeySpace);   (* second session, A is active *)
     at_ 41 ps (EvTypedRune 32)] in      (* ignored again *)
  let stale := [at_ 50 ps EvAdvance] in (* the old callback: B replaces A *)
  let rest :=
    [at_ 60 ps (EvTypedRune 98);         (* B completed *)
     at_ 70 ps EvAdvance] in            (* empty queue: session complete *)
  let restarted := run first (initApp ps emptyStats) in
  let skipped := run (first ++ stale) (initApp ps emptyStats) in
  let final := run (first ++ stale ++ rest) (initApp ps emptyStats) in
  reachable final
  ∧ (isActive restarted = true ∧ currentPattern restarted = A
     ∧ patternQueue restarted = [B] ∧ inputBuffer restarted = []
     ∧ sessionTotal restarted = 0 ∧ pendingAdvances restarted = 1%nat)
  ∧ (isActive skipped = true ∧ currentPattern skipped = B
     ∧ patternQueue skipped = [] ∧ sessionTotal skipped = 0)
  ∧ inSession final = false
  ∧ statusLabel final = StatusAllCompleted 2
  ∧ Completed <$> Sessions (stats final) = [false; true]
  ∧ PatternsTotal <$> Sessions (stats final) = [1; 1]
  ∧ PatternsPerfect <$> Sessions (stats final) = [1; 1]
  ∧ perfectedLog (first ++ stale ++ rest) (initApp ps emptyStats) [] = [B]
  ∧ startsClean (first ++ stale ++ rest) (initApp ps emptyStats) = false.
Proof.
  intros A B ps first stale rest restarted skipped final. split.
  { apply run_reachable.
    apply allEnabled_intro; [| by vm_compute].
    repeat (apply Forall_cons; split; [apply Permutation_refl |]).
    by apply Forall_nil. }
  vm_compute. repeat split; reflexivity.
Qed.

(** C10 fails in the code, through the defect of C4.  The pattern file
    holds "Select|a" and "Name|".  The first session is stopped within
    the delay after "a" was completed, the second completes "a" as well;
    the callback left over from the first session then makes the empty
    pattern the active one and leaves the queue empty.  Keys and clicks
    are ignored as C10 says, the buffer stays empty and nothing is
    recorded for the empty pattern -- and yet the session ends by
    completion while that pattern is active, when the callback of the
    second completion finds the queue empty. *)
Theorem stale_advance_completes_over_empty_pattern :
  let A := {| Name := "Select"; PatternText := "a" |} in
  let E := {| Name := "Name"; PatternText := "" |} in
  let ps := [A; E] in
  let first :=
    [at_ 10 ps (EvTypedKey KeySpace);   (* first session, A is active *)
     at_ 11 ps (EvTypedRune 32);         (* the rune of the space bar, ignored *)
     at_ 20 ps (EvTypedRune 97);         (* A completed, advance pending *)
     at_ 30 ps (EvTypedKey KeyEscape);  (* stopped within the delay *)
     at_ 40 ps (EvTypedKey KeySpace);   (* second session, A is active *)
     at_ 41 ps (EvTypedRune 32);         (* ignored again *)
     at_ 50 ps (EvTypedRune 97)] in      (* A completed, second advance pending *)
  let stale := [at_ 60 ps EvAdvance] in (* the old callback: E is active *)
  let keys :=
    [at_ 70 ps (EvTypedRune 98);
     at_ 71 ps (EvMouseDown MouseButtonPrimary true);
     at_ 72 ps (EvTypedKey KeyF3)] in   (* all ignored *)
  let last := [at_ 80 ps EvAdvance] in  (* the callback of the second session *)
  let init := initApp ps emptyStats in
  let stuck := run (first ++ stale) init in
  let final := run (first ++ stale ++ keys ++ last) init in
  Loader.loadPatternsFromLines ["Select|a"; "Name|"] = ps
  ∧ reachable final
  ∧ (isActive stuck = true ∧ inSession stuck = true ∧ currentPattern stuck = E
     ∧ patternQueue stuck = [] ∧ inputBuffer stuck = []
     ∧ pendingAdvances stuck = 1%nat)
  ∧ run (first ++ stale ++ keys) init = stuck
  ∧ (inSession final = false ∧ isActive final = false ∧ currentPattern final = E)
  ∧ statusLabel final = StatusAllCompleted 2
  ∧ Completed <$> Sessions (stats final) = [false; true]
  ∧ PatternsTotal <$> Sessions (stats final) = [1; 1]
  ∧ PatternStatsMap (stats final) !! "" = None.
Proof.
  intros A E ps first stale keys last init stuck final.
  split; [reflexivity |]. split.
  { apply run_reachable.
    apply allEnabled_intro; [| by vm_compute].
    repeat (apply Forall_cons; split; [apply Permutation_refl |]).
    by apply Forall_nil. }
  vm_compute. repeat split; reflexivity.
Qed.

(** C6 fails in the code.  [recordAttempt] reads a stored best of zero as
    no best at all, and a perfect attempt can take zero time: a pattern
    of one key starts the timer and is finished in the same handler, and
    the two readings of the clock are equal when it has not ticked in
    between.  Such an attempt stores zero, for zero is less than the
    stored best, and the next perfect attempt stores its own time,
    however long.  Here the best time of a pattern is 500 ns, then zero,
    then 900 ns: in three calls of [recordAttempt], and in three sessions
    of the trainer, whose last completion is shown as a new best. *)
Theorem bestTime_rises_after_zero_elapsed :
  let P := {| Name := "Siege"; PatternText := "z" |} in
  let s1 := recordAttempt P 500 0 1 emptyStats in
  let s2 := recordAttempt P 0 0 2 s1 in
  let s3 := recordAttempt P 900 0 3 s2 in
  let ps := [P] in
  let session1 :=
    [at_ 10 ps (EvTypedKey KeySpace);
     at_ 11 ps (EvTypedRune 32);
     spanning 1000 1500 ps (EvTypedRune 122);   (* 500 ns *)
     at_ 2000 ps EvAdvance] in
  let session2 :=
    [at_ 3000 ps (EvTypedKey KeySpace);
     at_ 3001 ps (EvTypedRune 32);
     spanning 4000 4000 ps (EvTypedRune 122);   (* the clock has not ticked *)
     at_ 5000 ps EvAdvance] in
  let session3 :=
    [at_ 6000 ps (EvTypedKey KeySpace);
     at_ 6001 ps (EvTypedRune 32);
     spanning 7000 7900 ps (EvTypedRune 122)] in (* 900 ns *)
  let init := initApp ps emptyStats in
  let final := run (session1 ++ session2 ++ session3) init in
  (bestTimeOf s1 "z" = 500 ∧ bestTimeOf s2 "z" = 0 ∧ bestTimeOf s3 "z" = 900
   ∧ PerfectCount (rowOf s3 P) = 3)
  ∧ reachable final
  ∧ bestTimeOf (stats (run session1 init)) "z" = 500
  ∧ bestTimeOf (stats (run (session1 ++ session2) init)) "z" = 0
  ∧ bestTimeOf (stats final) "z" = 900
  ∧ statusLabel final = StatusNewBest 900
  ∧ PerfectCount (rowOf (stats final) P) = 3.
Proof.
  intros P s1 s2 s3 ps session1 session2 session3 init final.
  split; [vm_compute; repeat split; reflexivity |]. split.
  { apply run_reachable.
    apply allEnabled_intro; [| by vm_compute].
    repeat (apply Forall_cons; split; [apply Permutation_refl |]).
    by apply Forall_nil. }
  vm_compute. repeat split; reflexivity.
Qed.

Lemma perfectedBy_same (app : App) : perfectedBy app app = [].
Proof. unfold perfectedBy. by destruct (isActive app). Qed.

Lemma perfectedBy_idle (app app' : App) :
  isActive app = false → perfectedBy app app' = [].
Proof. intros H. unfold perfectedBy. by rewrite H. Qed.

Lemma perfectedBy_still_active (app app' : App) :
  isActive app' = true → perfectedBy app app' = [].
Proof. intros H. unfold perfectedBy. rewrite H. by destruct (isActive app). Qed.

Lemma perfectedBy_ended (app app' : App) :
  inSession app' = false → perfectedBy app app' = [].
Proof.
  intros H. unfold perfectedBy. rewrite H.
  by destruct (isActive app), (isActive app').
Qed.

Lemma sessions_grow (l : list SessionRecord) (r : SessionRecord) : l ≠ l ++ [r].
Proof.
  intros H. apply (f_equal length) in H. rewrite length_app in H. simpl in H. lia.
Qed.

Lemma no_session_ended (app app' : App) :
  Sessions (stats app') = Sessions (stats app) →
  ¬ ∃ r, Sessions (stats app') = Sessions (stats app) ++ [r] ∧ Completed r = true.
Proof. intros Heq (r & Hr & _). rewrite Heq in Hr. by apply sessions_grow in Hr. Qed.

Lemma sessionInvariant_active_in_session (patterns : list Pattern) (app : App)
    (log : list Pattern) :
  sessionInvariant patterns app log → isActive app = true → inSession app = true.
Proof.
  intros Hinv Hact. destruct (inSession app) eqn:Hs; [done |].
  rewrite (session_idle _ _ _ Hinv Hs) in Hact. done.
Qed.

(** A key keeps the invariant, with the pattern it completes perfectly
    added to the log, and ends no session. *)
Lemma addKey_session (patterns : list Pattern) (clk : Clock) (key : string)
    (app : App) (log : list Pattern) :
  sessionInvariant patterns app log →
  sessionInvariant patterns (addKey clk key app)
    (log ++ perfectedBy app (addKey clk key app))
  ∧ Sessions (stats (addKey clk key app)) = Sessions (stats app).
Proof.
  intros Hinv.
  destruct (isActive app) eqn:Hact; cycle 1.
  { assert (addKey clk key app = app) as -> by (unfold addKey; by rewrite Hact).
    by rewrite perfectedBy_same, app_nil_r. }
  pose proof (sessionInvariant_active_in_session _ _ _ Hinv Hact) as Hs.
  destruct (session_active _ _ _ Hinv Hs Hact) as [Hpend Hperm].
  pose proof (session_patterns _ _ _ Hinv) as Hall.
  destruct (addKey_cases clk key app Hact) as [-> | [-> | [-> | ->]]].
  - by rewrite perfectedBy_same, app_nil_r.
  - rewrite perfectedBy_still_active, app_nil_r by done.
    split; [| simpl; by rewrite Sessions_recordMistake].
    split; simpl; try done; intros; congruence.
  - rewrite perfectedBy_still_active, app_nil_r by done.
    split; [| done]. split; simpl; try done; intros; congruence.
  - pose proof (finishPattern_counts clk (acceptKey clk key app) Hact)
      as (_ & Hperfect & Hretry & Hact' & Hs' & _ & _ & Hpend' & Hsess & _).
    simpl in *. split; [| done].
    split.
    + by rewrite finishPattern_allPatterns.
    + rewrite Hs', Hs. done.
    + rewrite Hact'. done.
    + intros _ _. rewrite Hpend', Hpend. split; [done |].
      unfold perfectedBy. rewrite Hact, Hact', Hs', Hs. simpl.
      destruct (Z.eqb_spec (resetCount app) 0) as [Hr | Hr].
      * destruct (Hperfect Hr) as [_ ->]. by rewrite <- app_assoc.
      * destruct (Hretry Hr) as [_ ->]. rewrite app_nil_r.
        etrans; [| exact Hperm]. apply Permutation_app_head.
        symmetry. apply Permutation_cons_append.
Qed.

(** One occurrence keeps the invariant; if it ends the session as
    completed, the queue is empty and the log is the loaded patterns. *)
Lemma occur_session (patterns : list Pattern) (o : Occurrence) (app : App)
    (log : list Pattern) :
  sessionInvariant patterns app log → enabled o app →
  (startsNow o app = true → pendingAdvances app = 0%nat) →
  let log' := if startsNow o app then [] else log ++ perfectedBy app (occur o app) in
  sessionInvariant patterns (occur o app) log'
  ∧ (endsCompleted o app →
     Permutation log' patterns ∧ patternQueue (occur o app) = []).
Proof.
  intros Hinv [Hshuffle Hadv] Hclean. unfold endsCompleted. cbv zeta.
  pose proof (session_patterns _ _ _ Hinv) as Hall. rewrite Hall in Hshuffle.
  remember (occur o app) as app' eqn:Happ'.
  assert (∀ clk key,
            app' = addKey clk key app →
            sessionInvariant patterns app' (log ++ perfectedBy app app')
            ∧ ((∃ r, Sessions (stats app') = Sessions (stats app) ++ [r]
                     ∧ Completed r = true) →
               Permutation (log ++ perfectedBy app app') patterns
               ∧ patternQueue app' = [])) as Hkey.
  { intros clk key Heq.
    destruct (addKey_session patterns clk key app log Hinv) as [Hinv' Hsess].
    rewrite <- Heq in Hinv', Hsess. split; [done |].
    intros Hend. by apply no_session_ended in Hend. }
  assert (app' = app →
          sessionInvariant patterns app' (log ++ perfectedBy app app')
          ∧ ((∃ r, Sessions (stats app') = Sessions (stats app) ++ [r]
                   ∧ Completed r = true) →
             Permutation (log ++ perfectedBy app app') patterns
             ∧ patternQueue app' = [])) as Hsame.
  { intros ->. rewrite perfectedBy_same, app_nil_r. split; [done |].
    intros Hend. by apply no_session_ended in Hend. }
  unfold startsNow in *. unfold occur in Happ'.
  destruct (event o) as [key | r | button shift |] eqn:Hev; simpl in Happ'.
  - unfold TypedKey in Happ'.
    destruct (isEscape key && inSession app) eqn:Hesc; simpl in *.
    { (* stopSession *)
      subst app'. rewrite perfectedBy_ended by done. rewrite app_nil_r. split.
      - split; simpl; done.
      - intros (r & Hr & Hc). simpl in Hr.
        apply app_inj_tail in Hr as [_ <-]. done. }
    destruct (negb (inSession app) && startsSession key) eqn:Hstart; simpl in *.
    { (* startSession *)
      apply andb_true_iff in Hstart as [Hs%negb_true_iff _].
      specialize (Hclean eq_refl).
      unfold startSession, nextPattern in Happ'. simpl in Happ'.
      destruct (shuffle o) as [|head rest] eqn:Hq; subst app'.
      - apply Permutation_nil in Hshuffle. split; [split; simpl; done |].
        intros _. by rewrite Hshuffle.
      - split; [split; simpl; done |].
        intros Hend. by apply no_session_ended in Hend. }
    destruct (isActive app) eqn:Hact; simpl in *; [| by apply Hsame].
    destruct (keyNames key) as [name|]; [| by apply Hsame].
    destruct (negb (String.eqb name "ESC") && negb (String.eqb name "Enter"));
      [| by apply Hsame].
    by eapply Hkey.
  - unfold TypedRune in Happ'.
    destruct (isActive app) eqn:Hact; simpl in *; [| by apply Hsame].
    by eapply Hkey.
  - unfold MouseDown in Happ'.
    destruct (isActive app) eqn:Hact; simpl in *; [| by apply Hsame].
    destruct button; try (by apply Hsame); by eapply Hkey.
  - (* the deferred callback *)
    specialize (Hadv eq_refl). unfold advanceAfterDelay in Happ'.
    simpl in Happ'.
    destruct (inSession app) eqn:Hs; cycle 1.
    { subst app'. rewrite perfectedBy_ended by done. rewrite app_nil_r. split.
      - pose proof (session_idle _ _ _ Hinv Hs). split; simpl; done.
      - intros Hend. by apply no_session_ended in Hend. }
    destruct (isActive app) eqn:Hact.
    { destruct (session_active _ _ _ Hinv Hs Hact) as [Hpend _]. lia. }
    destruct (session_waiting _ _ _ Hinv Hs Hact) as [Hpend Hperm].
    rewrite perfectedBy_idle, app_nil_r by done.
    unfold nextPattern in Happ'. simpl in Happ'. rewrite ?Hs in Happ'.
    simpl in Happ'.
    destruct (patternQueue app) as [|head rest] eqn:Hq; subst app'.
    + rewrite app_nil_r in Hperm. split; [split; simpl; done |]. done.
    + split.
      * split; simpl; try done. intros _ _. by rewrite Hpend.
      * intros Hend. by apply no_session_ended in Hend.
Qed.

Lemma perfectedLog_snoc (os : list Occurrence) (o : Occurrence) (app : App)
    (log : list Pattern) :
  perfectedLog (os ++ [o]) app log
  = if startsNow o (run os app) then []
    else perfectedLog os app log
         ++ perfectedBy (run os app) (occur o (run os app)).
Proof.
  revert app log. induction os as [|o' os IH]; intros app log; [done |].
  change ((o' :: os) ++ [o]) with (o' :: (os ++ [o])).
  cbn [perfectedLog]. by rewrite IH, run_cons.
Qed.

Lemma allEnabled_snoc (os : list Occurrence) (o : Occurrence) (app : App) :
  allEnabled (os ++ [o]) app ↔ allEnabled os app ∧ enabled o (run os app).
Proof.
  revert app. induction os as [|o' os IH]; intros app.
  - change (run [] app) with app. simpl. tauto.
  - change ((o' :: os) ++ [o]) with (o' :: (os ++ [o])).
    cbn [allEnabled]. rewrite IH, run_cons. tauto.
Qed.

Lemma startsClean_snoc (os : list Occurrence) (o : Occurrence) (app : App) :
  startsClean (os ++ [o]) app = true ↔
  startsClean os app = true
  ∧ (startsNow o (run os app) = true → pendingAdvances (run os app) = 0%nat).
Proof.
  revert app. induction os as [|o' os IH]; intros app.
  - change (run [] app) with app. simpl. rewrite andb_true_r.
    destruct (startsNow o app); simpl.
    + rewrite Nat.eqb_eq. tauto.
    + split; [| done]. intros _. split; [done |]. done.
  - change ((o' :: os) ++ [o]) with (o' :: (os ++ [o])).
    cbn [startsClean]. rewrite !andb_true_iff, IH, run_cons. tauto.
Qed.

(** The invariant holds along every run in which no session starts over
    a sleeping goroutine. *)
Lemma run_session (patterns : list Pattern) (st : AllStats) (os : list Occurrence) :
  allEnabled os (initApp patterns st) →
  startsClean os (initApp patterns st) = true →
  sessionInvariant patterns (run os (initApp patterns st))
    (perfectedLog os (initApp patterns st) []).
Proof.
  induction os as [|o os IH] using rev_ind.
  - intros _ _. split; simpl; done.
  - intros [Hen Ho]%allEnabled_snoc [Hcl Hstart]%startsClean_snoc.
    rewrite run_snoc, perfectedLog_snoc.
    by apply occur_session; [apply IH | |].
Qed.

(** X11, the rest of C4 where the code keeps it: in a run in which no session
    starts while the callback of an earlier completion is still pending, a
    session ends as completed only on an empty queue, and by then the
    patterns completed with no reset since it started are the loaded
    patterns, each of them once. *)
Theorem session_completes_after_all_perfect (patterns : list Pattern)
    (st : AllStats) (os : list Occurrence) (o : Occurrence) :
  allEnabled (os ++ [o]) (initApp patterns st) →
  startsClean (os ++ [o]) (initApp patterns st) = true →
  endsCompleted o (run os (initApp patterns st)) →
  Permutation (perfectedLog (os ++ [o]) (initApp patterns st) []) patterns
  ∧ patternQueue (run (os ++ [o]) (initApp patterns st)) = [].
Proof.
  intros [Hen Ho]%allEnabled_snoc [Hcl Hstart]%startsClean_snoc Hend.
  rewrite run_snoc, perfectedLog_snoc.
  pose proof (run_session patterns st os Hen Hcl) as Hinv.
  destruct (occur_session patterns o _ _ Hinv Ho Hstart) as [_ H].
  by apply H.
Qed.

Lemma session_completes_after_all_perfect_witness :
  let A := {| Name := "Select"; PatternText := "a" |} in
  let B := {| Name := "Build"; PatternText := "b" |} in
  let os :=
    [at_ 10 [A; B] (EvTypedKey KeySpace); at_ 20 [A; B] (EvTypedRune 97);
     at_ 30 [A; B] EvAdvance; at_ 40 [A; B] (EvTypedRune 98)] in
  let o := at_ 50 [A; B] EvAdvance in
  Permutation (perfectedLog (os ++ [o]) (initApp [A; B] emptyStats) []) [A; B]
  ∧ patternQueue (run (os ++ [o]) (initApp [A; B] emptyStats)) = [].
Proof.
  intros A B os o.
  apply (session_completes_after_all_perfect [A; B] emptyStats os o).
  - apply allEnabled_intro; [| by vm_compute].
    repeat (apply Forall_cons; split; [apply Permutation_refl |]).
    by apply Forall_nil.
  - by vm_compute.
  - eexists. split; [vm_compute; reflexivity | reflexivity].
Defined.

End SessionClaims.

(** * The statistics beyond the claims *)

Section StatsCoverage.

Lemma keepLast100_length (ms : list Mistake) :
  length (keepLast100 ms) = Nat.min (length ms) 100.
Proof.
  unfold keepLast100.
  destruct (Z.ltb_spec 100 (Z.of_nat (length ms))).
  - rewrite length_drop. lia.
  - lia.
Qed.

Lemma keepLast100_suffix (ms : list Mistake) : keepLast100 ms `suffix_of` ms.
Proof.
  unfold keepLast100. destruct (100 <? Z.of_nat (length ms)); [| done].
  apply suffix_drop.
Qed.

(** X1: the mistakes of a pattern are a ring of 100.  After
    [recordMistake] the list has one entry more, up to 100; it is the end
    of the old list with the new mistake last, in the old order; nothing is
    dropped below 100 entries, and from 100 on the oldest go. *)
Theorem recordMistake_ring (pattern : Pattern) (position : Z)
    (expected actual : string) (now : Time) (s : AllStats) :
  let before := mistakesOf s (PatternText pattern) in
  let m := {| Position := position; Expected := expected; Actual := actual;
              Timestamp := now |} in
  let after :=
    mistakesOf (recordMistake pattern position expected actual now s)
      (PatternText pattern) in
  length after = Nat.min (length before + 1) 100
  ∧ after `suffix_of` (before ++ [m])
  ∧ last after = Some m
  ∧ ((length before < 100)%nat → after = before ++ [m])
  ∧ ((100 ≤ length before)%nat →
     after = drop (length before - 99) before ++ [m]).
Proof.
  intros before m after. subst after.
  rewrite mistakesOf_recordMistake. fold before m.
  split; [by rewrite keepLast100_length, length_app |].
  split; [apply keepLast100_suffix |].
  split.
  { destruct (keepLast100_snoc before m) as [rest ->]. apply last_snoc. }
  unfold keepLast100. rewrite length_app. simpl. split.
  - intros Hlt. rewrite (proj2 (Z.ltb_ge _ _)) by lia. done.
  - intros Hge. rewrite (proj2 (Z.ltb_lt _ _)) by lia.
    rewrite drop_app_le by lia. do 2 f_equal. lia.
Qed.

Lemma recordMistake_ring_witness :
  let p := {| Name := "Army"; PatternText := "1aLC" |} in
  let s1 := recordMistake p 2 "LC" "RC" 7 emptyStats in
  mistakesOf (recordMistake p 0 "1" "2" 9 s1) "1aLC"
  = mistakesOf s1 "1aLC"
    ++ [ {| Position := 0; Expected := "1"; Actual := "2"; Timestamp := 9 |} ].
Proof.
  intros p s1.
  destruct (recordMistake_ring p 0 "1" "2" 9 s1) as (_ & _ & _ & Hbelow & _).
  apply Hbelow. vm_compute. lia.
Defined.

Lemma mistakesOf_recordAttempt (pattern : Pattern) (elapsed : Duration)
    (resets : Z) (now : Time) (s : AllStats) (text : string) :
  mistakesOf (recordAttempt pattern elapsed resets now s) text = mistakesOf s text.
Proof.
  destruct (decide (text = PatternText pattern)) as [-> | Hne].
  - unfold mistakesOf at 1. rewrite recordAttempt_lookup. simpl.
    rewrite mistakesOf_rowOf. unfold attemptOn. by destruct (resets =? 0).
  - unfold mistakesOf. by rewrite recordAttempt_lookup_ne.
Qed.

Lemma recordMistake_lookup_ne (pattern : Pattern) (position : Z)
    (expected actual : string) (now : Time) (s : AllStats) (text : string) :
  text ≠ PatternText pattern →
  PatternStatsMap (recordMistake pattern position expected actual now s) !! text
  = PatternStatsMap s !! text.
Proof.
  intros Hne. unfold recordMistake, getPatternStats.
  destruct (PatternStatsMap s !! PatternText pattern); simpl;
    rewrite !lookup_insert_ne by done; done.
Qed.

(** Two patterns of one text get rows with the same numbers. *)
Lemma tallyOf_rowOf_text (s : AllStats) (p q : Pattern) :
  PatternText p = PatternText q → tallyOf (rowOf s p) = tallyOf (rowOf s q).
Proof.
  intros Heq. rewrite !rowOf_lookup, Heq.
  by destruct (PatternStatsMap s !! PatternText q).
Qed.

Lemma rowOf_other_text (s s' : AllStats) (p : Pattern) :
  PatternStatsMap s' !! PatternText p = PatternStatsMap s !! PatternText p →
  rowOf s' p = rowOf s p.
Proof. intros H. by rewrite !rowOf_lookup, H. Qed.

(** X2: attempts and mistakes are kept apart.  [recordAttempt] changes no
    list of mistakes, no row of another pattern text and nothing of the
    sessions; [recordMistake] changes no number of any row, no row of
    another pattern text and nothing of the sessions. *)
Theorem attempts_and_mistakes_apart (s : AllStats) (pattern : Pattern) :
  (∀ elapsed resets now,
     let s' := recordAttempt pattern elapsed resets now s in
     (∀ text, mistakesOf s' text = mistakesOf s text)
     ∧ (∀ text, text ≠ PatternText pattern →
                PatternStatsMap s' !! text = PatternStatsMap s !! text)
     ∧ Sessions s' = Sessions s ∧ TotalSessions s' = TotalSessions s
     ∧ TotalTrainTime s' = TotalTrainTime s)
  ∧ (∀ position expected actual now,
       let s' := recordMistake pattern position expected actual now s in
       (∀ q, tallyOf (rowOf s' q) = tallyOf (rowOf s q))
       ∧ (∀ text, text ≠ PatternText pattern →
                  PatternStatsMap s' !! text = PatternStatsMap s !! text)
       ∧ Sessions s' = Sessions s ∧ TotalSessions s' = TotalSessions s
       ∧ TotalTrainTime s' = TotalTrainTime s).
Proof.
  split.
  - intros elapsed resets now s'. subst s'.
    split; [intros text; apply mistakesOf_recordAttempt |].
    split; [intros text; apply recordAttempt_lookup_ne |].
    unfold recordAttempt, getPatternStats.
    by destruct (PatternStatsMap s !! PatternText pattern).
  - intros position expected actual now s'. subst s'.
    split; [| split; [intros text; apply recordMistake_lookup_ne |]].
    + intros q. destruct (decide (PatternText q = PatternText pattern)) as [Heq | Hne].
      * rewrite (rowOf_lookup q (recordMistake _ _ _ _ _ _)), Heq.
        rewrite recordMistake_lookup.
        transitivity (tallyOf (rowOf s pattern)); [done |].
        symmetry. by apply tallyOf_rowOf_text.
      * f_equal. apply rowOf_other_text. by apply recordMistake_lookup_ne.
    + unfold recordMistake, getPatternStats.
      by destruct (PatternStatsMap s !! PatternText pattern).
Qed.

Lemma rowOf_recordAttempt_text (p q : Pattern) (elapsed : Duration) (resets : Z)
    (now : Time) (s : AllStats) :
  PatternText q = PatternText p →
  rowOf (recordAttempt p elapsed resets now s) q
  = attemptOn (rowOf s p) elapsed resets now.
Proof.
  intros Heq. rewrite (rowOf_lookup q (recordAttempt _ _ _ _ _)), Heq.
  by rewrite recordAttempt_lookup.
Qed.

Lemma attemptsOn_snoc (text : string) (attempts : list Attempt) (a : Attempt) :
  attemptsOn text (attempts ++ [a])
  = attemptsOn text attempts
    ++ (if String.eqb (PatternText (attemptPattern a)) text then [a] else []).
Proof. unfold attemptsOn. by rewrite List.filter_app. Qed.

Lemma attemptsOn_length (text : string) (attempts : list Attempt) :
  (length (attemptsOn text attempts) ≤ length attempts)%nat.
Proof.
  unfold attemptsOn. induction attempts as [|a attempts IH]; simpl; [lia |].
  destruct (String.eqb _ _); simpl; lia.
Qed.

(** X3: on a pattern that had no row, the row counts exactly.  After any
    list of fewer than 2^63 attempts, the total attempts of the pattern's
    row are the attempts made on its text, the perfect count those among
    them without a reset, and the counters are ordered: 0 <= current
    streak <= best streak <= perfect count <= total attempts. *)
Theorem attempts_counted (s : AllStats) (p : Pattern) (attempts : list Attempt) :
  PatternStatsMap s !! PatternText p = None →
  Z.of_nat (length attempts) < 2 ^ 63 →
  let row := rowOf (recordAttempts attempts s) p in
  TotalAttempts row = Z.of_nat (length (attemptsOn (PatternText p) attempts))
  ∧ PerfectCount row = Z.of_nat (length (perfectOn (PatternText p) attempts))
  ∧ countersOrdered row.
Proof.
  intros Hnone. induction attempts as [|a attempts IH] using rev_ind.
  - intros _. simpl. rewrite rowOf_lookup. simpl. rewrite Hnone.
    unfold countersOrdered. simpl. lia.
  - rewrite length_app. simpl. intros Hlen. cbv zeta in IH |- *.
    destruct IH as (Hta & Hpc & H0 & H1 & H2 & H3); [lia |].
    pose proof (attemptsOn_length (PatternText p) attempts) as Hle.
    rewrite recordAttempts_snoc. unfold perfectOn in *.
    rewrite attemptsOn_snoc, List.filter_app, !length_app.
    destruct (String.eqb_spec (PatternText (attemptPattern a)) (PatternText p))
      as [Heq | Hne].
    + rewrite rowOf_recordAttempt_text by done.
      pose proof (tallyOf_rowOf_text (recordAttempts attempts s) _ _ Heq) as Ht.
      unfold tallyOf in Ht.
      injection Ht as Ea Ep _ _ _ Ec Eb _.
      set (prev := rowOf (recordAttempts attempts s) (attemptPattern a)) in *.
      unfold attemptOn, countersOrdered.
      destruct (Z.eqb_spec (attemptResets a) 0) as [Hr | Hr]; simpl;
        rewrite ?(proj2 (Z.eqb_eq _ _) Hr), ?(proj2 (Z.eqb_neq _ _) Hr); simpl;
        rewrite ?incr_small by lia.
      * destruct (Z.ltb_spec (BestStreak prev) (CurrentStreak prev + 1)); lia.
      * lia.
    + rewrite (rowOf_other_text (recordAttempts attempts s));
        [| apply recordAttempt_lookup_ne; congruence].
      simpl. rewrite !Nat.add_0_r. done.
Qed.

Lemma attempts_counted_witness :
  let p := {| Name := "Tank Siege"; PatternText := "1z4z" |} in
  let q := {| Name := "Rally"; PatternText := "F4LC" |} in
  let attempts :=
    [ {| attemptPattern := p; attemptElapsed := 700; attemptResets := 0;
         attemptTime := 2 |};
      {| attemptPattern := q; attemptElapsed := 800; attemptResets := 0;
         attemptTime := 3 |};
      {| attemptPattern := p; attemptElapsed := 100; attemptResets := 2;
         attemptTime := 4 |} ] in
  TotalAttempts (rowOf (recordAttempts attempts emptyStats) p) = 2
  ∧ PerfectCount (rowOf (recordAttempts attempts emptyStats) p) = 1.
Proof.
  intros p q attempts.
  destruct (attempts_counted emptyStats p attempts eq_refl)
    as (Hta & Hpc & _); [reflexivity |].
  split; [exact Hta | exact Hpc].
Defined.

(** X4: the statistics go by the pattern text, not by the name.  Two
    patterns of one text share a row: an attempt on each lands in the same
    row, which keeps the names it had (those of the first pattern when the
    row is new), and the map gains no key but that text. *)
Theorem rows_keyed_by_text (s : AllStats) (p q : Pattern)
    (e1 e2 : Duration) (r1 r2 : Z) (n1 n2 : Time) :
  PatternText p = PatternText q →
  let s2 := recordAttempt q e2 r2 n2 (recordAttempt p e1 r1 n1 s) in
  let row := attemptOn (attemptOn (rowOf s p) e1 r1 n1) e2 r2 n2 in
  PatternStatsMap s2 !! PatternText p = Some row
  ∧ StatsName row = StatsName (rowOf s p)
  ∧ StatsPattern row = StatsPattern (rowOf s p)
  ∧ (PatternStatsMap s !! PatternText p = None → StatsName row = Name p)
  ∧ dom (PatternStatsMap s2) = {[PatternText p]} ∪ dom (PatternStatsMap s).
Proof.
  intros Heq s2 row. subst s2 row.
  split.
  { rewrite Heq, recordAttempt_lookup. f_equal. f_equal.
    by apply rowOf_recordAttempt_text. }
  assert (∀ ps e r n, StatsName (attemptOn ps e r n) = StatsName ps
                      ∧ StatsPattern (attemptOn ps e r n) = StatsPattern ps) as Hnames.
  { intros ps e r n. unfold attemptOn. by destruct (r =? 0). }
  split; [by rewrite !(proj1 (Hnames _ _ _ _)) |].
  split; [by rewrite !(proj2 (Hnames _ _ _ _)) |].
  split.
  { intros Hnone. rewrite !(proj1 (Hnames _ _ _ _)), rowOf_lookup, Hnone. done. }
  assert (∀ x e r n t, dom (PatternStatsMap (recordAttempt x e r n t))
                       = {[PatternText x]} ∪ dom (PatternStatsMap t)) as Hdom.
  { intros x e r n t. unfold recordAttempt, getPatternStats.
    destruct (PatternStatsMap t !! PatternText x) eqn:Hx; simpl;
      rewrite !dom_insert_L; [done |].
    by rewrite union_assoc_L, union_idemp_L. }
  by rewrite !Hdom, Heq, union_assoc_L, union_idemp_L.
Qed.

Lemma rows_keyed_by_text_witness :
  let p := {| Name := "Tank Siege"; PatternText := "1z4z" |} in
  let q := {| Name := "Siege again"; PatternText := "1z4z" |} in
  let s2 := recordAttempt q 30 0 2 (recordAttempt p 40 0 1 emptyStats) in
  (StatsName <$> PatternStatsMap s2 !! "1z4z") = Some "Tank Siege"
  ∧ (TotalAttempts <$> PatternStatsMap s2 !! "1z4z") = Some 2
  ∧ size (PatternStatsMap s2) = 1%nat.
Proof.
  intros p q s2.
  destruct (rows_keyed_by_text emptyStats p q 40 30 0 0 1 2 eq_refl)
    as (Hrow & Hname & _).
  fold s2 in Hrow. change (PatternText p) with "1z4z" in Hrow.
  rewrite Hrow. repeat split; reflexivity.
Defined.

Lemma attempts_and_mistakes_apart_witness :
  let p := {| Name := "Army"; PatternText := "1aLC" |} in
  let q := {| Name := "Siege"; PatternText := "1z4z" |} in
  let s := recordMistake q 1 "z" "x" 5 (recordAttempt q 40 0 3 emptyStats) in
  PatternStatsMap (recordAttempt p 90 1 8 s) !! "1z4z" = PatternStatsMap s !! "1z4z"
  ∧ tallyOf (rowOf (recordMistake q 3 "z" "y" 9 s) q) = tallyOf (rowOf s q).
Proof.
  intros p q s. split.
  - destruct (attempts_and_mistakes_apart s p) as [Hattempt _].
    destruct (Hattempt 90 1 8) as (_ & Hother & _).
    apply Hother. discriminate.
  - destruct (attempts_and_mistakes_apart s q) as [_ Hmistake].
    destruct (Hmistake 3 "z" "y" 9) as (Htally & _).
    apply Htally.
Defined.

End StatsCoverage.

(** * The event handlers beyond the claims *)

Section TrainerCoverage.

(** What one occurrence amounts to. *)
Lemma occur_shape (o : Occurrence) (app : App) :
  occur o app = app
  ∨ (inSession app = true ∧ event o = EvTypedKey KeyEscape
     ∧ occur o app = stopSession (clock o) app)
  ∨ (inSession app = false ∧ startsNow o app = true
     ∧ occur o app = startSession (clock o) (shuffle o) app)
  ∨ (isActive app = true ∧ isInput (event o) = true
     ∧ ∃ key, key ≠ "" ∧ occur o app = addKey (clock o) key app)
  ∨ (event o = EvAdvance ∧ occur o app = advanceAfterDelay (clock o) app).
Proof.
  unfold occur, startsNow.
  destruct (event o) as [key | r | button shift |] eqn:Hev; simpl.
  - unfold TypedKey.
    destruct (isEscape key && inSession app) eqn:Hesc; simpl.
    { apply andb_true_iff in Hesc as [Hk Hs]. right. left.
      destruct key; try done. }
    destruct (negb (inSession app) && startsSession key) eqn:Hstart; simpl.
    { apply andb_true_iff in Hstart as [Hs%negb_true_iff Hk].
      right. right. left. rewrite Hs. by destruct key. }
    destruct (isActive app) eqn:Hact; simpl; [| by left].
    destruct (keyNames key) as [name|] eqn:Hname; [| by left].
    destruct (negb (String.eqb name "ESC") && negb (String.eqb name "Enter"));
      [| by left].
    right. right. right. left. split; [done |]. split; [done |].
    exists name. split; [by eapply keyNames_nonempty | done].
  - unfold TypedRune. destruct (isActive app) eqn:Hact; simpl; [| by left].
    right. right. right. left. split; [done |]. split; [done |].
    exists (stringOfRune r). split; [apply stringOfRune_nonempty | done].
  - unfold MouseDown. destruct (isActive app) eqn:Hact; simpl; [| by left].
    destruct button; try (by left);
      right; right; right; left; (split; [done |]); (split; [done |]);
      eexists; (split; [| reflexivity]); by destruct shift.
  - right. right. right. right. done.
Qed.

(** X5: without an active pattern the keyboard and the mouse do nothing.
    A key, rune or click leaves the whole state as it is, unless it is the
    key that starts a session outside one or Escape inside one; in
    particular Escape outside a session does nothing. *)
Theorem idle_input_ignored (o : Occurrence) (app : App) :
  isActive app = false →
  isInput (event o) = true →
  startsNow o app = false →
  ¬ (event o = EvTypedKey KeyEscape ∧ inSession app = true) →
  occur o app = app.
Proof.
  intros Hact Hin Hstart Hesc.
  destruct (occur_shape o app)
    as [H | [(Hs & Hev & _) | [(_ & Hst & _) | [(Ha & _) | (Hev & _)]]]].
  - done.
  - by destruct Hesc.
  - congruence.
  - congruence.
  - rewrite Hev in Hin. done.
Qed.

Lemma idle_input_ignored_witness :
  let app := initApp defaultPatterns emptyStats in
  occur (at_ 10 defaultPatterns (EvTypedKey KeyEscape)) app = app
  ∧ occur (at_ 20 defaultPatterns (EvMouseDown MouseButtonPrimary true)) app = app.
Proof.
  intros app. split.
  - apply idle_input_ignored; try reflexivity. intros [_ H]. discriminate.
  - apply idle_input_ignored; try reflexivity. intros [H _]. discriminate.
Defined.

(** Outside a session and without an active pattern, an occurrence that is
    no start key changes nothing but the count of pending advances. *)
Lemma stopped_step (o : Occurrence) (app : App) :
  inSession app = false → isActive app = false →
  (∀ key, event o = EvTypedKey key → startsSession key = false) →
  stats (occur o app) = stats app
  ∧ inSession (occur o app) = false ∧ isActive (occur o app) = false
  ∧ currentPattern (occur o app) = currentPattern app
  ∧ patternQueue (occur o app) = patternQueue app
  ∧ inputBuffer (occur o app) = inputBuffer app
  ∧ sessionTotal (occur o app) = sessionTotal app
  ∧ sessionPerfect (occur o app) = sessionPerfect app.
Proof.
  intros Hs Hact Hkey.
  destruct (occur_shape o app)
    as [-> | [(Hs' & _) | [(_ & Hst & _) | [(Ha & _) | (Hev & ->)]]]].
  - done.
  - congruence.
  - unfold startsNow in Hst. destruct (event o) as [key| | |] eqn:Hev; try done.
    rewrite (Hkey key eq_refl), andb_false_r in Hst. done.
  - congruence.
  - unfold advanceAfterDelay. simpl. by rewrite Hs.
Qed.

Lemma stopped_run (os : list Occurrence) (app : App) :
  inSession app = false → isActive app = false →
  Forall (fun o => ∀ key, event o = EvTypedKey key → startsSession key = false) os →
  stats (run os app) = stats app
  ∧ isActive (run os app) = false ∧ inSession (run os app) = false
  ∧ sessionTotal (run os app) = sessionTotal app
  ∧ sessionPerfect (run os app) = sessionPerfect app.
Proof.
  revert app. induction os as [|o os IH]; intros app Hs Hact Hos; [done |].
  apply Forall_cons in Hos as [Ho Hos].
  destruct (stopped_step o app Hs Hact Ho)
    as (Hst & Hs' & Hact' & _ & _ & _ & Htot & Hperf).
  rewrite run_cons.
  destruct (IH (occur o app) Hs' Hact' Hos) as (-> & -> & -> & -> & ->).
  done.
Qed.

(** X6: Escape in a session throws the pattern in progress away.  The
    session record it appends carries the counters as they stand and is
    not completed; no row of any pattern changes, so the unfinished
    pattern is no attempt.  From then on, whatever happens short of a
    start key -- the callback of a completion still pending included --
    changes neither the statistics nor the stopped engine. *)
Theorem stop_discards_progress (o : Occurrence) (app : App) :
  inSession app = true → event o = EvTypedKey KeyEscape →
  let app' := occur o app in
  PatternStatsMap (stats app') = PatternStatsMap (stats app)
  ∧ Sessions (stats app')
    = Sessions (stats app)
      ++ [ {| StartTime := sessionStart app; EndTime := nowEnd (clock o);
              SessionDuration := Sub (nowEnd (clock o)) (sessionStart app);
              PatternsTotal := sessionTotal app;
              PatternsPerfect := sessionPerfect app; Completed := false |} ]
  ∧ isActive app' = false ∧ inSession app' = false
  ∧ ∀ os,
      Forall (fun o' => ∀ key, event o' = EvTypedKey key → startsSession key = false) os →
      stats (run os app') = stats app'
      ∧ isActive (run os app') = false ∧ inSession (run os app') = false
      ∧ sessionTotal (run os app') = sessionTotal app
      ∧ sessionPerfect (run os app') = sessionPerfect app.
Proof.
  intros Hs Hev app'.
  assert (app' = stopSession (clock o) app) as ->.
  { subst app'. unfold occur. rewrite Hev. simpl. unfold TypedKey.
    simpl. by rewrite Hs. }
  do 4 (split; [done |]).
  intros os Hos.
  by destruct (stopped_run os (stopSession (clock o) app) eq_refl eq_refl Hos)
    as (-> & -> & -> & -> & ->).
Qed.

Lemma stop_discards_progress_witness :
  let p := {| Name := "Army"; PatternText := "1aLC" |} in
  let app :=
    run [at_ 10 [p] (EvTypedKey KeySpace); at_ 20 [p] (EvTypedRune 49)]
      (initApp [p] emptyStats) in
  let app' := occur (at_ 30 [p] (EvTypedKey KeyEscape)) app in
  inputBuffer app = ["1"]
  ∧ PatternStatsMap (stats app') = PatternStatsMap (stats app)
  ∧ stats (run [at_ 40 [p] (EvTypedRune 97); at_ 50 [p] EvAdvance] app') = stats app'.
Proof.
  intros p app app'.
  destruct (stop_discards_progress (at_ 30 [p] (EvTypedKey KeyEscape)) app
              eq_refl eq_refl) as (Hrows & _ & _ & _ & Hafter).
  split; [reflexivity |]. split; [exact Hrows |].
  apply Hafter. repeat (apply Forall_cons; split; [by intros key [=] |]).
  by apply Forall_nil.
Defined.

Lemma nextPattern_sessions (clk : Clock) (app : App) :
  (stats (nextPattern clk app) = stats app
   ∧ sessionTotal (nextPattern clk app) = sessionTotal app
   ∧ sessionPerfect (nextPattern clk app) = sessionPerfect app)
  ∧ (inSession app = true → patternQueue app = [] → False)
  ∨ nextPattern clk app = sessionComplete clk app.
Proof.
  unfold nextPattern. destruct (inSession app) eqn:Hs; simpl.
  - destruct (patternQueue app); [by right | by left].
  - left. split; [done |]. intros; congruence.
Qed.

Lemma save_rows (now : Time) (s : AllStats) :
  PatternStatsMap (save now s) = PatternStatsMap s.
Proof. done. Qed.

Lemma recordAttempt_keeps_rows (pattern : Pattern) (elapsed : Duration)
    (resets : Z) (now : Time) (s : AllStats) (text : string) :
  is_Some (PatternStatsMap s !! text) →
  is_Some (PatternStatsMap (recordAttempt pattern elapsed resets now s) !! text).
Proof.
  intros H. destruct (decide (text = PatternText pattern)) as [-> | Hne].
  - rewrite recordAttempt_lookup. eauto.
  - by rewrite recordAttempt_lookup_ne.
Qed.

Lemma recordMistake_keeps_rows (pattern : Pattern) (position : Z)
    (expected actual : string) (now : Time) (s : AllStats) (text : string) :
  is_Some (PatternStatsMap s !! text) →
  is_Some (PatternStatsMap (recordMistake pattern position expected actual now s)
             !! text).
Proof.
  intros H. destruct (decide (text = PatternText pattern)) as [-> | Hne].
  - rewrite recordMistake_lookup. eauto.
  - by rewrite recordMistake_lookup_ne.
Qed.

(** What one occurrence does to the history and to the counters of the
    session. *)
Lemma occur_history (o : Occurrence) (app : App) :
  (Sessions (stats (occur o app)) = Sessions (stats app)
   ∨ ∃ r, Sessions (stats (occur o app)) = Sessions (stats app) ++ [r])
  ∧ (∀ text, is_Some (PatternStatsMap (stats app) !! text) →
             is_Some (PatternStatsMap (stats (occur o app)) !! text))
  ∧ ((sessionTotal (occur o app) = sessionTotal app
      ∧ sessionPerfect (occur o app) = sessionPerfect app)
     ∨ (sessionTotal (occur o app) = 0 ∧ sessionPerfect (occur o app) = 0)
     ∨ (sessionTotal (occur o app) = incr (sessionTotal app)
        ∧ (sessionPerfect (occur o app) = sessionPerfect app
           ∨ sessionPerfect (occur o app) = incr (sessionPerfect app)))).
Proof.
  destruct (occur_shape o app)
    as [-> | [(_ & _ & ->) | [(_ & _ & ->) | [(Ha & _ & key & _ & ->) | (_ & ->)]]]].
  - split; [by left |]. split; [done | by left].
  - split; [right; by eexists |]. split; [done | by left].
  - unfold startSession.
    match goal with |- context [nextPattern ?c ?a] =>
      destruct (nextPattern_sessions c a) as [[(-> & -> & ->) _] | ->] end; simpl.
    + split; [by left |]. split; [done |]. right. by left.
    + split; [right; by eexists |]. split; [done |]. right. by left.
  - destruct (addKey_cases (clock o) key app Ha) as [-> | [-> | [-> | ->]]].
    + split; [by left |]. split; [done | by left].
    + simpl. rewrite Sessions_recordMistake.
      split; [by left |].
      split; [intros text; apply recordMistake_keeps_rows | by left].
    + split; [by left |]. split; [done | by left].
    + pose proof (finishPattern_counts (clock o) (acceptKey (clock o) key app) Ha)
        as (Htot & Hperfect & Hretry & _ & _ & _ & _ & _ & Hsess & Hstats).
      simpl in *. rewrite Hsess, Hstats, Htot.
      split; [by left |].
      split; [intros text; apply recordAttempt_keeps_rows |].
      right. right. split; [done |].
      destruct (decide (resetCount app = 0)) as [Hr | Hr].
      * right. by apply Hperfect.
      * left. by apply Hretry.
  - unfold advanceAfterDelay. simpl.
    destruct (inSession app) eqn:Hs; [| split; [by left |]; split; [done | by left]].
    match goal with |- context [nextPattern ?c ?a] =>
      destruct (nextPattern_sessions c a) as [[(-> & -> & ->) _] | ->] end; simpl.
    + split; [by left |]. split; [done | by left].
    + split; [right; by eexists |]. split; [done | by left].
Qed.

Lemma run_allPatterns (os : list Occurrence) (app : App) :
  allPatterns (run os app) = allPatterns app.
Proof.
  revert app. induction os as [|o os IH]; intros app; [done |].
  by rewrite run_cons, IH, occur_allPatterns.
Qed.

(** X7: nothing of the history is ever lost.  Along any course of events
    the loaded patterns stay the same, the list of session records only
    grows at its end, by at most one record an event, and no row of the
    pattern statistics disappears. *)
Theorem run_keeps_history (os : list Occurrence) (app : App) :
  allPatterns (run os app) = allPatterns app
  ∧ Sessions (stats app) `prefix_of` Sessions (stats (run os app))
  ∧ (length (Sessions (stats (run os app)))
     ≤ length (Sessions (stats app)) + length os)%nat
  ∧ dom (PatternStatsMap (stats app)) ⊆ dom (PatternStatsMap (stats (run os app))).
Proof.
  split; [apply run_allPatterns |].
  revert app. induction os as [|o os IH]; intros app.
  - simpl. split; [done |]. split; [lia | done].
  - rewrite run_cons. destruct (IH (occur o app)) as (Hpre & Hlen & Hdom).
    destruct (occur_history o app) as (Hsess & Hrows & _).
    split; [| split].
    + etrans; [| exact Hpre].
      destruct Hsess as [-> | [r ->]]; [done | by apply prefix_app_r].
    + simpl. destruct Hsess as [Heq | [r Heq]]; rewrite Heq in Hlen;
        rewrite ?length_app in Hlen; simpl in Hlen; lia.
    + etrans; [| exact Hdom].
      intros text Hin. apply elem_of_dom. apply Hrows. by apply elem_of_dom.
Qed.

Lemma session_counters_bounded_aux (patterns : list Pattern) (st : AllStats)
    (os : list Occurrence) :
  Z.of_nat (length os) < 2 ^ 63 →
  0 ≤ sessionPerfect (run os (initApp patterns st))
  ∧ sessionPerfect (run os (initApp patterns st))
    ≤ sessionTotal (run os (initApp patterns st))
  ∧ sessionTotal (run os (initApp patterns st)) ≤ Z.of_nat (length os).
Proof.
  induction os as [|o os IH] using rev_ind.
  - intros _. simpl. lia.
  - rewrite length_app. simpl. intros Hlen.
    rewrite run_snoc.
    destruct IH as (H0 & H1 & H2); [lia |].
    destruct (occur_history o (run os (initApp patterns st)))
      as (_ & _ & [[-> ->] | [[-> ->] | [-> [-> | ->]]]]);
      rewrite ?incr_small by lia; lia.
Qed.

(** X8: the counters of a session stay in order.  In a run of fewer than
    2^63 events, the perfect completions of the session never exceed its
    completions, which never exceed the number of events so far, and
    neither is negative. *)
Theorem session_counters_bounded (patterns : list Pattern) (st : AllStats)
    (os : list Occurrence) :
  Z.of_nat (length os) < 2 ^ 63 →
  let app := run os (initApp patterns st) in
  0 ≤ sessionPerfect app ∧ sessionPerfect app ≤ sessionTotal app
  ∧ sessionTotal app ≤ Z.of_nat (length os).
Proof. apply session_counters_bounded_aux. Qed.

Lemma session_counters_bounded_witness :
  let p := {| Name := "Siege"; PatternText := "z" |} in
  let app :=
    run [at_ 10 [p] (EvTypedKey KeySpace); at_ 20 [p] (EvTypedRune 122)]
      (initApp [p] emptyStats) in
  0 ≤ sessionPerfect app ∧ sessionPerfect app ≤ sessionTotal app
  ∧ sessionTotal app ≤ 2.
Proof.
  intros p app.
  apply (session_counters_bounded [p] emptyStats
           [at_ 10 [p] (EvTypedKey KeySpace); at_ 20 [p] (EvTypedRune 122)]).
  reflexivity.
Defined.

Lemma rowOf_save (now : Time) (s : AllStats) (p : Pattern) :
  rowOf (save now s) p = rowOf s p.
Proof. by rewrite !rowOf_lookup. Qed.

Lemma typeKeys_cons (ck : Clock * string) (keys : list (Clock * string)) (app : App) :
  typeKeys (ck :: keys) app = typeKeys keys (addKey (fst ck) (snd ck) app).
Proof. done. Qed.

Lemma Join_nonempty (keys : list string) :
  keys ≠ [] → Forall (fun k => k ≠ "") keys → 0 < len (Join keys "").
Proof.
  destruct keys as [|k keys]; [done |]. intros _ [Hk _]%Forall_cons.
  rewrite Join_cons, len_append.
  pose proof (pattern_nonempty_len k Hk). pose proof (len_nonneg (Join keys "")). lia.
Qed.

(** Keys that make up the rest of the pattern finish it. *)
Lemma typeKeys_finish (keys : list (Clock * string)) :
  ∀ app,
    isActive app = true → keys ≠ [] →
    Forall (fun k => k ≠ "") (snd <$> keys) →
    Join (inputBuffer app) "" +:+ Join (snd <$> keys) ""
      = PatternText (currentPattern app) →
    ∃ clk mid,
      typeKeys keys app = finishPattern clk mid
      ∧ isActive mid = true
      ∧ inputBuffer mid = inputBuffer app ++ (snd <$> keys)
      ∧ resetCount mid = resetCount app
      ∧ currentPattern mid = currentPattern app
      ∧ patternQueue mid = patternQueue app
      ∧ sessionTotal mid = sessionTotal app
      ∧ sessionPerfect mid = sessionPerfect app
      ∧ pendingAdvances mid = pendingAdvances app
      ∧ stats mid = stats app.
Proof.
  induction keys as [|[c k] keys IH]; intros app Hact Hne Hkeys Hjoin; [done |].
  change (snd <$> (c, k) :: keys) with (k :: (snd <$> keys)) in *.
  apply Forall_cons in Hkeys as [Hk Hkeys].
  rewrite Join_cons in Hjoin.
  assert (HasPrefix (PatternText (currentPattern app))
            (Join (inputBuffer app ++ [k]) "") = true) as Hp.
  { apply HasPrefix_iff. exists (Join (snd <$> keys) "").
    by rewrite Join_snoc, append_assoc. }
  rewrite typeKeys_cons. simpl fst. simpl snd.
  unfold addKey at 1. rewrite Hact, Hp. cbn [negb].
  change (inputBuffer (acceptKey c k app)) with (inputBuffer app ++ [k]).
  change (currentPattern (acceptKey c k app)) with (currentPattern app).
  assert (len (PatternText (currentPattern app))
          = len (Join (inputBuffer app ++ [k]) "") + len (Join (snd <$> keys) ""))
    as Hlen.
  { rewrite <- Hjoin, Join_snoc, !len_append. lia. }
  destruct keys as [|ck keys].
  - change (len (Join (snd <$> []) "")) with 0 in Hlen.
    rewrite (proj2 (Z.leb_le _ _)) by lia.
    exists c, (acceptKey c k app). by repeat split.
  - assert (0 < len (Join (snd <$> ck :: keys) "")) as Hrest.
    { by apply Join_nonempty. }
    rewrite (proj2 (Z.leb_gt _ _)) by lia.
    destruct (IH (acceptKey c k app)) as (clk & mid & Hrun & Hmid); try done.
    { simpl. by rewrite Join_snoc, append_assoc. }
    exists clk, mid. split; [done |].
    destruct Hmid as (? & Hbuf & ?). split; [done |].
    split; [| done]. rewrite Hbuf. simpl. by rewrite <- app_assoc.
Qed.

(** X9: typing the pattern completes it.  With a pattern active, nothing
    typed yet and no reset so far, any keys that are not empty and that
    put together spell the pattern string end the pattern as one more
    completion and one more perfect completion of the session: the reset
    count is still zero, the pattern is not put back in the queue, its
    mistakes are as before, its perfect count is up by one, and one
    advance is pending. *)
Theorem typing_the_pattern_completes_it (keys : list (Clock * string)) (app : App) :
  isActive app = true → inputBuffer app = [] → resetCount app = 0 →
  keys ≠ [] → Forall (fun k => k ≠ "") (snd <$> keys) →
  Join (snd <$> keys) "" = PatternText (currentPattern app) →
  let app' := typeKeys keys app in
  let text := PatternText (currentPattern app) in
  isActive app' = false
  ∧ inputBuffer app' = snd <$> keys
  ∧ resetCount app' = 0
  ∧ sessionTotal app' = incr (sessionTotal app)
  ∧ sessionPerfect app' = incr (sessionPerfect app)
  ∧ patternQueue app' = patternQueue app
  ∧ pendingAdvances app' = S (pendingAdvances app)
  ∧ mistakesOf (stats app') text = mistakesOf (stats app) text
  ∧ PerfectCount (rowOf (stats app') (currentPattern app))
    = incr (PerfectCount (rowOf (stats app) (currentPattern app)))
  ∧ TotalAttempts (rowOf (stats app') (currentPattern app))
    = incr (TotalAttempts (rowOf (stats app) (currentPattern app))).
Proof.
  intros Hact Hbuf Hreset Hne Hkeys Hjoin app' text.
  destruct (typeKeys_finish keys app Hact Hne Hkeys)
    as (clk & mid & Hrun & Hmact & Hmbuf & Hmreset & Hmpat & Hmq & Hmt & Hmp
        & Hmpend & Hmstats).
  { by rewrite Hbuf. }
  subst app'. rewrite Hrun.
  pose proof (finishPattern_counts clk mid Hmact)
    as (Htot & Hperfect & _ & Hact' & _ & _ & Hreset' & Hpend & _ & Hstats).
  destruct Hperfect as [Hperf Hq]; [congruence |].
  unfold finishPattern. rewrite Hmact. simpl.
  rewrite Hmreset, Hreset. simpl.
  rewrite Hmbuf, Hbuf, Hmt, Hmp, Hmq, Hmpend, Hmstats, Hmpat.
  repeat split; try done.
  - rewrite mistakesOf_save. apply mistakesOf_recordAttempt.
  - by rewrite rowOf_save, rowOf_recordAttempt.
  - by rewrite rowOf_save, rowOf_recordAttempt.
Qed.

Lemma typing_the_pattern_completes_it_witness :
  let p := {| Name := "Army"; PatternText := "1aLC" |} in
  let app := run [at_ 10 [p] (EvTypedKey KeySpace)] (initApp [p] emptyStats) in
  let keys := [(clockAt 20, "1"); (clockAt 30, "a"); (clockAt 40, "LC")] in
  snd <$> keys = tokenSequence "1aLC"
  ∧ isActive (typeKeys keys app) = false
  ∧ sessionPerfect (typeKeys keys app) = incr (sessionPerfect app).
Proof.
  intros p app keys. split; [reflexivity |].
  assert (Forall (fun k => k ≠ "") (snd <$> keys)) as Hkeys.
  { repeat (apply Forall_cons; split; [discriminate |]). by apply Forall_nil. }
  destruct (typing_the_pattern_completes_it keys app eq_refl eq_refl eq_refl)
    as (Hact & _ & _ & _ & Hperf & _);
    [discriminate | exact Hkeys | reflexivity | by split].
Defined.



Lemma startsNow_occur (o : Occurrence) (app : App) :
  startsNow o app = true →
  inSession app = false ∧ occur o app = startSession (clock o) (shuffle o) app.
Proof.
  unfold startsNow, occur.
  destruct (event o) as [key| | |]; try done. simpl. unfold TypedKey.
  destruct (isEscape key && inSession app); simpl; [done |].
  destruct (inSession app); simpl; [done |]. by intros ->.
Qed.

Lemma nextPattern_sessionPerfect (clk : Clock) (app : App) :
  sessionPerfect (nextPattern clk app) = sessionPerfect app.
Proof.
  unfold nextPattern. destruct (inSession app); simpl; [| done].
  by destruct (patternQueue app).
Qed.

(** Under the invariant of a clean run, the counter of perfect completions
    moves with the log. *)
Lemma occur_perfect_count (patterns : list Pattern) (o : Occurrence) (app : App)
    (log : list Pattern) :
  sessionInvariant patterns app log →
  Z.of_nat (length patterns) < 2 ^ 63 →
  enabled o app →
  sessionPerfect app = Z.of_nat (length log) →
  sessionPerfect (occur o app)
  = Z.of_nat (length (if startsNow o app then []
                      else log ++ perfectedBy app (occur o app))).
Proof.
  intros Hinv Hsmall [_ Hadv] Hcount.
  destruct (startsNow o app) eqn:Hstart.
  { apply startsNow_occur in Hstart as [_ ->].
    unfold startSession. by rewrite nextPattern_sessionPerfect. }
  destruct (occur_shape o app)
    as [-> | [(_ & _ & ->) | [(_ & Hst & _) | [(Ha & _ & key & _ & ->) | (Hev & ->)]]]].
  - by rewrite perfectedBy_same, app_nil_r.
  - by rewrite perfectedBy_ended, app_nil_r.
  - congruence.
  - pose proof (sessionInvariant_active_in_session _ _ _ Hinv Ha) as Hs.
    destruct (session_active _ _ _ Hinv Hs Ha) as [_ Hperm].
    destruct (addKey_cases (clock o) key app Ha) as [-> | [-> | [-> | ->]]].
    + by rewrite perfectedBy_same, app_nil_r.
    + by rewrite perfectedBy_still_active, app_nil_r.
    + by rewrite perfectedBy_still_active, app_nil_r.
    + pose proof (finishPattern_counts (clock o) (acceptKey (clock o) key app) Ha)
        as (_ & Hperfect & Hretry & Hact' & Hs' & _).
      simpl in *. unfold perfectedBy. rewrite Ha, Hact', Hs', Hs. simpl.
      destruct (Z.eqb_spec (resetCount app) 0) as [Hr | Hr].
      * destruct (Hperfect Hr) as [-> _]. rewrite length_app. simpl.
        apply Permutation_length in Hperm. rewrite length_app in Hperm.
        simpl in Hperm. rewrite incr_small by lia. lia.
      * destruct (Hretry Hr) as [-> _]. by rewrite app_nil_r.
  - specialize (Hadv Hev).
    assert (isActive app = false) as Hact.
    { destruct (inSession app) eqn:Hs; [| by apply (session_idle _ _ _ Hinv)].
      destruct (isActive app) eqn:Ha; [| done].
      destruct (session_active _ _ _ Hinv Hs Ha) as [Hpend _]. lia. }
    rewrite perfectedBy_idle, app_nil_r by done.
    unfold advanceAfterDelay. simpl.
    destruct (inSession app); [| done].
    by rewrite nextPattern_sessionPerfect.
Qed.

Lemma run_perfect_count (patterns : list Pattern) (st : AllStats)
    (os : list Occurrence) :
  Z.of_nat (length patterns) < 2 ^ 63 →
  allEnabled os (initApp patterns st) →
  startsClean os (initApp patterns st) = true →
  sessionPerfect (run os (initApp patterns st))
  = Z.of_nat (length (perfectedLog os (initApp patterns st) [])).
Proof.
  intros Hsmall. induction os as [|o os IH] using rev_ind; [done |].
  intros [Hen Ho]%allEnabled_snoc [Hcl Hstart]%startsClean_snoc.
  rewrite run_snoc, perfectedLog_snoc.
  apply (occur_perfect_count patterns); try done; [| by apply IH].
  by apply run_session.
Qed.

(** The record an occurrence appends carries the counters it leaves. *)
Lemma occur_record (o : Occurrence) (app : App) (r : SessionRecord) :
  Sessions (stats (occur o app)) = Sessions (stats app) ++ [r] →
  PatternsPerfect r = sessionPerfect (occur o app)
  ∧ PatternsTotal r = sessionTotal (occur o app).
Proof.
  assert (∀ clk a,
            Sessions (stats (nextPattern clk a)) = Sessions (stats app) ++ [r] →
            Sessions (stats a) = Sessions (stats app) →
            PatternsPerfect r = sessionPerfect (nextPattern clk a)
            ∧ PatternsTotal r = sessionTotal (nextPattern clk a)) as Hnext.
  { intros clk a Hr Ha.
    destruct (nextPattern_sessions clk a) as [[(Hst & _) _] | Hc].
    - rewrite Hst, Ha in Hr. by apply sessions_grow in Hr.
    - rewrite Hc in *. simpl in *. rewrite Ha in Hr.
      by apply app_inj_tail in Hr as [_ <-]. }
  destruct (occur_shape o app)
    as [-> | [(_ & _ & ->) | [(_ & _ & ->) | [(Ha & _ & key & _ & ->) | (_ & ->)]]]].
  - intros Hr. by apply sessions_grow in Hr.
  - simpl. intros Hr. by apply app_inj_tail in Hr as [_ <-].
  - unfold startSession. intros Hr. by apply Hnext in Hr.
  - intros Hr. exfalso.
    destruct (addKey_cases (clock o) key app Ha) as [Hk | [Hk | [Hk | Hk]]];
      rewrite Hk in Hr.
    + by apply sessions_grow in Hr.
    + simpl in Hr. rewrite Sessions_recordMistake in Hr. by apply sessions_grow in Hr.
    + by apply sessions_grow in Hr.
    + pose proof (finishPattern_counts (clock o) (acceptKey (clock o) key app) Ha)
        as (_ & _ & _ & _ & _ & _ & _ & _ & Hsess & _).
      rewrite Hsess in Hr. by apply sessions_grow in Hr.
  - unfold advanceAfterDelay. simpl. destruct (inSession app).
    + intros Hr. by apply Hnext in Hr.
    + intros Hr. by apply sessions_grow in Hr.
Qed.

(** X12: a clean session that ends as completed says so in its record.
    In a run in which no session starts over a pending advance, and with
    fewer than 2^63 patterns loaded, the record of a session that ends as
    completed counts as many perfect completions as there are loaded
    patterns, and at least as many completions. *)
Theorem completed_session_counts (patterns : list Pattern) (st : AllStats)
    (os : list Occurrence) (o : Occurrence) (r : SessionRecord) :
  Z.of_nat (length patterns) < 2 ^ 63 →
  Z.of_nat (length os) < 2 ^ 63 - 1 →
  allEnabled (os ++ [o]) (initApp patterns st) →
  startsClean (os ++ [o]) (initApp patterns st) = true →
  Sessions (stats (run (os ++ [o]) (initApp patterns st)))
    = Sessions (stats (run os (initApp patterns st))) ++ [r] →
  Completed r = true →
  PatternsPerfect r = Z.of_nat (length patterns)
  ∧ PatternsPerfect r ≤ PatternsTotal r.
Proof.
  intros Hsmall Hshort Hen Hcl Hr Hc.
  pose proof (run_perfect_count patterns st (os ++ [o]) Hsmall Hen Hcl) as Hcount.
  pose proof Hen as [Hen' Ho]%allEnabled_snoc.
  pose proof Hcl as [Hcl' Hstart]%startsClean_snoc.
  pose proof (run_session patterns st os Hen' Hcl') as Hinv.
  destruct (occur_session patterns o _ _ Hinv Ho Hstart) as [_ Hend].
  destruct Hend as [Hperm _].
  { exists r. split; [| done]. by rewrite <- run_snoc. }
  rewrite <- perfectedLog_snoc in Hperm. apply Permutation_length in Hperm.
  rewrite run_snoc in Hr. apply occur_record in Hr as [Hp Ht].
  rewrite <- run_snoc in Hp, Ht.
  destruct (session_counters_bounded_aux patterns st (os ++ [o])) as (_ & Hle & _).
  { rewrite length_app. simpl. lia. }
  split; [rewrite Hp, Hcount; lia | lia].
Qed.

Lemma completed_session_counts_witness :
  let A := {| Name := "Select"; PatternText := "a" |} in
  let B := {| Name := "Build"; PatternText := "bc" |} in
  let os :=
    [at_ 10 [A; B] (EvTypedKey KeySpace); at_ 20 [A; B] (EvTypedRune 97);
     at_ 30 [A; B] EvAdvance; at_ 40 [A; B] (EvTypedRune 98);
     at_ 50 [A; B] (EvTypedRune 120); at_ 60 [A; B] (EvTypedRune 98);
     at_ 70 [A; B] (EvTypedRune 99); at_ 80 [A; B] EvAdvance;
     at_ 90 [A; B] (EvTypedRune 98); at_ 100 [A; B] (EvTypedRune 99)] in
  let o := at_ 110 [A; B] EvAdvance in
  ∃ r, last (Sessions (stats (run (os ++ [o]) (initApp [A; B] emptyStats)))) = Some r
       ∧ PatternsTotal r = 3
       ∧ PatternsPerfect r = 2 ∧ PatternsPerfect r ≤ PatternsTotal r.
Proof.
  intros A B os o. eexists. split; [vm_compute; reflexivity |].
  split; [reflexivity |].
  apply (completed_session_counts [A; B] emptyStats os o).
  - reflexivity.
  - reflexivity.
  - apply allEnabled_intro; [| by vm_compute].
    repeat (apply Forall_cons; split; [apply Permutation_refl |]).
    by apply Forall_nil.
  - by vm_compute.
  - vm_compute. reflexivity.
  - reflexivity.
Defined.

Lemma finishPattern_startTime (clk : Clock) (app : App) :
  startTime (finishPattern clk app) = startTime app.
Proof.
  unfold finishPattern. destruct (isActive app); simpl; [| done].
  by destruct (resetCount app =? 0).
Qed.

Lemma addKey_startTime_value (clk : Clock) (key : string) (app : App) :
  startTime (addKey clk key app)
  = if isActive app
       && HasPrefix (PatternText (currentPattern app))
            (Join (inputBuffer app ++ [key]) "")
       && IsZero (startTime app)
    then nowStart clk else startTime app.
Proof.
  unfold addKey. destruct (isActive app); simpl; [| done].
  destruct (HasPrefix _ _); simpl.
  - destruct (_ <=? _); rewrite ?finishPattern_startTime; simpl;
      by destruct (IsZero (startTime app)).
  - by destruct (inputBuffer app).
Qed.

(** X13: the clock of a pattern is started once.  A start time that is
    set is not changed by any keys that follow, accepted, rejected or
    completing, so the time of a completion runs from the first accepted
    key through every reset; and a key sets the start time only when it is
    accepted while none is set. *)
Theorem startTime_set_once (app : App) :
  (IsZero (startTime app) = false →
   ∀ keys, startTime (typeKeys keys app) = startTime app)
  ∧ (∀ clk key,
       startTime (addKey clk key app) ≠ startTime app →
       IsZero (startTime app) = true
       ∧ isActive app = true
       ∧ HasPrefix (PatternText (currentPattern app))
           (Join (inputBuffer app ++ [key]) "") = true
       ∧ startTime (addKey clk key app) = nowStart clk).
Proof.
  split.
  - intros Hset keys. revert app Hset.
    induction keys as [|[c k] keys IH]; intros app Hset; [done |].
    rewrite typeKeys_cons. simpl.
    assert (startTime (addKey c k app) = startTime app) as Hsame.
    { rewrite addKey_startTime_value, Hset. by rewrite !andb_false_r. }
    rewrite IH; [done | by rewrite Hsame].
  - intros clk key. rewrite addKey_startTime_value.
    destruct (isActive app); simpl; [| done].
    destruct (HasPrefix _ _); simpl; [| done].
    by destruct (IsZero (startTime app)).
Qed.

Lemma startTime_set_once_witness :
  let p := {| Name := "Army"; PatternText := "1aLC" |} in
  let app :=
    run [at_ 10 [p] (EvTypedKey KeySpace); at_ 20 [p] (EvTypedRune 49)]
      (initApp [p] emptyStats) in
  startTime app = 20
  ∧ startTime (typeKeys [(clockAt 30, "x"); (clockAt 40, "1"); (clockAt 50, "a")] app)
    = startTime app.
Proof.
  intros p app. split; [reflexivity |].
  destruct (startTime_set_once app) as [Hkeep _].
  by apply Hkeep.
Defined.

(** X14: what the start key does outside a session.  With patterns to
    play, the engine is active on the head of the shuffled queue with the
    rest queued, the buffer, the reset count, the start time and both
    session counters cleared and the statistics untouched, whatever an
    earlier session left behind; with no pattern at all the session ends
    at once as completed, with a record of no completion. *)
Theorem session_start (o : Occurrence) (app : App) (key : KeyName) :
  event o = EvTypedKey key → startsSession key = true →
  inSession app = false →
  let app' := occur o app in
  (∀ head rest,
     shuffle o = head :: rest →
     inSession app' = true ∧ isActive app' = true
     ∧ currentPattern app' = head ∧ patternQueue app' = rest
     ∧ inputBuffer app' = [] ∧ resetCount app' = 0
     ∧ startTime app' = zeroTime
     ∧ sessionTotal app' = 0 ∧ sessionPerfect app' = 0
     ∧ sessionStart app' = nowSession (clock o)
     ∧ stats app' = stats app)
  ∧ (shuffle o = [] →
     inSession app' = false ∧ isActive app' = false
     ∧ PatternStatsMap (stats app') = PatternStatsMap (stats app)
     ∧ Sessions (stats app')
       = Sessions (stats app)
         ++ [ {| StartTime := nowSession (clock o); EndTime := nowEnd (clock o);
                 SessionDuration := Sub (nowEnd (clock o)) (nowSession (clock o));
                 PatternsTotal := 0; PatternsPerfect := 0; Completed := true |} ]).
Proof.
  intros Hev Hkey Hs app'.
  assert (app' = startSession (clock o) (shuffle o) app) as ->.
  { subst app'. apply startsNow_occur. unfold startsNow.
    rewrite Hev, Hs, Hkey. by rewrite andb_false_r. }
  unfold startSession, nextPattern. simpl. split.
  - intros head rest ->. done.
  - intros ->. done.
Qed.

Lemma session_start_witness :
  let o := at_ 10 defaultPatterns (EvTypedKey KeyEnter) in
  let app' := occur o (initApp defaultPatterns emptyStats) in
  isActive app' = true ∧ PatternText (currentPattern app') = "1a2a3a4a5a"
  ∧ length (patternQueue app') = 4%nat.
Proof.
  intros o app'.
  destruct (session_start o (initApp defaultPatterns emptyStats) KeyEnter
              eq_refl eq_refl eq_refl) as [Hhead _].
  destruct (Hhead _ _ eq_refl) as (_ & Hact & Hcur & Hq & _).
  fold app' in Hact, Hcur, Hq. rewrite Hcur, Hq. by split.
Defined.

(** X18: a pattern typed after a reset comes back later.  With a pattern
    active, the buffer empty and at least one reset behind it, keys that
    spell the pattern string end it as a completion that is not perfect:
    the session's completions go up by one, its perfect completions stay,
    the pattern goes to the end of the queue, behind all that wait there,
    and the current streak of its row falls to zero, the best streak
    staying. *)
Theorem retyping_after_reset_requeues (keys : list (Clock * string)) (app : App) :
  isActive app = true → inputBuffer app = [] → resetCount app ≠ 0 →
  keys ≠ [] → Forall (fun k => k ≠ "") (snd <$> keys) →
  Join (snd <$> keys) "" = PatternText (currentPattern app) →
  let app' := typeKeys keys app in
  isActive app' = false
  ∧ sessionTotal app' = incr (sessionTotal app)
  ∧ sessionPerfect app' = sessionPerfect app
  ∧ patternQueue app' = patternQueue app ++ [currentPattern app]
  ∧ pendingAdvances app' = S (pendingAdvances app)
  ∧ statusLabel app' = StatusRetry (resetCount app)
  ∧ CurrentStreak (rowOf (stats app') (currentPattern app)) = 0
  ∧ BestStreak (rowOf (stats app') (currentPattern app))
    = BestStreak (rowOf (stats app) (currentPattern app))
  ∧ TotalResets (rowOf (stats app') (currentPattern app))
    = add64 (TotalResets (rowOf (stats app) (currentPattern app))) (resetCount app).
Proof.
  intros Hact Hbuf Hreset Hne Hkeys Hjoin app'.
  destruct (typeKeys_finish keys app Hact Hne Hkeys)
    as (clk & mid & Hrun & Hmact & Hmbuf & Hmreset & Hmpat & Hmq & Hmt & Hmp
        & Hmpend & Hmstats).
  { by rewrite Hbuf. }
  subst app'. rewrite Hrun.
  unfold finishPattern. rewrite Hmact. simpl.
  rewrite Hmreset, (proj2 (Z.eqb_neq _ _) Hreset). simpl.
  rewrite Hmt, Hmp, Hmq, Hmpend, Hmstats, Hmpat.
  repeat split; try done.
  all: rewrite rowOf_save, rowOf_recordAttempt; unfold attemptOn;
    by rewrite (proj2 (Z.eqb_neq _ _) Hreset).
Qed.

Lemma retyping_after_reset_requeues_witness :
  let A := {| Name := "Army"; PatternText := "1aLC" |} in
  let B := {| Name := "Build"; PatternText := "b" |} in
  let app :=
    run [at_ 10 [A; B] (EvTypedKey KeySpace); at_ 20 [A; B] (EvTypedRune 49);
         at_ 30 [A; B] (EvTypedRune 120)] (initApp [A; B] emptyStats) in
  let keys := [(clockAt 40, "1"); (clockAt 50, "a"); (clockAt 60, "LC")] in
  resetCount app = 1
  ∧ patternQueue (typeKeys keys app) = [B; A]
  ∧ sessionPerfect (typeKeys keys app) = sessionPerfect app.
Proof.
  intros A B app keys. split; [reflexivity |].
  assert (Forall (fun k => k ≠ "") (snd <$> keys)) as Hkeys.
  { repeat (apply Forall_cons; split; [discriminate |]). by apply Forall_nil. }
  destruct (retyping_after_reset_requeues keys app eq_refl eq_refl)
    as (_ & _ & Hperf & Hq & _);
    [discriminate | discriminate | exact Hkeys | reflexivity |].
  split; [exact Hq | exact Hperf].
Defined.

Lemma TotalSessions_recordAttempt (pattern : Pattern) (elapsed : Duration)
    (resets : Z) (now : Time) (s : AllStats) :
  TotalSessions (recordAttempt pattern elapsed resets now s) = TotalSessions s.
Proof.
  unfold recordAttempt, getPatternStats.
  by destruct (PatternStatsMap s !! PatternText pattern).
Qed.

Lemma TotalSessions_recordMistake (pattern : Pattern) (position : Z)
    (expected actual : string) (now : Time) (s : AllStats) :
  TotalSessions (recordMistake pattern position expected actual now s)
  = TotalSessions s.
Proof.
  unfold recordMistake, getPatternStats.
  by destruct (PatternStatsMap s !! PatternText pattern).
Qed.

(** The count of sessions moves with the list of records. *)
Lemma occur_total_sessions (o : Occurrence) (app : App) :
  (Sessions (stats (occur o app)) = Sessions (stats app)
   ∧ TotalSessions (stats (occur o app)) = TotalSessions (stats app))
  ∨ (length (Sessions (stats (occur o app))) = S (length (Sessions (stats app)))
     ∧ TotalSessions (stats (occur o app)) = incr (TotalSessions (stats app))).
Proof.
  assert (∀ clk a,
            stats a = stats app →
            (Sessions (stats (nextPattern clk a)) = Sessions (stats app)
             ∧ TotalSessions (stats (nextPattern clk a)) = TotalSessions (stats app))
            ∨ (length (Sessions (stats (nextPattern clk a)))
               = S (length (Sessions (stats app)))
               ∧ TotalSessions (stats (nextPattern clk a))
                 = incr (TotalSessions (stats app)))) as Hnext.
  { intros clk a Ha.
    destruct (nextPattern_sessions clk a) as [[(-> & _) _] | ->].
    - left. by rewrite Ha.
    - right. simpl. rewrite Ha, length_app. simpl. split; [lia | done]. }
  destruct (occur_shape o app)
    as [-> | [(_ & _ & ->) | [(_ & _ & ->) | [(Ha & _ & key & _ & ->) | (_ & ->)]]]].
  - by left.
  - right. simpl. rewrite length_app. simpl. split; [lia | done].
  - unfold startSession. by apply Hnext.
  - left. destruct (addKey_cases (clock o) key app Ha) as [-> | [-> | [-> | ->]]].
    + done.
    + simpl. by rewrite Sessions_recordMistake, TotalSessions_recordMistake.
    + done.
    + unfold finishPattern. simpl. rewrite Ha. simpl.
      destruct (resetCount app =? 0); simpl;
        by rewrite Sessions_recordAttempt, TotalSessions_recordAttempt.
  - unfold advanceAfterDelay. simpl. destruct (inSession app); [| by left].
    by apply Hnext.
Qed.

(** X19: the count of sessions keeps step with the list of sessions.  If
    the two agree in the loaded statistics, they agree after any course of
    events, as long as the count stays below 2^63: every record appended,
    by a stop or by a completion, adds one to the count, and nothing else
    touches either. *)
Theorem total_sessions_in_step (os : list Occurrence) (app : App) :
  TotalSessions (stats app) = Z.of_nat (length (Sessions (stats app))) →
  Z.of_nat (length (Sessions (stats app)) + length os) < 2 ^ 63 →
  TotalSessions (stats (run os app))
  = Z.of_nat (length (Sessions (stats (run os app)))).
Proof.
  revert app. induction os as [|o os IH]; intros app Hstep Hsmall; [done |].
  rewrite run_cons. simpl in Hsmall.
  destruct (occur_total_sessions o app) as [[Hs Ht] | [Hs Ht]].
  - apply IH; [by rewrite Ht, Hs | rewrite Hs; lia].
  - apply IH; [| rewrite Hs; lia].
    rewrite Ht, Hs, Hstep, incr_small by lia. lia.
Qed.

Lemma total_sessions_in_step_witness :
  let p := {| Name := "Siege"; PatternText := "z" |} in
  let os :=
    [at_ 10 [p] (EvTypedKey KeySpace); at_ 20 [p] (EvTypedKey KeyEscape);
     at_ 30 [p] (EvTypedKey KeySpace); at_ 40 [p] (EvTypedRune 122);
     at_ 50 [p] EvAdvance] in
  TotalSessions (stats (run os (initApp [p] emptyStats))) = 2.
Proof.
  intros p os.
  rewrite (total_sessions_in_step os (initApp [p] emptyStats));
    reflexivity.
Defined.

End TrainerCoverage.

(** * Loading and display beyond the claims *)

Section LoaderCoverage.

(** X15: [loadPatterns] never comes back empty-handed.  It returns the
    patterns of the file in the working directory when that file reads
    without error and holds a pattern; else those of the file next to the
    executable under the same conditions; else the five default patterns;
    the result is never the empty list. *)
Theorem loadPatterns_never_empty (cwd : option (list string))
    (exe : option (option (list string))) :
  Coverage.loadPatterns cwd exe ≠ []
  ∧ (∀ ps, loadPatternsFromFile cwd = Some ps → ps ≠ [] →
           Coverage.loadPatterns cwd exe = ps)
  ∧ (∀ file ps,
       (loadPatternsFromFile cwd = None ∨ loadPatternsFromFile cwd = Some []) →
       exe = Some file → loadPatternsFromFile file = Some ps → ps ≠ [] →
       Coverage.loadPatterns cwd exe = ps)
  ∧ ((loadPatternsFromFile cwd = None ∨ loadPatternsFromFile cwd = Some []) →
     (∀ file, exe = Some file →
              loadPatternsFromFile file = None ∨ loadPatternsFromFile file = Some []) →
     Coverage.loadPatterns cwd exe = defaultPatterns).
Proof.
  unfold Coverage.loadPatterns.
  split; [| split; [| split]].
  - destruct (loadPatternsFromFile cwd) as [[|p ps]|]; try done;
      destruct exe as [file|]; try done;
      destruct (loadPatternsFromFile file) as [[|q qs]|]; done.
  - intros ps -> Hne. by destruct ps.
  - intros file ps Hcwd -> Hfile Hne. rewrite Hfile.
    destruct Hcwd as [-> | ->]; by destruct ps.
  - intros Hcwd Hexe.
    destruct Hcwd as [-> | ->]; destruct exe as [file|]; try done;
      destruct (Hexe file eq_refl) as [-> | ->]; done.
Qed.

Lemma loadPatterns_never_empty_witness :
  Coverage.loadPatterns (Some ["# my patterns"; ""]) (Some (Some ["Tank Siege|1z4z"]))
  = [ {| Name := "Tank Siege"; PatternText := "1z4z" |} ].
Proof.
  destruct (loadPatterns_never_empty (Some ["# my patterns"; ""])
              (Some (Some ["Tank Siege|1z4z"]))) as (_ & _ & H & _).
  apply (H (Some ["Tank Siege|1z4z"])); try reflexivity; [by right | discriminate].
Defined.

Lemma splitAtBar_None (line : string) :
  Loader.splitAtBar line = None ↔ noBar line = true.
Proof.
  induction line as [|c line IH]; simpl; [done |].
  destruct (Ascii.eqb c "|"%char); simpl; [done |].
  destruct (Loader.splitAtBar line) as [[a b]|]; simpl.
  - split; [done |]. intros H. apply IH in H. done.
  - split; [| done]. intros _. by apply IH.
Qed.

Lemma splitAtBar_Some (line name pattern : string) :
  Loader.splitAtBar line = Some (name, pattern) →
  noBar name = true ∧ line = name +:+ "|" +:+ pattern.
Proof.
  revert name. induction line as [|c line IH]; intros name; simpl; [done |].
  destruct (Ascii.eqb_spec c "|"%char) as [-> | Hc].
  - intros [= <- <-]. done.
  - destruct (Loader.splitAtBar line) as [[a b]|]; [| done].
    intros [= <- <-]. destruct (IH a eq_refl) as [Ha ->]. simpl.
    rewrite Ha. split; [| done].
    by rewrite (proj2 (Ascii.eqb_neq _ _) Hc).
Qed.

Lemma noBar_append_bar (name pattern : string) :
  noBar (name +:+ "|" +:+ pattern) = false.
Proof.
  induction name as [|c name IH]; simpl in *; [done |].
  by rewrite IH, andb_false_r.
Qed.

(** X16: a line of the pattern file gives at most one pattern.  A line
    that, trimmed, is empty or starts with # gives none.  Any other line
    gives exactly one: without a bar, the trimmed line is both its name
    and its pattern; with a bar, the name is what stands before the first
    bar and the pattern all that follows it, further bars included, so
    that name, bar and pattern put together are the trimmed line. *)
Theorem parseLine_cases (text : string) :
  let line := Loader.TrimSpace text in
  (line = "" ∨ HasPrefix line "#" = true → Loader.parseLine text = [])
  ∧ (line ≠ "" → HasPrefix line "#" = false →
     ∃ p, Loader.parseLine text = [p]
          ∧ ((noBar line = true ∧ Name p = line ∧ PatternText p = line)
             ∨ (noBar line = false ∧ noBar (Name p) = true
                ∧ Name p +:+ "|" +:+ PatternText p = line))).
Proof.
  intros line. unfold Loader.parseLine. fold line. split.
  - intros [-> | ->]; [done |]. by rewrite orb_true_r.
  - intros Hne Hhash. rewrite Hhash.
    rewrite (proj2 (String.eqb_neq _ _) Hne). simpl.
    destruct (Loader.splitAtBar line) as [[name pattern]|] eqn:Hsplit.
    + apply splitAtBar_Some in Hsplit as [Hname Hline].
      eexists. split; [done |]. right. simpl. split; [| done].
      rewrite Hline at 1. apply noBar_append_bar.
    + apply splitAtBar_None in Hsplit.
      eexists. split; [done |]. by left.
Qed.

Lemma parseLine_cases_witness :
  Loader.parseLine "  Rally|F4LC|F3RC  "
  = [ {| Name := "Rally"; PatternText := "F4LC|F3RC" |} ]
  ∧ ∃ p, Loader.parseLine "1z4z" = [p] ∧ Name p = "1z4z" ∧ PatternText p = "1z4z".
Proof.
  split; [reflexivity |].
  destruct (parseLine_cases "1z4z") as [_ H].
  destruct H as (p & Hp & [(_ & Hn & Ht) | (Hbar & _)]);
    [discriminate | reflexivity | | discriminate].
  exists p. by repeat split.
Defined.

(** White space beyond ASCII is trimmed as well: a line that holds
    nothing but U+00A0 gives no pattern, and U+00A0 or U+3000 around a
    line is no part of its name.  U+200B is no white space and stays, and
    so do bytes that are no valid UTF-8. *)
Example parseLine_unicode_space :
  Loader.parseLine (stringOfRune 160) = []
  ∧ Loader.parseLine (stringOfRune 160 +:+ "abc" +:+ stringOfRune 160)
    = [ {| Name := "abc"; PatternText := "abc" |} ]
  ∧ Loader.parseLine (stringOfRune 12288 +:+ " Rally|F4LC" +:+ stringOfRune 8202 +:+ stringOfRune 133)
    = [ {| Name := "Rally"; PatternText := "F4LC" |} ]
  ∧ Loader.TrimSpace (" " +:+ stringOfRune 8203 +:+ " ") = stringOfRune 8203
  ∧ Loader.TrimSpace (String (byteOf 192) (String (byteOf 160) " "))
    = String (byteOf 192) (String (byteOf 160) "")
  ∧ Coverage.loadPatterns (Some [stringOfRune 160; "# none"]) None = defaultPatterns.
Proof. vm_compute. repeat split; reflexivity. Qed.

(** What [TrimSpace] returns starts with no white space. *)
Lemma trimLeftFrom_first (skip : nat) (s : string) :
  Loader.IsSpace (fst (Loader.DecodeRuneInString (Loader.trimLeftFrom skip s))) = false.
Proof.
  revert skip. induction s as [|c s IH]; intros skip; [by destruct skip |].
  destruct skip as [|k]; [| apply IH].
  cbn [Loader.trimLeftFrom].
  destruct (Loader.DecodeRuneInString (String c s)) as [r size] eqn:Hdecode.
  destruct (Loader.IsSpace r) eqn:Hspace; [apply IH |].
  by rewrite Hdecode.
Qed.

(** The left trim only cuts bytes off the front. *)
Lemma trimLeftFrom_suffix (skip : nat) (s : string) :
  ∃ before, s = before +:+ Loader.trimLeftFrom skip s.
Proof.
  revert skip. induction s as [|c s IH]; intros skip; [by exists "" |].
  destruct skip as [|k].
  - cbn [Loader.trimLeftFrom].
    destruct (Loader.DecodeRuneInString (String c s)) as [r size].
    destruct (Loader.IsSpace r); [| by exists ""].
    destruct (IH (size - 1)%nat) as [before Hbefore].
    exists (String c before). simpl. by rewrite <- Hbefore.
  - destruct (IH k) as [before Hbefore].
    exists (String c before). simpl. by rewrite <- Hbefore.
Qed.

Lemma substring_prefix (n : nat) (s : string) :
  ∃ after, s = String.substring 0 n s +:+ after.
Proof.
  revert n. induction s as [|c s IH]; intros [|n]; simpl;
    [by exists "" | by exists "" | by exists (String c s) |].
  destruct (IH n) as [after Hafter]. exists after. by rewrite <- Hafter.
Qed.

(** The trimmed line is a piece of the line. *)
Lemma TrimSpace_slice (text : string) :
  ∃ before after, text = before +:+ Loader.TrimSpace text +:+ after.
Proof.
  unfold Loader.TrimSpace, Loader.trimLeft.
  destruct (trimLeftFrom_suffix 0 text) as [before Hbefore].
  exists before.
  assert (∀ s, ∃ after, s = Loader.trimRight s +:+ after) as Hright.
  { intros s. unfold Loader.trimRight, Loader.sliceTo.
    repeat case_match; apply substring_prefix. }
  destruct (Hright (Loader.trimLeftFrom 0 text)) as [after Hafter].
  exists after. by rewrite <- Hafter.
Qed.

(** A rune read from a string that is not empty takes at least one
    byte, from the front and from the back. *)
Lemma DecodeRuneInString_width (s : string) :
  s ≠ "" → (1 ≤ snd (Loader.DecodeRuneInString s))%nat.
Proof.
  destruct s as [|c s]; [done |]. intros _.
  unfold Loader.DecodeRuneInString.
  repeat case_match; simpl; lia.
Qed.

Lemma get_last (c : ascii) (s : string) :
  is_Some (String.get (String.length s) (String c s)).
Proof.
  revert c. induction s as [|d s IH]; intros c; [by exists c |]. apply (IH d).
Qed.

Lemma DecodeLastRuneInString_width (s : string) :
  s ≠ "" → (1 ≤ snd (Loader.DecodeLastRuneInString s))%nat.
Proof.
  destruct s as [|c s]; [done |]. intros _.
  unfold Loader.DecodeLastRuneInString.
  set (end_ := len (String c s)).
  assert (end_ = Z.of_nat (String.length s) + 1) as Hend
    by (unfold end_, len; simpl String.length; lia).
  assert (is_Some (byteAt (String c s) (end_ - 1))) as [b Hb].
  { unfold byteAt. rewrite Hend.
    replace (Z.of_nat (String.length s) + 1 - 1) with (Z.of_nat (String.length s)) by lia.
    rewrite (proj2 (Z.leb_le _ _)) by lia. rewrite Nat2Z.id. apply get_last. }
  rewrite Hb. destruct (_ <? 128); [simpl; lia |].
  match goal with
  | |- context [Loader.DecodeRuneInString ?t] =>
      destruct (Loader.DecodeRuneInString t) as [r size]
  end.
  match goal with
  | |- context [?start + Z.of_nat size =? end_] =>
      destruct (Z.eqb_spec (start + Z.of_nat size) end_) as [Heq | _];
      [| simpl; lia];
      assert (start ≤ end_ - 1) as Hstart by (repeat case_match; lia)
  end.
  simpl. lia.
Qed.

Lemma sliceTo_nonempty (s : string) (i : Z) :
  0 < i → s ≠ "" → Loader.sliceTo s i ≠ "".
Proof.
  intros Hi Hs. unfold Loader.sliceTo.
  destruct s as [|c s]; [done |].
  destruct (Z.to_nat i) as [|n] eqn:Hn; [lia | done].
Qed.

(** The loop of the right trim ends by itself: fuel beyond the index it
    starts from changes nothing. *)
Lemma lastIndexFrom_fuel (fuel extra : nat) (s : string) (i : Z) :
  i ≤ Z.of_nat fuel →
  Loader.lastIndexFrom (fuel + extra) s i = Loader.lastIndexFrom fuel s i.
Proof.
  revert i. induction fuel as [|fuel IH]; intros i Hi.
  - destruct extra as [|extra]; [done |]. simpl.
    by rewrite (proj2 (Z.leb_le _ _)) by lia.
  - cbn [Nat.add Loader.lastIndexFrom].
    destruct (Z.leb_spec i 0) as [_ | Hpos]; [done |].
    destruct s as [|c s].
    + destruct (Loader.DecodeLastRuneInString (Loader.sliceTo "" i)) as [r size] eqn:Hd.
      assert (size = 0%nat ∧ r = Loader.RuneError) as [-> ->].
      { unfold Loader.sliceTo in Hd. by destruct (Z.to_nat i); injection Hd as <- <-. }
      change (Loader.IsSpace Loader.RuneError) with false. done.
    + assert (String c s ≠ "") as Hne by done.
      pose proof (DecodeLastRuneInString_width _
                    (sliceTo_nonempty _ _ Hpos Hne)) as Hwidth.
      destruct (Loader.DecodeLastRuneInString _) as [r size].
      simpl in Hwidth. destruct (negb _); [done |].
      apply IH. lia.
Qed.

Lemma contains_prefix (s old : string) :
  HasPrefix s old = true → contains s old = true.
Proof. intros H. destruct s; simpl; by rewrite H. Qed.

Lemma contains_iff (s old : string) : contains s old = true ↔ occursIn old s.
Proof.
  split.
  - induction s as [|c s IH]; simpl.
    + rewrite orb_false_r. intros H. apply HasPrefix_empty_l in H as ->.
      by exists "", "".
    + intros [H | H]%orb_true_iff.
      * apply HasPrefix_iff in H as [r Hr]. by exists "", r.
      * destruct (IH H) as (before & after & ->). by exists (String c before), after.
  - intros (before & after & ->). induction before as [|c before IH].
    + change ("" +:+ old +:+ after) with (old +:+ after).
      apply contains_prefix, HasPrefix_append.
    + simpl. by rewrite IH, orb_true_r.
Qed.

Lemma ReplaceAll_absent (s old new : string) :
  contains s old = false → ReplaceAll s old new = s.
Proof.
  unfold ReplaceAll. induction s as [|c s IH]; simpl; [done |].
  intros [Hp Hs]%orb_false_iff. rewrite Hp. by rewrite IH.
Qed.

(** X17: plain patterns are shown as typed.  A string in which none of
    the seventeen literals occurs comes out of [formatForDisplay] as it
    went in. *)
Theorem formatForDisplay_plain (s : string) :
  (∀ t, In t tokens → ¬ occursIn t s) → formatForDisplay s = s.
Proof.
  intros Hnone. unfold formatForDisplay.
  assert (∀ l, (∀ t, In t l → contains s t = false) →
               fold_left
                 (fun result token =>
                    match lookupIcon token with
                    | Some icon => ReplaceAll result token icon
                    | None => result
                    end) l s = s) as Hfold.
  { induction l as [|t l IH]; intros Hl; simpl; [done |].
    assert (match lookupIcon t with
            | Some icon => ReplaceAll s t icon
            | None => s
            end = s) as ->.
    { destruct (lookupIcon t); [| done].
      apply ReplaceAll_absent, Hl. by left. }
    apply IH. intros u Hu. apply Hl. by right. }
  apply Hfold. intros t Hin.
  destruct (contains s t) eqn:Hc; [| done].
  apply contains_iff in Hc. by destruct (Hnone t Hin).
Qed.

Lemma formatForDisplay_plain_witness :
  formatForDisplay "1a2a3a4a5a" = "1a2a3a4a5a".
Proof.
  apply formatForDisplay_plain. intros t Hin Hocc.
  apply contains_iff in Hocc.
  assert (forallb (fun u => negb (contains "1a2a3a4a5a" u)) tokens = true) as Hall
    by reflexivity.
  rewrite forallb_forall in Hall. specialize (Hall t Hin).
  rewrite Hocc in Hall. discriminate.
Defined.

Lemma dropBytes_len_append (pre rest : string) :
  dropBytes (Z.to_nat (len pre)) (pre +:+ rest) = rest.
Proof. unfold len. rewrite Nat2Z.id. apply dropBytes_append. Qed.

Lemma Join_take_drop (toks : list string) (k : nat) (t : string) :
  toks !! k = Some t →
  Join toks "" = Join (take k toks) "" +:+ t +:+ Join (drop (S k) toks) "".
Proof.
  intros Hk. rewrite <- (take_drop_middle toks k t Hk) at 1.
  by rewrite Join_app, Join_cons.
Qed.

(** X20: the expected token is read from the pattern.  Whatever the
    offset, [getExpectedKey] returns the marker "?", or a token that
    stands in the pattern at that offset, or, for a lone byte of 0x80 or
    more standing there, the two-byte string Go makes of that byte --
    which as a rule does not stand in the pattern at that offset.  On a
    pattern of ASCII bytes the third case does not arise. *)
Theorem getExpectedKey_in_pattern (pattern : string) (charPos : Z) :
  getExpectedKey pattern charPos = "?"
  ∨ (0 ≤ charPos < len pattern
     ∧ HasPrefix (dropBytes (Z.to_nat charPos) pattern)
         (getExpectedKey pattern charPos) = true)
  ∨ (0 ≤ charPos < len pattern
     ∧ ∃ b, byteAt pattern charPos = Some b
            ∧ (128 ≤ N_of_ascii b)%N
            ∧ getExpectedKey pattern charPos = stringOfByte b).
Proof.
  rewrite getExpectedKey_tokenStartingAt.
  pose proof (tokenSequence_from_nonempty (String.length pattern) pattern) as Hne.
  fold (tokenSequence pattern) in Hne.
  destruct (tokenStartingAt (tokenSequence pattern) charPos) as [t|] eqn:Ht;
    [| by left].
  right.
  pose proof (tokenStartingAt_range _ _ _ Hne Ht) as Hrange.
  rewrite tokenSequence_Join in Hrange.
  apply tokenStartingAt_Some in Ht as (k & Hk & Hoff).
  pose proof (Join_take_drop _ _ _ Hk) as Hsplit.
  rewrite tokenSequence_Join in Hsplit.
  assert (dropBytes (Z.to_nat charPos) pattern
          = t +:+ Join (drop (S k) (tokenSequence pattern)) "") as Hdrop.
  { rewrite Hsplit at 1. rewrite Hoff. apply dropBytes_len_append. }
  simpl. destruct t as [|b [|b2 t]].
  - apply (Forall_lookup_1 _ _ _ _ Hne) in Hk. done.
  - simpl. destruct (N.ltb_spec (N_of_ascii b) 128) as [Hb | Hb].
    + left. split; [done |]. rewrite stringOfByte_ascii by done.
      rewrite Hdrop. apply HasPrefix_append.
    + right. split; [done |]. exists b. split; [| done].
      rewrite Hsplit at 1. rewrite Hoff. apply byteAt_append.
  - left. split; [done |]. rewrite Hdrop. apply HasPrefix_append.
Qed.

(** The third case at work: the first byte of a two-byte character. *)
Lemma getExpectedKey_high_byte :
  let pattern := String (byteOf 195) (String (byteOf 169) "") in
  getExpectedKey pattern 0 = String (byteOf 195) (String (byteOf 131) "")
  ∧ HasPrefix pattern (getExpectedKey pattern 0) = false.
Proof. split; reflexivity. Qed.

End LoaderCoverage.
